(** * my-note-app: the note store, its request handlers and the sidebar views

    A shallow embedding of the host process (one SQLite table [notes] and
    seven prepared statements behind six request handlers) and of the
    rendering and loading code of the sidebar views
    ([src/mainview/index.ts] and its search-enabled sibling).

    Conventions of the model.
    - Text is a sequence of character codes.  On the JavaScript side these
      are UTF-16 code units; SQLite sees the same text as code points, and
      the two coincide on the Basic Multilingual Plane.  The store looks
      into text only inside [LIKE], which reads its operands as C strings.
    - [datetime('now')] is the reading of the system clock, rendered by
      SQLite as the text [YYYY-MM-DD HH:MM:SS].  Every statement that uses it
      takes that reading as an explicit argument [now]; within one
      statement all uses of ['now'] yield the same value.
    - [ORDER BY] on a TEXT column compares with the BINARY collation, that
      is lexicographically by character code; rows with equal keys leave
      SQLite's sorter in scan order, which is rowid order here.
    - Requests carry values of their declared types: ids are integers,
      titles and contents are strings.
    - Storage faults (disk, corruption) are outside the model.  Exhaustion
      of the 64-bit rowid space belongs to the contract of AUTOINCREMENT and
      is modelled: the insert then fails and changes nothing.
    - The date cell of a rendered row depends on locale and time zone and
      is left out; the engine's date parser is a parameter of the
      client-side sort. *)

From Stdlib Require Import String Ascii.
From Stdlib Require Import List ZArith NArith Lia Bool.
From Stdlib Require Import Sorting.Sorted Sorting.Permutation.
From Stdlib Require Import Numbers.DecimalString.
Import ListNotations.

(** ** Text *)

Module Text.

Definition text : Type := list N.

(** A literal of the source, as text. *)
Definition txt (s : string) : text :=
  List.map N_of_ascii (list_ascii_of_string s).

(** Lexicographic comparison by character code (SQLite's BINARY
    collation on TEXT values). *)
Fixpoint compare (a b : text) : comparison :=
  match a, b with
  | [], [] => Eq
  | [], _ :: _ => Lt
  | _ :: _, [] => Gt
  | x :: a', y :: b' =>
      match N.compare x y with
      | Eq => compare a' b'
      | c => c
      end
  end.

Definition ltb (a b : text) : bool :=
  match compare a b with Lt => true | _ => false end.

Definition leb (a b : text) : bool :=
  match compare a b with Gt => false | _ => true end.

Definition le (a b : text) : Prop := leb a b = true.
Definition lt (a b : text) : Prop := ltb a b = true.

(** JavaScript truthiness of a string: only the empty string is falsy. *)
Definition truthy (s : text) : bool :=
  match s with [] => false | _ :: _ => true end.

(** [a || b] on strings. *)
Definition or_else (a b : text) : text := if truthy a then a else b.

End Text.

Import Text.

Declare Scope text_scope.
Delimit Scope text_scope with text.
Infix "<=?" := Text.leb : text_scope.
Infix "<?" := Text.ltb : text_scope.

(** ** Stable descending sort *)

Module Stable.
Section Sort.
Variables (A K : Type) (ltb : K -> K -> bool) (key : A -> K).

(** [x] comes before everything of [l] in the input; it moves past
    the elements with a strictly larger key only. *)
Fixpoint place (x : A) (l : list A) : list A :=
  match l with
  | [] => [x]
  | y :: l' => if ltb (key x) (key y) then y :: place x l' else x :: y :: l'
  end.

Definition sort_desc (l : list A) : list A := fold_right place [] l.

(** [a] may stand before [b] in descending order: its key is not
    strictly smaller. *)
Definition desc (a b : A) : Prop := ltb (key a) (key b) = false.

(** The key of [a] is strictly smaller than that of [b]. *)
Definition asc (a b : A) : Prop := ltb (key a) (key b) = true.
End Sort.
Arguments place {A K} ltb key x l.
Arguments sort_desc {A K} ltb key l.
Arguments desc {A K} ltb key a b.
Arguments asc {A K} ltb key a b.
End Stable.

(** ** SQLite's [LIKE] *)

Module Like.

Definition percent : N := 37.
Definition underscore : N := 95.

(** [sqlite3Tolower]: only the ASCII letters are folded. *)
Definition lower (c : N) : N :=
  if ((65 <=? c) && (c <=? 90))%N then (c + 32)%N else c.

(** Both operands are read as C strings: up to the first NUL. *)
Fixpoint cstr (s : text) : text :=
  match s with
  | [] => []
  | c :: s' => if (c =? 0)%N then [] else c :: cstr s'
  end.

(** [matches p s]: the whole of [s] matches the pattern [p], where [%]
    stands for any run of characters, [_] for any one character, and
    any other character for itself up to ASCII case.  No ESCAPE
    character is declared. *)
Fixpoint matches (p : text) : text -> bool :=
  match p with
  | [] => fun s => negb (truthy s)
  | c :: p' =>
      if (c =? percent)%N then
        fix any (s : text) : bool :=
          matches p' s ||
          match s with
          | [] => false
          | _ :: s' => any s'
          end
      else if (c =? underscore)%N then
        fun s => match s with
                 | [] => false
                 | _ :: s' => matches p' s'
                 end
      else
        fun s => match s with
                 | [] => false
                 | d :: s' => (lower c =? lower d)%N && matches p' s'
                 end
  end.

(** [s LIKE p] *)
Definition like (s p : text) : bool := matches (cstr p) (cstr s).


End Like.

(** ** The store: table [notes] *)

Module Store.

(** A row of [notes]; every column is NOT NULL. *)
Record Note : Type := mkNote {
  id : Z;
  title : text;
  content : text;
  created_at : text;
  updated_at : text
}.

(** The database: the rows of [notes] in rowid order (the order of a
    table scan) and the entry of [sqlite_sequence] for the table, the
    largest rowid AUTOINCREMENT has handed out (0 before the first). *)
Record Db : Type := mkDb {
  rows : list Note;
  seq : Z
}.

(** [CREATE TABLE IF NOT EXISTS notes (...)] on a fresh file. *)
Definition empty : Db := {| rows := []; seq := 0 |}.

Definition MAX_ROWID : Z := 9223372036854775807.

(** Largest rowid present in the table, 0 when it is empty. *)
Definition largest_rowid (l : list Note) : Z :=
  fold_right (fun n m => Z.max (id n) m) 0%Z l.

(** The rowid of [INTEGER PRIMARY KEY AUTOINCREMENT]: one more than the
    largest rowid in the table and than [sqlite_sequence]; SQLITE_FULL
    ([None]) once either has reached the largest 64-bit rowid. *)
Definition new_rowid (db : Db) : option Z :=
  let v := largest_rowid (rows db) in
  if ((v >=? MAX_ROWID) || (seq db =? MAX_ROWID))%Z then None
  else Some (Z.max (v + 1) (seq db + 1)).

Definition has_id (i : Z) (n : Note) : bool := (id n =? i)%Z.

(** [ORDER BY key DESC] over a table scan. *)
Definition order_by_desc (key : Note -> text) (l : list Note) : list Note :=
  Stable.sort_desc Text.ltb key l.

(** *** The prepared statements *)

(** [SELECT * FROM notes ORDER BY created_at DESC] *)
Definition getAllNotes (db : Db) : list Note :=
  order_by_desc created_at (rows db).

(** [SELECT * FROM notes WHERE id = ?] *)
Definition getNoteById (i : Z) (db : Db) : list Note :=
  filter (has_id i) (rows db).

(** [INSERT INTO notes (title, content) VALUES (?, ?) RETURNING *];
    both timestamps take their default, [datetime('now')]. *)
Definition insertNote (t c : text) (now : text) (db : Db)
  : option (list Note * Db) :=
  match new_rowid db with
  | None => None
  | Some i =>
      let n := {| id := i; title := t; content := c;
                  created_at := now; updated_at := now |} in
      Some ([n], {| rows := rows db ++ [n]; seq := i |})
  end.

(** The assignments of the UPDATE statement, on one row. *)
Definition set_note (t c now : text) (n : Note) : Note :=
  {| id := id n; title := t; content := c;
     created_at := created_at n; updated_at := now |}.

(** [UPDATE notes SET title = ?, content = ?, updated_at = datetime('now')
     WHERE id = ? RETURNING *] *)
Definition updateNote (t c : text) (i : Z) (now : text) (db : Db)
  : list Note * Db :=
  (List.map (set_note t c now) (filter (has_id i) (rows db)),
   {| rows := List.map (fun n => if has_id i n then set_note t c now n else n)
                       (rows db);
      seq := seq db |}).

(** [DELETE FROM notes WHERE id = ?] *)
Definition deleteNote (i : Z) (db : Db) : Db :=
  {| rows := filter (fun n => negb (has_id i n)) (rows db); seq := seq db |}.

(** [SELECT COUNT( * ) as total FROM notes] *)
Definition getStats (db : Db) : Z := Z.of_nat (List.length (rows db)).

(** [SELECT * FROM notes WHERE title LIKE ? OR content LIKE ?
     ORDER BY updated_at DESC] *)
Definition searchNotesStmt (p1 p2 : text) (db : Db) : list Note :=
  order_by_desc updated_at
    (filter (fun n => Like.like (title n) p1 || Like.like (content n) p2)
            (rows db)).

(** [Statement.get]: the first row of the result, or null. *)
Definition get (result : list Note) : option Note := hd_error result.

(** The shape of a table filled through AUTOINCREMENT only: rowids
    strictly ascending along the scan, positive, and none beyond
    [sqlite_sequence]. *)
Definition wf (db : Db) : Prop :=
  StronglySorted Z.lt (List.map id (rows db)) /\
  Forall (fun i => 1 <= i <= seq db)%Z (List.map id (rows db)) /\
  (0 <= seq db <= MAX_ROWID)%Z.

End Store.

Import Store.

(** ** The request handlers *)

Module Service.

(** What a request yields: the handler's return value, or a failed
    request when the handler threw. *)
Inductive reply (A : Type) : Type :=
| Reply (a : A)
| Failed.
Arguments Reply {A} a.
Arguments Failed {A}.

Definition getNotes (db : Db) : reply (list Note) * Db :=
  (Reply (getAllNotes db), db).

Definition addNote (title content : text) (now : text) (db : Db)
  : reply (option Note) * Db :=
  match insertNote title content now db with
  | Some (r, db') => (Reply (get r), db')
  | None => (Failed, db)
  end.

Definition updateNote (id : Z) (title content : text) (now : text) (db : Db)
  : reply (option Note) * Db :=
  let (r, db') := Store.updateNote title content id now db in
  (Reply (get r), db').

(** [{ success: true }], whatever the statement did. *)
Definition deleteNote (id : Z) (db : Db) : reply bool * Db :=
  let db' := Store.deleteNote id db in
  (Reply true, db').

Definition getStats (db : Db) : reply Z * Db :=
  let total := Store.getStats db in
  (Reply total, db).

Definition searchNotes (query : text) (db : Db) : reply (list Note) * Db :=
  let q := [Like.percent] ++ query ++ [Like.percent] in
  (Reply (searchNotesStmt q q db), db).

(** *** Histories of requests *)

Inductive Request : Type :=
| GetNotes
| AddNote (title content : text)
| UpdateNote (id : Z) (title content : text)
| DeleteNote (id : Z)
| GetStats
| SearchNotes (query : text).

(** The store after serving [r] while the clock reads [now]. *)
Definition serve (now : text) (r : Request) (db : Db) : Db :=
  match r with
  | GetNotes => snd (getNotes db)
  | AddNote t c => snd (addNote t c now db)
  | UpdateNote i t c => snd (updateNote i t c now db)
  | DeleteNote i => snd (deleteNote i db)
  | GetStats => snd (getStats db)
  | SearchNotes q => snd (searchNotes q db)
  end.

(** The id a request hands out: that of the row an [addNote] creates. *)
Definition issues (now : text) (r : Request) (db : Db) : list Z :=
  match r with
  | AddNote t c =>
      match fst (addNote t c now db) with
      | Reply (Some n) => [id n]
      | _ => []
      end
  | _ => []
  end.

(** A history: the requests served, oldest first, each with the reading
    of the clock while it was served. *)
Definition history : Type := list (text * Request).

Fixpoint run (h : history) (db : Db) : Db :=
  match h with
  | [] => db
  | (now, r) :: h' => run h' (serve now r db)
  end.

(** Every id handed out along a history, oldest first. *)
Fixpoint issued (h : history) (db : Db) : list Z :=
  match h with
  | [] => []
  | (now, r) :: h' => issues now r db ++ issued h' (serve now r db)
  end.

(** The clock never runs backwards along the history. *)
Fixpoint nondecreasing (l : list text) : bool :=
  match l with
  | [] => true
  | a :: l' =>
      match l' with
      | [] => true
      | b :: _ => (a <=? b)%text && nondecreasing l'
      end
  end.



(** Strictly later reading at every step. *)
Fixpoint strictly_increasing (l : list text) : bool :=
  match l with
  | [] => true
  | a :: l' =>
      match l' with
      | [] => true
      | b :: _ => (a <? b)%text && strictly_increasing l'
      end
  end.

(** The rows that creations add to a table whose sequence counter is [s]. *)
Fixpoint created (s : Z) (l : list (text * (text * text))) : list Note :=
  match l with
  | [] => []
  | x :: l' =>
      mkNote (s + 1) (fst (snd x)) (snd (snd x)) (fst x) (fst x)
        :: created (s + 1) l'
  end.

(** Histories that only create, from (reading, (title, content)), and
    that only delete, from (reading, id). *)
Definition creations (l : list (text * (text * text))) : history :=
  List.map (fun x => (fst x, AddNote (fst (snd x)) (snd (snd x)))) l.

Definition deletions (l : list (text * Z)) : history :=
  List.map (fun x => (fst x, DeleteNote (snd x))) l.

End Service.

(** ** The sidebar views *)

Module View.

(** *** JavaScript string operations *)

(** WhiteSpace and LineTerminator code units: what [trim] strips and
    what [\s] matches. *)
Definition is_space (c : N) : bool :=
  ((9 <=? c) && (c <=? 13) || (c =? 32) || (c =? 160) || (c =? 5760)
   || (8192 <=? c) && (c <=? 8202) || (c =? 8232) || (c =? 8233)
   || (c =? 8239) || (c =? 8287) || (c =? 12288) || (c =? 65279))%N.

Fixpoint trimStart (s : text) : text :=
  match s with
  | [] => []
  | c :: s' => if is_space c then trimStart s' else s
  end.

Definition trimEnd (s : text) : text := rev (trimStart (rev s)).

Definition trim (s : text) : text := trimEnd (trimStart s).

Definition space : N := 32.

(** [s.replace(/\s+/g, " ")], scanning left to right; [in_run] tells
    that the previous code unit was white space. *)
Fixpoint replace_spaces (in_run : bool) (s : text) : text :=
  match s with
  | [] => []
  | c :: s' =>
      if is_space c then
        if in_run then replace_spaces true s'
        else space :: replace_spaces true s'
      else c :: replace_spaces false s'
  end.

(** [s.substring(0, n)] *)
Definition substring0 (n : nat) (s : text) : text := firstn n s.

(** [String(n)] for an integer. *)
Definition number_text (n : Z) : text :=
  txt (NilZero.string_of_int (Z.to_int n)).

(** *** Escaping *)

(** The serialisation of one character of a text node. *)
Definition escape_char (c : N) : text :=
  if (c =? 38)%N then txt "&amp;"
  else if (c =? 160)%N then txt "&nbsp;"
  else if (c =? 60)%N then txt "&lt;"
  else if (c =? 62)%N then txt "&gt;"
  else [c].

(** [div.textContent = str; return div.innerHTML] *)
Definition escapeHtml (str : text) : text := flat_map escape_char str.

(** *** A row of the note list *)

(** The markup of one [note-item], by its holes; the date cell, which
    depends on locale and time zone, is left out. *)
Record Item : Type := mkItem {
  item_id : Z;
  item_active : bool;
  item_title : text;
  item_preview : text
}.

Inductive listing : Type :=
| EmptyState
| Items (l : list Item).

Definition rawContent (note : Note) : text :=
  trim (replace_spaces false (content note)).

Definition preview (note : Note) : text :=
  let raw := rawContent note in
  if (60 <? List.length raw)%nat then substring0 60 raw ++ txt "..." else raw.

Definition displayTitle (note : Note) : text :=
  or_else (trim (title note)) (txt "New Memo").

Definition renderItem (isActive : bool) (note : Note) : Item :=
  {| item_id := id note;
     item_active := isActive;
     item_title := escapeHtml (displayTitle note);
     item_preview := or_else (escapeHtml (preview note))
                             (txt "No additional text") |}.

(** *** The view without search *)

Module Sidebar.

Definition renderNotes (notes : list Note) (activeNoteId : option Z)
  : listing :=
  match notes with
  | [] => EmptyState
  | _ :: _ =>
      Items (List.map
               (fun note =>
                  renderItem
                    (match activeNoteId with
                     | Some a => (id note =? a)%Z
                     | None => false
                     end) note)
               notes)
  end.

End Sidebar.

(** *** The view with search *)

Module SearchSidebar.

Record View : Type := mkView {
  notes : list Note;
  activeNote : option Note;
  searchInput : text;
  noteList : listing;
  statsDiv : text
}.

Definition renderNotes (notes : list Note) (activeNote : option Note)
  : listing :=
  match notes with
  | [] => EmptyState
  | _ :: _ =>
      Items (List.map
               (fun note =>
                  renderItem
                    (match activeNote with
                     | Some a => (id note =? id a)%Z
                     | None => false
                     end) note)
               notes)
  end.

(** How many rows a rendered list shows. *)
Definition shown_rows (l : listing) : nat :=
  match l with
  | EmptyState => 0
  | Items l' => length l'
  end.

(** The text [updateStats] writes from a [getStats] response. *)
Definition stats_line (total : Z) : text :=
  number_text total ++ txt " memo"
    ++ (if (total =? 1)%Z then [] else txt "s").

Section Load.
(** [s => new Date(s).getTime()], the engine's date parser. *)
Variable getTime : text -> Z.

Definition by_recency (l : list Note) : list Note :=
  Stable.sort_desc Z.ltb
    (fun n => getTime (updated_at n ++ txt "Z")) l.

(** [loadNotes]: one list or search request, the client-side sort,
    the rendering, then [updateStats] with its [getStats] request.
    A failed request leaves the view as it was. *)
Definition loadNotes (v : View) (db : Db) : View * Db :=
  let query := trim (searchInput v) in
  let (r, db1) :=
    if truthy query then Service.searchNotes query db
    else Service.getNotes db in
  match r with
  | Service.Failed => (v, db1)
  | Service.Reply l =>
      let notes' := by_recency l in
      let list' := renderNotes notes' (activeNote v) in
      let (s, db2) := Service.getStats db1 in
      match s with
      | Service.Failed =>
          ({| notes := notes'; activeNote := activeNote v;
              searchInput := searchInput v; noteList := list';
              statsDiv := statsDiv v |}, db2)
      | Service.Reply total =>
          ({| notes := notes'; activeNote := activeNote v;
              searchInput := searchInput v; noteList := list';
              statsDiv := stats_line total |}, db2)
      end
  end.
End Load.

End SearchSidebar.

End View.

(** ** Search, preview and display in the words of the specification *)

Module Spec.



(** A word ends before [s]: at white space or at the end of the text. *)
Definition word_break (s : text) : bool :=
  match s with
  | [] => true
  | d :: _ => View.is_space d
  end.

(** The words of a text: its maximal runs of characters that are not
    white space. *)
Fixpoint words (s : text) : list text :=
  match s with
  | [] => []
  | c :: s' =>
      if View.is_space c then words s'
      else
        match words s' with
        | w :: ws =>
            if word_break s' then [c] :: w :: ws else (c :: w) :: ws
        | [] => [[c]]
        end
  end.

(** Words separated by single spaces. *)
Definition join_words (ws : list text) : text :=
  match ws with
  | [] => []
  | w :: ws' => w ++ flat_map (fun v => View.space :: v) ws'
  end.

(** White space collapsed to single spaces and trimmed. *)
Definition single_line (s : text) : text := join_words (words s).

(** Truncated to 60 characters, with an ellipsis when longer. *)
Definition truncated (s : text) : text :=
  if (length s <=? 60)%nat then s else firstn 60 s ++ txt "...".

(** Whether [p] begins [s]. *)
Fixpoint starts_with (p s : text) : bool :=
  match p, s with
  | [], _ => true
  | _ :: _, [] => false
  | c :: p', d :: s' => (c =? d)%N && starts_with p' s'
  end.

(** Markup rendered as literal text: what a reader sees of markup made
    of text only, the four character references of the serialiser
    decoded; [skip] counts the characters of a reference still to pass
    over. *)
Fixpoint shown (skip : nat) (s : text) : text :=
  match s with
  | [] => []
  | c :: s' =>
      match skip with
      | S k => shown k s'
      | O =>
          if (c =? 38)%N then
            if starts_with (txt "amp;") s' then 38%N :: shown 4 s'
            else if starts_with (txt "nbsp;") s' then 160%N :: shown 5 s'
            else if starts_with (txt "lt;") s' then 60%N :: shown 3 s'
            else if starts_with (txt "gt;") s' then 62%N :: shown 3 s'
            else c :: shown 0 s'
          else c :: shown 0 s'
      end
  end.

(** [t] is [s] without its leading and trailing white space. *)
Definition trimmed (s t : text) : Prop :=
  (exists pre post : text,
     s = pre ++ t ++ post /\
     forallb View.is_space pre = true /\ forallb View.is_space post = true) /\
  (forall c, hd_error t = Some c -> View.is_space c = false) /\
  (forall c, hd_error (rev t) = Some c -> View.is_space c = false).

End Spec.

(** ** JavaScript values shared by the views *)

Module Js.

(** [a === b] on strings. *)
Fixpoint same (a b : text) : bool :=
  match a, b with
  | [], [] => true
  | x :: a', y :: b' => (x =? y)%N && same a' b'
  | _, _ => false
  end.

(** Truthiness of a variable of type [number | null] that holds an
    integer: [null] and [0] are falsy. *)
Definition truthy_number (i : option Z) : bool :=
  match i with
  | Some n => negb (n =? 0)%Z
  | None => false
  end.

(** The same for a timer handle. *)
Definition truthy_handle (h : option nat) : bool :=
  match h with
  | Some (S _) => true
  | _ => false
  end.

End Js.

(** ** The card grid with its modal editor

    An event handler is modelled with the requests it issues served in the
    order in which they are sent, and with its continuations after each
    [await] run before the next event of the window.  A request that fails
    rejects the [await]: the rest of the handler is not run. *)

Module CardGrid.

(** The markup of one [note-card], by its holes; the date cell is left
    out. *)
Record Card : Type := mkCard {
  card_id : Z;
  card_title : text;
  card_content : text
}.

Inductive grid : Type :=
| EmptyState
| Cards (l : list Card).

(** The variables of the module and the state of the document. *)
Record Page : Type := mkPage {
  notes : list Note;
  noteInput : text;
  noteList : grid;
  statsDiv : text;
  modalHidden : bool;
  modalHeading : text;
  modalTitleInput : text;
  modalContentTextarea : text;
  currentEditId : option Z
}.

(** [createModal]: the modal is built hidden, with empty fields. *)
Definition createModal (p : Page) : Page :=
  {| notes := notes p; noteInput := noteInput p; noteList := noteList p;
     statsDiv := statsDiv p;
     modalHidden := true; modalHeading := txt "Edit Note";
     modalTitleInput := []; modalContentTextarea := [];
     currentEditId := currentEditId p |}.

Definition openModal (note : option Note) (p : Page) : Page :=
  match note with
  | Some n =>
      {| notes := notes p; noteInput := noteInput p; noteList := noteList p;
         statsDiv := statsDiv p;
         modalHidden := false; modalHeading := txt "Edit Note";
         modalTitleInput := title n; modalContentTextarea := content n;
         currentEditId := Some (id n) |}
  | None =>
      {| notes := notes p; noteInput := noteInput p; noteList := noteList p;
         statsDiv := statsDiv p;
         modalHidden := false; modalHeading := txt "New Note";
         modalTitleInput := []; modalContentTextarea := [];
         currentEditId := None |}
  end.

Definition closeModal (p : Page) : Page :=
  {| notes := notes p; noteInput := noteInput p; noteList := noteList p;
     statsDiv := statsDiv p;
     modalHidden := true; modalHeading := modalHeading p;
     modalTitleInput := modalTitleInput p;
     modalContentTextarea := modalContentTextarea p;
     currentEditId := None |}.

Definition preview (note : Note) : text :=
  if (100 <? length (content note))%nat
  then View.substring0 100 (content note) ++ txt "..."
  else content note.

Definition renderCard (note : Note) : Card :=
  {| card_id := id note;
     card_title := View.escapeHtml (title note);
     card_content := or_else (View.escapeHtml (preview note))
                             (txt "(Empty note)") |}.

Definition renderNotes (notes : list Note) : grid :=
  match notes with
  | [] => EmptyState
  | _ :: _ => Cards (List.map renderCard notes)
  end.

(** The text [updateStats] writes from a [getStats] response. *)
Definition stats_line (total : Z) : text :=
  View.number_text total ++ txt " note"
    ++ (if (total =? 1)%Z then [] else txt "s").

(** [loadNotes]: the list request, the rendering, then [updateStats]
    with its [getStats] request. *)
Definition loadNotes (p : Page) (db : Db) : Page * Db :=
  let (r, db1) := Service.getNotes db in
  match r with
  | Service.Failed => (p, db1)
  | Service.Reply l =>
      let (s, db2) := Service.getStats db1 in
      ({| notes := l; noteInput := noteInput p;
          noteList := renderNotes l;
          statsDiv := match s with
                      | Service.Reply total => stats_line total
                      | Service.Failed => statsDiv p
                      end;
          modalHidden := modalHidden p; modalHeading := modalHeading p;
          modalTitleInput := modalTitleInput p;
          modalContentTextarea := modalContentTextarea p;
          currentEditId := currentEditId p |}, db2)
  end.

(** [saveNote], served while the clock of the host reads [now]. *)
Definition saveNote (now : text) (p : Page) (db : Db) : Page * Db :=
  let title := or_else (View.trim (modalTitleInput p)) (txt "Untitled") in
  let content := modalContentTextarea p in
  let (ok, db1) :=
    match currentEditId p with
    | Some i =>
        if Js.truthy_number (Some i)
        then match Service.updateNote i title content now db with
             | (Service.Reply _, d) => (true, d)
             | (Service.Failed, d) => (false, d)
             end
        else match Service.addNote title content now db with
             | (Service.Reply _, d) => (true, d)
             | (Service.Failed, d) => (false, d)
             end
    | None =>
        match Service.addNote title content now db with
        | (Service.Reply _, d) => (true, d)
        | (Service.Failed, d) => (false, d)
        end
    end in
  if ok then loadNotes (closeModal p) db1 else (p, db1).

(** [addNote], the quick add. *)
Definition addNote (now : text) (p : Page) (db : Db) : Page * Db :=
  let title := View.trim (noteInput p) in
  if negb (truthy title) then (p, db)
  else
    match Service.addNote title [] now db with
    | (Service.Failed, db1) => (p, db1)
    | (Service.Reply _, db1) =>
        loadNotes
          {| notes := notes p; noteInput := []; noteList := noteList p;
             statsDiv := statsDiv p;
             modalHidden := modalHidden p; modalHeading := modalHeading p;
             modalTitleInput := modalTitleInput p;
             modalContentTextarea := modalContentTextarea p;
             currentEditId := currentEditId p |} db1
    end.

(** The listener of a card: a click outside its delete button. *)
Definition clickCard (i : Z) (p : Page) : Page :=
  match find (has_id i) (notes p) with
  | Some note => openModal (Some note) p
  | None => p
  end.

(** The listener of the delete button of a card. *)
Definition clickDelete (i : Z) (p : Page) (db : Db) : Page * Db :=
  match Service.deleteNote i db with
  | (Service.Failed, db1) => (p, db1)
  | (Service.Reply _, db1) => loadNotes p db1
  end.

(** What the user does to the window. *)
Inductive Event : Type :=
| TypeNew (s : text)          (* edits the quick-add field *)
| SubmitNew                   (* clicks "Add" or presses Enter there *)
| ClickCard (i : Z)
| ClickDelete (i : Z)
| TypeTitle (s : text)        (* edits the title field of the modal *)
| TypeContent (s : text)      (* edits the textarea of the modal *)
| ClickSave
| Dismiss                     (* overlay, close button or "Cancel" *)
| PressEscape
| PressSaveKey.               (* s with Ctrl or Meta *)

Definition setNoteInput (s : text) (p : Page) : Page :=
  {| notes := notes p; noteInput := s; noteList := noteList p;
     statsDiv := statsDiv p;
     modalHidden := modalHidden p; modalHeading := modalHeading p;
     modalTitleInput := modalTitleInput p;
     modalContentTextarea := modalContentTextarea p;
     currentEditId := currentEditId p |}.

Definition setModalFields (t c : text) (p : Page) : Page :=
  {| notes := notes p; noteInput := noteInput p; noteList := noteList p;
     statsDiv := statsDiv p;
     modalHidden := modalHidden p; modalHeading := modalHeading p;
     modalTitleInput := t; modalContentTextarea := c;
     currentEditId := currentEditId p |}.

(** The listeners, as registered by [createModal], [renderNotes] and the
    top level of the module. *)
Definition dispatch (now : text) (e : Event) (p : Page) (db : Db)
  : Page * Db :=
  match e with
  | TypeNew s => (setNoteInput s p, db)
  | SubmitNew => addNote now p db
  | ClickCard i => (clickCard i p, db)
  | ClickDelete i => clickDelete i p db
  | TypeTitle s => (setModalFields s (modalContentTextarea p) p, db)
  | TypeContent s => (setModalFields (modalTitleInput p) s p, db)
  | ClickSave => saveNote now p db
  | Dismiss => (closeModal p, db)
  | PressEscape => if modalHidden p then (p, db) else (closeModal p, db)
  | PressSaveKey => if modalHidden p then (p, db) else saveNote now p db
  end.

(** The window after a run of events, each with the reading of the
    host's clock while its request is served. *)
Fixpoint run (es : list (text * Event)) (p : Page) (db : Db) : Page * Db :=
  match es with
  | [] => (p, db)
  | (now, e) :: es' => let (p1, db1) := dispatch now e p db in run es' p1 db1
  end.

End CardGrid.

(** ** Timers of a window *)

Module Timers.

(** The two closures the sidebar views hand to [setTimeout]: the one that
    calls [performSave] and the one that awaits [loadNotes]. *)
Inductive callback : Type :=
| PerformSave
| LoadNotes.

Record timer : Type := mkTimer {
  handle : nat;
  delay : nat;
  action : callback
}.

(** The timers that have been set and have neither fired nor been
    cleared, and the next handle; handles are positive and never handed
    out twice. *)
Record table : Type := mkTable {
  live : list timer;
  next : nat
}.

Definition fresh : table := {| live := []; next := 1 |}.

Definition has_handle (h : nat) (t : timer) : bool := (handle t =? h)%nat.

(** [window.setTimeout(cb, ms)] *)
Definition setTimeout (cb : callback) (ms : nat) (t : table) : nat * table :=
  (next t, {| live := live t ++ [mkTimer (next t) ms cb];
              next := S (next t) |}).

(** [clearTimeout(h)]; nothing happens for a handle that is not live. *)
Definition clearTimeout (h : nat) (t : table) : table :=
  {| live := filter (fun x => negb (has_handle h x)) (live t);
     next := next t |}.

(** The live timer of a handle, if any. *)
Definition lookup (h : nat) (t : table) : option timer :=
  find (has_handle h) (live t).

(** The live timers that run a given closure. *)
Definition pending (cb : callback) (t : table) : list timer :=
  filter (fun x => match action x, cb with
                   | PerformSave, PerformSave => true
                   | LoadNotes, LoadNotes => true
                   | _, _ => false
                   end) (live t).

End Timers.

(** The readings of the clocks an event handler may come to use: the
    browser's for the optimistic timestamp, the host's while it serves
    the update and while it serves the creation. *)
Record readings : Type := mkReadings {
  client_now : text;
  save_now : text;
  add_now : text
}.

(** ** The sidebar view without search: state and handlers

    A handler is modelled with the requests it issues served in the order
    in which they are sent and its continuations run before the next
    event of the window; [performSave] called without [await] runs up to
    its first request, the caller goes on, and its continuation runs when
    the request is answered.  Focus is not modelled. *)

Module SidebarPage.

(** The variables of the module and the state of the document. *)
Record Page : Type := mkPage {
  notes : list Note;
  activeNoteId : option Z;
  saveTimeout : option nat;
  noteList : View.listing;
  statsDiv : text;
  emptyEditorHidden : bool;
  editorContainerHidden : bool;
  noteTitleInput : text;
  noteContentTextarea : text;
  timers : Timers.table
}.

Definition set_notes (l : list Note) (p : Page) : Page :=
  mkPage l (activeNoteId p) (saveTimeout p) (noteList p) (statsDiv p)
         (emptyEditorHidden p) (editorContainerHidden p)
         (noteTitleInput p) (noteContentTextarea p) (timers p).

Definition set_activeNoteId (a : option Z) (p : Page) : Page :=
  mkPage (notes p) a (saveTimeout p) (noteList p) (statsDiv p)
         (emptyEditorHidden p) (editorContainerHidden p)
         (noteTitleInput p) (noteContentTextarea p) (timers p).

Definition set_saveTimeout (h : option nat) (t : Timers.table) (p : Page)
  : Page :=
  mkPage (notes p) (activeNoteId p) h (noteList p) (statsDiv p)
         (emptyEditorHidden p) (editorContainerHidden p)
         (noteTitleInput p) (noteContentTextarea p) t.

Definition set_noteList (l : View.listing) (p : Page) : Page :=
  mkPage (notes p) (activeNoteId p) (saveTimeout p) l (statsDiv p)
         (emptyEditorHidden p) (editorContainerHidden p)
         (noteTitleInput p) (noteContentTextarea p) (timers p).

Definition set_statsDiv (s : text) (p : Page) : Page :=
  mkPage (notes p) (activeNoteId p) (saveTimeout p) (noteList p) s
         (emptyEditorHidden p) (editorContainerHidden p)
         (noteTitleInput p) (noteContentTextarea p) (timers p).

(** The two panes and the two fields of the editor. *)
Definition set_editor (emptyHidden editorHidden : bool) (t c : text)
  (p : Page) : Page :=
  mkPage (notes p) (activeNoteId p) (saveTimeout p) (noteList p) (statsDiv p)
         emptyHidden editorHidden t c (timers p).

Definition renderNotes (p : Page) : Page :=
  set_noteList (View.Sidebar.renderNotes (notes p) (activeNoteId p)) p.

Definition clearSelection (p : Page) : Page :=
  set_editor false true [] [] (renderNotes (set_activeNoteId None p)).

Definition updateStats (p : Page) (db : Db) : Page * Db :=
  match Service.getStats db with
  | (Service.Reply total, db1) =>
      (set_statsDiv (View.SearchSidebar.stats_line total) p, db1)
  | (Service.Failed, db1) => (p, db1)
  end.

Section Handlers.
(** [s => new Date(s).getTime()], the engine's date parser. *)
Variable getTime : text -> Z.

Definition loadNotes (p : Page) (db : Db) : Page * Db :=
  match Service.getNotes db with
  | (Service.Failed, db1) => (p, db1)
  | (Service.Reply l, db1) =>
      let p1 := renderNotes
                  (set_notes (View.SearchSidebar.by_recency getTime l) p) in
      (* [updateStats()] sends its request here; the answer is written
         after the rest of the function has run *)
      let p2 :=
        match activeNoteId p1 with
        | Some a =>
            if Js.truthy_number (Some a) then
              match find (has_id a) (notes p1) with
              | None => clearSelection p1
              | Some _ => renderNotes p1
              end
            else p1
        | None => p1
        end in
      updateStats p2 db1
  end.

(** In [l], the object that [find] returns for the id [a], with the
    three fields [performSave] assigns. *)
Fixpoint patch (a : Z) (t c u : text) (l : list Note) : list Note :=
  match l with
  | [] => []
  | n :: l' =>
      if has_id a n
      then mkNote (id n) t c (created_at n) u :: l'
      else n :: patch a t c u l'
  end.

(** The update request [performSave] sends: id, title, content. *)
Definition save_request : Type := (Z * (text * text))%type.

(** [performSave] up to its first [await]. *)
Definition performSave_start (clientNow : text) (p : Page)
  : Page * option save_request :=
  match activeNoteId p with
  | None => (p, None)
  | Some a =>
      if Js.truthy_number (Some a) then
        match find (has_id a) (notes p) with
        | None => (p, None)
        | Some note =>
            let newTitle := noteTitleInput p in
            let newContent := noteContentTextarea p in
            if negb (Js.same (title note) newTitle)
               || negb (Js.same (content note) newContent)
            then (set_notes (patch a newTitle newContent clientNow (notes p)) p,
                  Some (a, (newTitle, newContent)))
            else (p, None)
        end
      else (p, None)
  end.

(** The rest of [performSave]: the request is served, then the list is
    loaded again. *)
Definition performSave_finish (now : text) (req : option save_request)
  (p : Page) (db : Db) : Page * Db :=
  match req with
  | None => (p, db)
  | Some (i, (t, c)) =>
      match Service.updateNote i t c now db with
      | (Service.Failed, db1) => (p, db1)
      | (Service.Reply _, db1) => loadNotes p db1
      end
  end.

Definition performSave (r : readings) (p : Page) (db : Db) : Page * Db :=
  let (p1, req) := performSave_start (client_now r) p in
  performSave_finish (save_now r) req p1 db.

(** [flushSave] up to the first [await] of the [performSave] it calls. *)
Definition flushSave_start (clientNow : text) (p : Page)
  : Page * option save_request :=
  match saveTimeout p with
  | Some h =>
      if Js.truthy_handle (Some h) then
        performSave_start clientNow
          (set_saveTimeout None (Timers.clearTimeout h (timers p)) p)
      else (p, None)
  | None => (p, None)
  end.

Definition flushSave (r : readings) (p : Page) (db : Db) : Page * Db :=
  let (p1, req) := flushSave_start (client_now r) p in
  performSave_finish (save_now r) req p1 db.

Definition selectNote (r : readings) (i : Z) (p : Page) (db : Db)
  : Page * Db :=
  if match activeNoteId p with Some a => (a =? i)%Z | None => false end
  then (p, db)
  else
    let (p1, req) := flushSave_start (client_now r) p in
    let p2 :=
      match find (has_id i) (notes p1) with
      | None => p1
      | Some note =>
          set_editor true false (title note) (content note)
            (renderNotes (set_activeNoteId (Some i) p1))
      end in
    performSave_finish (save_now r) req p2 db.

Definition triggerAutoSave (p : Page) : Page :=
  if Js.truthy_number (activeNoteId p) then
    let t1 := match saveTimeout p with
              | Some h =>
                  if Js.truthy_handle (Some h)
                  then Timers.clearTimeout h (timers p)
                  else timers p
              | None => timers p
              end in
    let (h', t2) := Timers.setTimeout Timers.PerformSave 500 t1 in
    set_saveTimeout (Some h') t2 p
  else p.

(** [createNewNote].  The update of a flushed save and the creation are
    sent one after the other and served in that order; the continuation
    of the save then loads the list, and so does this function before it
    selects the new note. *)
Definition createNewNote (r : readings) (p : Page) (db : Db) : Page * Db :=
  let (p1, req) := flushSave_start (client_now r) p in
  let db1 := match req with
             | Some (i, (t, c)) =>
                 snd (Service.updateNote i t c (save_now r) db)
             | None => db
             end in
  let (ra, db2) := Service.addNote [] [] (add_now r) db1 in
  let (p2, db3) := match req with
                   | Some _ => loadNotes p1 db2
                   | None => (p1, db2)
                   end in
  match ra with
  | Service.Failed => (p2, db3)
  | Service.Reply newNote =>
      let (p3, db4) := loadNotes p2 db3 in
      match newNote with
      | Some n => selectNote r (id n) p3 db4
      | None => (p3, db4)
      end
  end.

Definition deleteActiveNote (p : Page) (db : Db) : Page * Db :=
  match activeNoteId p with
  | Some a =>
      if Js.truthy_number (Some a) then
        match Service.deleteNote a db with
        | (Service.Failed, db1) => (p, db1)
        | (Service.Reply _, db1) => loadNotes (clearSelection p) db1
        end
      else (p, db)
  | None => (p, db)
  end.

(** What happens to the window: the user's actions on the elements that
    carry listeners, and a timer coming due. *)
Inductive Event : Type :=
| ClickAdd
| TypeTitle (s : text)
| TypeContent (s : text)
| BlurTitle
| BlurContent
| ClickDelete
| ClickRow (i : Z)
| TimerFires (h : nat).

(** The listeners, as registered at the top level of the module and by
    [renderNotes]; a field edit changes the value, then runs the [input]
    listener. *)
Definition dispatch (r : readings) (e : Event) (p : Page) (db : Db)
  : Page * Db :=
  match e with
  | ClickAdd => createNewNote r p db
  | TypeTitle s =>
      (triggerAutoSave
         (set_editor (emptyEditorHidden p) (editorContainerHidden p)
                     s (noteContentTextarea p) p), db)
  | TypeContent s =>
      (triggerAutoSave
         (set_editor (emptyEditorHidden p) (editorContainerHidden p)
                     (noteTitleInput p) s p), db)
  | BlurTitle => flushSave r p db
  | BlurContent => flushSave r p db
  | ClickDelete => deleteActiveNote p db
  | ClickRow i => selectNote r i p db
  | TimerFires h =>
      match Timers.lookup h (timers p) with
      | Some t =>
          let p1 := set_saveTimeout (saveTimeout p)
                      (Timers.clearTimeout h (timers p)) p in
          match Timers.action t with
          | Timers.PerformSave => performSave r p1 db
          | Timers.LoadNotes => (p1, db)   (* not set by this view *)
          end
      | None => (p, db)
      end
  end.

(** The window after a run of events, each with its readings. *)
Fixpoint run (es : list (readings * Event)) (p : Page) (db : Db)
  : Page * Db :=
  match es with
  | [] => (p, db)
  | (r, e) :: es' =>
      let (p1, db1) := dispatch r e p db in run es' p1 db1
  end.

End Handlers.

End SidebarPage.

(** ** The sidebar view with search: state and handlers

    The conventions are those of the view without search.  The loaded
    list, the selection, the search field, the rendered list and the
    stats line are the record [View.SearchSidebar.View]. *)

Module SearchPage.

Record Page : Type := mkPage {
  view : View.SearchSidebar.View;
  saveTimeout : option nat;
  searchTimeout : option nat;
  emptyEditorHidden : bool;
  editorContainerHidden : bool;
  noteTitleInput : text;
  noteContentTextarea : text;
  timers : Timers.table
}.

Definition set_view (v : View.SearchSidebar.View) (p : Page) : Page :=
  mkPage v (saveTimeout p) (searchTimeout p)
         (emptyEditorHidden p) (editorContainerHidden p)
         (noteTitleInput p) (noteContentTextarea p) (timers p).

Definition set_saveTimeout (h : option nat) (t : Timers.table) (p : Page)
  : Page :=
  mkPage (view p) h (searchTimeout p)
         (emptyEditorHidden p) (editorContainerHidden p)
         (noteTitleInput p) (noteContentTextarea p) t.

Definition set_searchTimeout (h : option nat) (t : Timers.table) (p : Page)
  : Page :=
  mkPage (view p) (saveTimeout p) h
         (emptyEditorHidden p) (editorContainerHidden p)
         (noteTitleInput p) (noteContentTextarea p) t.

Definition set_editor (emptyHidden editorHidden : bool) (t c : text)
  (p : Page) : Page :=
  mkPage (view p) (saveTimeout p) (searchTimeout p)
         emptyHidden editorHidden t c (timers p).

Definition set_activeNote (a : option Note) (v : View.SearchSidebar.View)
  : View.SearchSidebar.View :=
  View.SearchSidebar.mkView
    (View.SearchSidebar.notes v) a (View.SearchSidebar.searchInput v)
    (View.SearchSidebar.noteList v) (View.SearchSidebar.statsDiv v).

Definition set_searchInput (s : text) (v : View.SearchSidebar.View)
  : View.SearchSidebar.View :=
  View.SearchSidebar.mkView
    (View.SearchSidebar.notes v) (View.SearchSidebar.activeNote v) s
    (View.SearchSidebar.noteList v) (View.SearchSidebar.statsDiv v).

Definition rendered (v : View.SearchSidebar.View) : View.SearchSidebar.View :=
  View.SearchSidebar.mkView
    (View.SearchSidebar.notes v) (View.SearchSidebar.activeNote v)
    (View.SearchSidebar.searchInput v)
    (View.SearchSidebar.renderNotes (View.SearchSidebar.notes v)
                                    (View.SearchSidebar.activeNote v))
    (View.SearchSidebar.statsDiv v).

Definition renderNotes (p : Page) : Page := set_view (rendered (view p)) p.

Definition clearSelection (p : Page) : Page :=
  set_editor false true [] []
    (renderNotes (set_view (set_activeNote None (view p)) p)).

Section Handlers.
(** [s => new Date(s).getTime()], the engine's date parser. *)
Variable getTime : text -> Z.

Definition loadNotes (p : Page) (db : Db) : Page * Db :=
  let (v, db1) := View.SearchSidebar.loadNotes getTime (view p) db in
  (set_view v p, db1).

(** The update request [performSave] sends: id, title, content. *)
Definition save_request : Type := (Z * (text * text))%type.

(** [performSave] up to its first [await]. *)
Definition performSave_start (clientNow : text) (p : Page)
  : Page * option save_request :=
  match View.SearchSidebar.activeNote (view p) with
  | None => (p, None)
  | Some a =>
      let newTitle := noteTitleInput p in
      let newContent := noteContentTextarea p in
      if negb (Js.same (title a) newTitle)
         || negb (Js.same (content a) newContent)
      then
        (set_view
           (set_activeNote
              (Some (mkNote (id a) newTitle newContent (created_at a)
                            clientNow))
              (view p)) p,
         Some (id a, (newTitle, newContent)))
      else (p, None)
  end.

(** The rest of [performSave]. *)
Definition performSave_finish (now : text) (req : option save_request)
  (p : Page) (db : Db) : Page * Db :=
  match req with
  | None => (p, db)
  | Some (i, (t, c)) =>
      match Service.updateNote i t c now db with
      | (Service.Failed, db1) => (p, db1)
      | (Service.Reply _, db1) => loadNotes p db1
      end
  end.

Definition performSave (r : readings) (p : Page) (db : Db) : Page * Db :=
  let (p1, req) := performSave_start (client_now r) p in
  performSave_finish (save_now r) req p1 db.

(** [flushSave] up to the first [await] of the [performSave] it calls. *)
Definition flushSave_start (clientNow : text) (p : Page)
  : Page * option save_request :=
  match saveTimeout p with
  | Some h =>
      if Js.truthy_handle (Some h) then
        performSave_start clientNow
          (set_saveTimeout None (Timers.clearTimeout h (timers p)) p)
      else (p, None)
  | None => (p, None)
  end.

Definition flushSave (r : readings) (p : Page) (db : Db) : Page * Db :=
  let (p1, req) := flushSave_start (client_now r) p in
  performSave_finish (save_now r) req p1 db.

Definition selectNote (r : readings) (i : Z) (p : Page) (db : Db)
  : Page * Db :=
  if match View.SearchSidebar.activeNote (view p) with
     | Some a => (id a =? i)%Z
     | None => false
     end
  then (p, db)
  else
    let (p1, req) := flushSave_start (client_now r) p in
    let p2 :=
      match find (has_id i) (View.SearchSidebar.notes (view p1)) with
      | None => p1
      | Some note =>
          set_editor true false (title note) (content note)
            (renderNotes (set_view (set_activeNote (Some note) (view p1)) p1))
      end in
    performSave_finish (save_now r) req p2 db.

Definition triggerAutoSave (p : Page) : Page :=
  match View.SearchSidebar.activeNote (view p) with
  | None => p
  | Some _ =>
      let t1 := match saveTimeout p with
                | Some h =>
                    if Js.truthy_handle (Some h)
                    then Timers.clearTimeout h (timers p)
                    else timers p
                | None => timers p
                end in
      let (h', t2) := Timers.setTimeout Timers.PerformSave 500 t1 in
      set_saveTimeout (Some h') t2 p
  end.

Definition handleSearch (p : Page) : Page :=
  let t1 := match searchTimeout p with
            | Some h =>
                if Js.truthy_handle (Some h)
                then Timers.clearTimeout h (timers p)
                else timers p
            | None => timers p
            end in
  let (h', t2) := Timers.setTimeout Timers.LoadNotes 300 t1 in
  set_searchTimeout (Some h') t2 p.

(** [createNewNote]; the order of the requests and continuations is that
    of the view without search. *)
Definition createNewNote (r : readings) (p : Page) (db : Db) : Page * Db :=
  let (p0, req) := flushSave_start (client_now r) p in
  let p1 := set_view (set_searchInput [] (view p0)) p0 in
  let db1 := match req with
             | Some (i, (t, c)) =>
                 snd (Service.updateNote i t c (save_now r) db)
             | None => db
             end in
  let (ra, db2) := Service.addNote [] [] (add_now r) db1 in
  let (p2, db3) := match req with
                   | Some _ => loadNotes p1 db2
                   | None => (p1, db2)
                   end in
  match ra with
  | Service.Failed => (p2, db3)
  | Service.Reply newNote =>
      let (p3, db4) := loadNotes p2 db3 in
      match newNote with
      | Some n => selectNote r (id n) p3 db4
      | None => (p3, db4)
      end
  end.

Definition deleteNoteById (i : Z) (p : Page) (db : Db) : Page * Db :=
  match Service.deleteNote i db with
  | (Service.Failed, db1) => (p, db1)
  | (Service.Reply _, db1) =>
      let p1 :=
        if match View.SearchSidebar.activeNote (view p) with
           | Some a => (id a =? i)%Z
           | None => false
           end
        then clearSelection p else p in
      loadNotes p1 db1
  end.

Definition deleteActiveNote (p : Page) (db : Db) : Page * Db :=
  match View.SearchSidebar.activeNote (view p) with
  | Some a => deleteNoteById (id a) p db
  | None => (p, db)
  end.

(** What happens to the window. *)
Inductive Event : Type :=
| ClickAdd
| TypeSearch (s : text)
| TypeTitle (s : text)
| TypeContent (s : text)
| BlurTitle
| BlurContent
| ClickDelete
| ClickRow (i : Z)
| ClickRowDelete (i : Z)
| TimerFires (h : nat).

(** The listeners, as registered at the top level of the module and by
    [renderNotes]; an edit of a field changes its value, then runs the
    [input] listener. *)
Definition dispatch (r : readings) (e : Event) (p : Page) (db : Db)
  : Page * Db :=
  match e with
  | ClickAdd => createNewNote r p db
  | TypeSearch s => (handleSearch (set_view (set_searchInput s (view p)) p), db)
  | TypeTitle s =>
      (triggerAutoSave
         (set_editor (emptyEditorHidden p) (editorContainerHidden p)
                     s (noteContentTextarea p) p), db)
  | TypeContent s =>
      (triggerAutoSave
         (set_editor (emptyEditorHidden p) (editorContainerHidden p)
                     (noteTitleInput p) s p), db)
  | BlurTitle => flushSave r p db
  | BlurContent => flushSave r p db
  | ClickDelete => deleteActiveNote p db
  | ClickRow i => selectNote r i p db
  | ClickRowDelete i => deleteNoteById i p db
  | TimerFires h =>
      match Timers.lookup h (timers p) with
      | Some t =>
          let p1 :=
            mkPage (view p) (saveTimeout p) (searchTimeout p)
                   (emptyEditorHidden p) (editorContainerHidden p)
                   (noteTitleInput p) (noteContentTextarea p)
                   (Timers.clearTimeout h (timers p)) in
          match Timers.action t with
          | Timers.PerformSave => performSave r p1 db
          | Timers.LoadNotes => loadNotes p1 db
          end
      | None => (p, db)
      end
  end.

(** The window after a run of events, each with its readings. *)
Fixpoint run (es : list (readings * Event)) (p : Page) (db : Db)
  : Page * Db :=
  match es with
  | [] => (p, db)
  | (r, e) :: es' =>
      let (p1, db1) := dispatch r e p db in run es' p1 db1
  end.

End Handlers.

End SearchPage.

(** ** Notions the properties of the views are stated with *)

Section CardNotions.
Import CardGrid.

(** The title a save from the modal sends. *)
Definition saved_title (p : Page) : text :=
  or_else (View.trim (modalTitleInput p)) (txt "Untitled").

(** What the handlers keep: a well-formed store, positive ids in the
    loaded list, and an edited id while the modal is open. *)
Definition steady (p : Page) (db : Db) : Prop :=
  wf db /\
  Forall (fun n => 1 <= id n)%Z (notes p) /\
  (modalHidden p = false ->
   exists i, currentEditId p = Some i /\ (1 <= i)%Z).

End CardNotions.

Section SidebarNotions.
Import SidebarPage.
Variable getTime : text -> Z.

Local Abbreviation recent := (View.SearchSidebar.by_recency getTime).

(** The page a load leaves when the selection stays. *)
Definition loaded (p : Page) (db : Db) : Page :=
  set_statsDiv (View.SearchSidebar.stats_line (Store.getStats db))
    (renderNotes (set_notes (recent (getAllNotes db)) p)).

(** The page a load leaves when it clears the selection. *)
Definition loaded_cleared (p : Page) (db : Db) : Page :=
  set_statsDiv (View.SearchSidebar.stats_line (Store.getStats db))
    (clearSelection (renderNotes (set_notes (recent (getAllNotes db)) p))).

(** What the window shows of the store. *)
Definition shows (p : Page) : list Note * option Z * View.listing * text :=
  (notes p, activeNoteId p, noteList p, statsDiv p).

(** The window and the store agree. *)
Definition in_sync (p : Page) (db : Db) : Prop :=
  Store.wf db /\
  notes p = recent (getAllNotes db) /\
  noteList p = View.Sidebar.renderNotes (notes p) (activeNoteId p) /\
  statsDiv p = View.SearchSidebar.stats_line (Store.getStats db) /\
  (forall a, activeNoteId p = Some a -> In a (List.map id (rows db))).

(** The selection holds no falsy id. *)
Definition selectable (p : Page) : Prop :=
  forall a, activeNoteId p = Some a -> a <> 0%Z.

End SidebarNotions.

Section SearchNotions.
Import SearchPage.

(** What a load fetches: the search result for a query, the whole list
    without one. *)
Definition fetched (v : View.SearchSidebar.View) (db : Db) : list Note :=
  let query := View.trim (View.SearchSidebar.searchInput v) in
  if truthy query
  then searchNotesStmt ([Like.percent] ++ query ++ [Like.percent])
                       ([Like.percent] ++ query ++ [Like.percent]) db
  else getAllNotes db.

(** What the handlers keep of the timers: handles are positive, fresh
    and distinct; a live save timer is the one [saveTimeout] names and
    waits 500 ms; a live search timer is the one [searchTimeout] names
    and waits 300 ms. *)
Definition named (save search : option nat) (x : Timers.timer) : Prop :=
  match Timers.action x with
  | Timers.PerformSave => save = Some (Timers.handle x) /\ Timers.delay x = 500
  | Timers.LoadNotes => search = Some (Timers.handle x) /\ Timers.delay x = 300
  end.

Definition tidy (save search : option nat) (t : Timers.table) : Prop :=
  NoDup (List.map Timers.handle (Timers.live t)) /\
  1 <= Timers.next t /\
  Forall (fun x => 1 <= Timers.handle x < Timers.next t) (Timers.live t) /\
  Forall (named save search) (Timers.live t).

Definition tidy_page (p : Page) : Prop :=
  tidy (saveTimeout p) (searchTimeout p) (timers p).

(** The part of a page the timers live in. *)
Definition sched (p : Page) : option nat * option nat * Timers.table :=
  (saveTimeout p, searchTimeout p, timers p).

(** The events of typing into the title or the content field. *)
Definition typing (e : Event) : bool :=
  match e with
  | TypeTitle _ | TypeContent _ => true
  | _ => false
  end.

(** A page whose only save timer is the one [saveTimeout] names. *)
Definition armed (p : Page) : Prop :=
  exists h, saveTimeout p = Some h /\
            Timers.pending Timers.PerformSave (timers p)
            = [Timers.mkTimer h 500 Timers.PerformSave].


End SearchNotions.

(** What [createNewNote] of the view with search does to the store. *)
Section CreateNotions.
Import SearchPage.
Variable r : readings.
Variable p : Page.
Variable db : Db.

(** The store after the flushed update, if one was sent. *)
Definition flushed_store : Db :=
  match snd (flushSave_start (client_now r) p) with
  | Some (i, (t, c)) => snd (Service.updateNote i t c (save_now r) db)
  | None => db
  end.

(** The note the creation adds on a well-formed store. *)
Definition added_note : Note :=
  mkNote (seq db + 1) [] [] (add_now r) (add_now r).

(** The store after the creation. *)
Definition added_store : Db :=
  {| rows := rows flushed_store ++ [added_note]; seq := (seq db + 1)%Z |}.

End CreateNotions.

(** ** Sample data *)

Definition sample_db : Db :=
  {| rows := [mkNote 1 (txt "Grocery List") (txt "milk")
                (txt "2024-05-01 10:00:00") (txt "2024-05-01 10:00:00");
              mkNote 2 (txt "Todo") (txt "buy GROCERIES")
                (txt "2024-05-01 10:00:05") (txt "2024-05-02 08:30:00");
              mkNote 5 (txt "abc") []
                (txt "2024-05-03 12:00:00") (txt "2024-05-03 12:00:00")];
     seq := 6 |}.

(** A history with creations in one second, an update and a deletion. *)
Definition sample_history : Service.history :=
  [(txt "2024-05-01 10:00:00", Service.AddNote (txt "A") []);
   (txt "2024-05-01 10:00:00", Service.AddNote (txt "B") (txt "b"));
   (txt "2024-05-01 10:00:07", Service.UpdateNote 1 (txt "A2") (txt "a"));
   (txt "2024-05-01 10:00:09", Service.DeleteNote 2);
   (txt "2024-05-01 10:00:09", Service.GetStats);
   (txt "2024-05-02 08:00:00", Service.AddNote (txt "C") [])].

(** Clock readings of one event. *)
Definition sample_readings : readings :=
  mkReadings (txt "2024-05-04 09:00:00") (txt "2024-05-04 09:00:00")
             (txt "2024-05-04 09:00:01").

(** A page of the view without search with note 9 selected and edited. *)
Definition sample_sidebar : SidebarPage.Page :=
  SidebarPage.mkPage [] (Some 9%Z) None View.EmptyState [] true false
                     (txt "gone") (txt "text") Timers.fresh.

(** A card grid with text in the quick-add field and the modal closed. *)
Definition sample_grid : CardGrid.Page :=
  CardGrid.mkPage [] (txt "  milk  ") CardGrid.EmptyState [] true
                  (txt "Edit Note") [] [] None.

(** A page of the view with search: note 1 selected, its content edited
    and the save timer pending. *)
Definition sample_search_page : SearchPage.Page :=
  SearchPage.mkPage
    (View.SearchSidebar.mkView
       (rows sample_db)
       (Some (mkNote 1 (txt "Grocery List") (txt "milk")
                (txt "2024-05-01 10:00:00") (txt "2024-05-01 10:00:00")))
       [] View.EmptyState [])
    (Some 1) None true false (txt "Grocery List") (txt "milk and eggs")
    (Timers.mkTable [Timers.mkTimer 1 500 Timers.PerformSave] 2).

(** The two sidebar views as their modules start them. *)
Definition blank_search_page : SearchPage.Page :=
  SearchPage.mkPage
    (View.SearchSidebar.mkView [] None [] View.EmptyState [])
    None None false true [] [] Timers.fresh.

Definition blank_sidebar : SidebarPage.Page :=
  SidebarPage.mkPage [] None None View.EmptyState [] false true [] []
                     Timers.fresh.

(** * Properties *)

(** ** The order on text *)

Module TextFacts.

Lemma compare_refl (a : text) : Text.compare a a = Eq.
Proof.
  induction a as [|x a IH]; simpl; [reflexivity|].
  now rewrite N.compare_refl.
Qed.

Lemma compare_eq (a b : text) : Text.compare a b = Eq -> a = b.
Proof.
  revert b; induction a as [|x a IH]; intros [|y b]; simpl;
    try discriminate; [reflexivity|].
  destruct (N.compare_spec x y) as [E|L|G]; try discriminate.
  intros H. subst y. f_equal. now apply IH.
Qed.

Lemma compare_antisym (a b : text) :
  Text.compare b a = CompOpp (Text.compare a b).
Proof.
  revert b; induction a as [|x a IH]; intros [|y b]; simpl; try reflexivity.
  rewrite (N.compare_antisym x y).
  destruct (N.compare x y); simpl; auto.
Qed.

Lemma compare_lt_trans (a b c : text) :
  Text.compare a b = Lt -> Text.compare b c = Lt -> Text.compare a c = Lt.
Proof.
  revert b c; induction a as [|x a IH]; intros [|y b] [|z c]; simpl;
    try discriminate; try reflexivity.
  destruct (N.compare_spec x y) as [E|L|G]; try discriminate;
    destruct (N.compare_spec y z) as [E'|L'|G']; try discriminate;
    intros H1 H2.
  - subst. rewrite N.compare_refl. eauto.
  - subst. now apply N.compare_lt_iff in L' as ->.
  - subst. now apply N.compare_lt_iff in L as ->.
  - assert (x < z)%N as ->%N.compare_lt_iff by lia. reflexivity.
Qed.


Lemma ltb_leb (a b : text) : Text.ltb a b = negb (Text.leb b a).
Proof.
  unfold Text.ltb, Text.leb. rewrite (compare_antisym a b).
  now destruct (Text.compare a b).
Qed.

Lemma lt_le (a b : text) : Text.lt a b -> Text.le a b.
Proof.
  unfold Text.lt, Text.le, Text.ltb, Text.leb.
  now destruct (Text.compare a b).
Qed.

Lemma lt_trans (a b c : text) : Text.lt a b -> Text.lt b c -> Text.lt a c.
Proof.
  unfold Text.lt, Text.ltb.
  destruct (Text.compare a b) eqn:E1; try discriminate.
  destruct (Text.compare b c) eqn:E2; try discriminate.
  now rewrite (compare_lt_trans _ _ _ E1 E2).
Qed.

Lemma le_trans (a b c : text) : Text.le a b -> Text.le b c -> Text.le a c.
Proof.
  unfold Text.le, Text.leb.
  destruct (Text.compare a b) eqn:E1; try discriminate;
    destruct (Text.compare b c) eqn:E2; try discriminate; intros _ _.
  - apply compare_eq in E1, E2. subst. now rewrite compare_refl.
  - apply compare_eq in E1. subst. now rewrite E2.
  - apply compare_eq in E2. subst. now rewrite E1.
  - now rewrite (compare_lt_trans _ _ _ E1 E2).
Qed.

(** [ltb a b = false] is [b <= a]. *)
Lemma ltb_false_le (a b : text) : Text.ltb a b = false <-> Text.le b a.
Proof.
  unfold Text.le. rewrite ltb_leb. now destruct (Text.leb b a).
Qed.

End TextFacts.


(** ** The stable descending sort *)

Module StableFacts.
Section Facts.
Variables (A K : Type) (ltb : K -> K -> bool) (key : A -> K).

Local Abbreviation place := (Stable.place ltb key).
Local Abbreviation sort := (Stable.sort_desc ltb key).

Local Abbreviation desc := (Stable.desc ltb key).
Local Abbreviation asc := (Stable.asc ltb key).

Lemma place_perm (x : A) (l : list A) : Permutation (x :: l) (place x l).
Proof.
  induction l as [|y l IH]; simpl; [reflexivity|].
  destruct (ltb (key x) (key y)); [|reflexivity].
  rewrite perm_swap. now apply perm_skip.
Qed.

Lemma sort_perm (l : list A) : Permutation l (sort l).
Proof.
  induction l as [|x l IH]; simpl; [reflexivity|].
  rewrite <- place_perm. now apply perm_skip.
Qed.

Lemma sort_length (l : list A) : length (sort l) = length l.
Proof. symmetry. apply Permutation_length, sort_perm. Qed.

Lemma place_last (x : A) (l : list A) :
  Forall (asc x) l -> place x l = l ++ [x].
Proof.
  induction 1 as [|y l Hy _ IH]; simpl; [reflexivity|].
  unfold Stable.asc in Hy. rewrite Hy. now f_equal.
Qed.

(** Input that is strictly ascending comes out reversed. *)
Lemma sort_rev (l : list A) : StronglySorted asc l -> sort l = rev l.
Proof.
  induction 1 as [|x l _ IH Hx]; simpl; [reflexivity|].
  fold sort. rewrite IH. apply place_last.
  apply Forall_forall. intros y Hy. apply in_rev in Hy.
  revert y Hy. now apply Forall_forall.
Qed.

Section Order.
Hypothesis asym : forall a b, ltb a b = true -> ltb b a = false.
Hypothesis negtrans :
  forall a b c, ltb a b = false -> ltb b c = false -> ltb a c = false.

Lemma place_sorted (x : A) (l : list A) :
  StronglySorted desc l -> StronglySorted desc (place x l).
Proof.
  induction 1 as [|y l Hl IH Hy]; simpl.
  - repeat constructor.
  - destruct (ltb (key x) (key y)) eqn:E.
    + constructor; [exact IH|].
      eapply Permutation_Forall; [apply place_perm|].
      constructor; [|exact Hy]. now apply asym.
    + constructor; [now constructor|].
      constructor; [exact E|].
      eapply Forall_impl; [|exact Hy].
      intros z Hz. exact (negtrans _ _ _ E Hz).
Qed.

Lemma sort_sorted (l : list A) : StronglySorted desc (sort l).
Proof.
  induction l as [|x l IH]; simpl; [constructor|].
  now apply place_sorted.
Qed.
End Order.

End Facts.
End StableFacts.

(** ** The store *)

Module StoreFacts.

Lemma largest_rowid_ge (l : list Note) (n : Note) :
  In n l -> (id n <= largest_rowid l)%Z.
Proof.
  induction l as [|m l IH]; simpl; [tauto|].
  intros [->|H]; [|specialize (IH H)]; lia.
Qed.

Lemma filter_none (A : Type) (f : A -> bool) (l : list A) :
  (forall x, In x l -> f x = false) -> filter f l = [].
Proof.
  induction l as [|x l IH]; simpl; intros H; [reflexivity|].
  rewrite (H x) by auto. apply IH. auto.
Qed.

Lemma filter_all (A : Type) (f : A -> bool) (l : list A) :
  (forall x, In x l -> f x = true) -> filter f l = l.
Proof.
  induction l as [|x l IH]; simpl; intros H; [reflexivity|].
  rewrite (H x) by auto. f_equal. apply IH. auto.
Qed.

Lemma has_id_true (i : Z) (n : Note) : has_id i n = true <-> id n = i.
Proof. unfold has_id. apply Z.eqb_eq. Qed.

Lemma has_id_false (i : Z) (n : Note) : has_id i n = false <-> id n <> i.
Proof. unfold has_id. apply Z.eqb_neq. Qed.

(** No row carries an id the table has not reached. *)
Lemma getNoteById_fresh (i : Z) (l : list Note) :
  (largest_rowid l < i)%Z -> filter (has_id i) l = [].
Proof.
  intros H. apply filter_none. intros n Hn. apply has_id_false.
  apply largest_rowid_ge in Hn. lia.
Qed.

(** With unique ids, the rows selected by an id are the row itself. *)
Lemma filter_has_id_unique (l : list Note) (n : Note) :
  NoDup (List.map id l) -> In n l -> filter (has_id (id n)) l = [n].
Proof.
  induction l as [|m l IH]; simpl; [tauto|].
  intros Hnd Hin. apply NoDup_cons_iff in Hnd as [Hm Hnd].
  destruct Hin as [->|Hin].
  - unfold has_id at 1. rewrite Z.eqb_refl. f_equal.
    apply filter_none. intros x Hx. apply has_id_false.
    intros E. apply Hm. rewrite <- E. now apply in_map.
  - assert (has_id (id n) m = false) as ->.
    { apply has_id_false. intros E. apply Hm. rewrite E. now apply in_map. }
    now apply IH.
Qed.

Lemma get_none (l : list Note) : get l = None <-> l = [].
Proof. destruct l; simpl; split; congruence. Qed.

Lemma new_rowid_some (db : Db) :
  (largest_rowid (rows db) < MAX_ROWID)%Z -> (seq db < MAX_ROWID)%Z ->
  new_rowid db = Some (Z.max (largest_rowid (rows db) + 1) (seq db + 1)).
Proof.
  intros H1 H2. unfold new_rowid.
  destruct (Z.geb_spec (largest_rowid (rows db)) MAX_ROWID); [lia|].
  destruct (Z.eqb_spec (seq db) MAX_ROWID); [lia|]. reflexivity.
Qed.


(** What an insert returns is what a fetch by its id finds. *)
Lemma insertNote_fetch (T C now : text) (db : Db) :
  (largest_rowid (rows db) < MAX_ROWID)%Z ->
  (seq db < MAX_ROWID)%Z ->
  exists (n : Note) (db' : Db),
    insertNote T C now db = Some ([n], db') /\
    getNoteById (id n) db' = [n] /\
    get (getNoteById (id n) db') = Some n /\
    title n = T /\ content n = C /\
    created_at n = now /\ updated_at n = created_at n.
Proof.
  intros H1 H2. unfold insertNote.
  rewrite (new_rowid_some db H1 H2).
  eexists. eexists. split; [reflexivity|].
  assert (getNoteById
            (Z.max (largest_rowid (rows db) + 1) (seq db + 1))
            {| rows := rows db ++
                 [{| id := Z.max (largest_rowid (rows db) + 1) (seq db + 1);
                     title := T; content := C;
                     created_at := now; updated_at := now |}];
               seq := Z.max (largest_rowid (rows db) + 1) (seq db + 1) |}
          = [{| id := Z.max (largest_rowid (rows db) + 1) (seq db + 1);
                title := T; content := C;
                created_at := now; updated_at := now |}]) as E.
  { unfold getNoteById. simpl. rewrite filter_app. simpl.
    rewrite getNoteById_fresh by lia.
    unfold has_id. simpl. now rewrite Z.eqb_refl. }
  simpl. rewrite E. simpl. repeat split; reflexivity.
Qed.

End StoreFacts.

Import StoreFacts.

(** C1. Round-trip create: while the rowid space is not exhausted, the
    insert statement with title [T] and content [C] returns one row, and
    fetching by the id of that row yields exactly that row, whose title is
    [T], whose content is [C], and whose two timestamps are the same
    clock reading. *)
Theorem create_round_trip (T C now : text) (db : Db) :
  (largest_rowid (rows db) < MAX_ROWID)%Z ->
  (seq db < MAX_ROWID)%Z ->
  exists (n : Note) (db' : Db),
    insertNote T C now db = Some ([n], db') /\
    getNoteById (id n) db' = [n] /\
    get (getNoteById (id n) db') = Some n /\
    title n = T /\ content n = C /\
    created_at n = now /\ updated_at n = created_at n.
Proof. exact (insertNote_fetch T C now db). Qed.

(** The round trip on a store that already holds a note. *)
Lemma create_round_trip_witness :
  exists (n : Note) (db' : Db),
    insertNote (txt "T") (txt "C") (txt "2024-05-01 10:00:00")
      {| rows := [mkNote 4 (txt "old") [] (txt "2024-04-30 09:00:00")
                    (txt "2024-04-30 09:00:00")];
         seq := 7 |} = Some ([n], db') /\
    getNoteById (id n) db' = [n] /\
    get (getNoteById (id n) db') = Some n /\
    title n = txt "T" /\ content n = txt "C" /\
    created_at n = txt "2024-05-01 10:00:00" /\ updated_at n = created_at n.
Proof.
  apply create_round_trip; vm_compute; reflexivity.
Defined.

(** ** Update and delete *)

Module UpdateFacts.

Lemma filter_nil_all (A : Type) (f : A -> bool) (l : list A) :
  filter f l = [] -> forall x, In x l -> f x = false.
Proof.
  induction l as [|y l IH]; simpl; [tauto|].
  destruct (f y) eqn:E; [discriminate|].
  intros H x [<-|Hx]; auto.
Qed.

Lemma filter_split_length (A : Type) (f : A -> bool) (l : list A) :
  length (filter f l) + length (filter (fun x => negb (f x)) l) = length l.
Proof.
  induction l as [|y l IH]; simpl; [reflexivity|].
  destruct (f y); simpl; lia.
Qed.

Section Update.
Variables (T C now : text) (i : Z).

Local Abbreviation upd :=
  (fun n : Note => if has_id i n then set_note T C now n else n).

Lemma upd_id (n : Note) : id (upd n) = id n.
Proof. cbv beta. now destruct (has_id i n). Qed.

Lemma map_upd_ids (l : list Note) : List.map id (List.map upd l) = List.map id l.
Proof.
  rewrite map_map. apply map_ext. intros n. apply upd_id.
Qed.

(** The rows the statement touches are those it returns. *)
Lemma filter_upd_same (l : list Note) :
  filter (has_id i) (List.map upd l)
  = List.map (set_note T C now) (filter (has_id i) l).
Proof.
  induction l as [|n l IH]; simpl; [reflexivity|].
  destruct (has_id i n) eqn:E; simpl.
  - unfold has_id in *. simpl. rewrite E. simpl. now f_equal.
  - rewrite E. exact IH.
Qed.

Lemma filter_upd_other (j : Z) (l : list Note) :
  j <> i -> filter (has_id j) (List.map upd l) = filter (has_id j) l.
Proof.
  intros Hj. induction l as [|n l IH]; simpl; [reflexivity|].
  destruct (has_id i n) eqn:E.
  - apply has_id_true in E.
    assert (has_id j (set_note T C now n) = false) as ->
        by (apply has_id_false; simpl; congruence).
    assert (has_id j n = false) as -> by (apply has_id_false; congruence).
    exact IH.
  - destruct (has_id j n); [f_equal|]; exact IH.
Qed.

Lemma map_upd_absent (l : list Note) :
  filter (has_id i) l = [] -> List.map upd l = l.
Proof.
  intros H. rewrite <- (map_id l) at 2. apply map_ext_in.
  intros n Hn. now rewrite (filter_nil_all _ _ _ H n Hn).
Qed.

Lemma in_map_upd_other (m : Note) (l : list Note) :
  id m <> i -> In m l -> In m (List.map upd l).
Proof.
  intros Hm Hin. apply in_map_iff. exists m. split; [|exact Hin].
  now apply has_id_false in Hm as ->.
Qed.
End Update.

End UpdateFacts.

Import UpdateFacts.

(** C6. Update of an id no note carries: the request yields an absent
    result and the store is left exactly as it was. *)
Theorem update_absent_id (i : Z) (T C now : text) (db : Db) :
  get (getNoteById i db) = None ->
  Service.updateNote i T C now db = (Service.Reply None, db).
Proof.
  intros H. apply get_none in H. unfold getNoteById in H.
  unfold Service.updateNote, Store.updateNote.
  rewrite H, (map_upd_absent T C now i _ H).
  destruct db; reflexivity.
Qed.

Lemma sample_db_ids : NoDup (List.map id (rows sample_db)).
Proof.
  simpl. repeat constructor; simpl; intuition discriminate.
Qed.

Lemma update_absent_id_witness :
  get (getNoteById 3 sample_db) = None /\
  Service.updateNote 3 (txt "x") (txt "y") (txt "2024-06-01 00:00:00") sample_db
  = (Service.Reply None, sample_db).
Proof.
  split; [reflexivity|]. apply update_absent_id. reflexivity.
Defined.

(** On a store with unique ids an update of a present id rewrites that
    row and returns it; the other rows, the order and the sequence
    counter stay. *)
Lemma updateNote_frame (n : Note) (T C now : text) (db : Db) :
  NoDup (List.map id (rows db)) ->
  In n (rows db) ->
  let n' := set_note T C now n in
  let db' := snd (Service.updateNote (id n) T C now db) in
  fst (Service.updateNote (id n) T C now db) = Service.Reply (Some n') /\
  get (getNoteById (id n) db') = Some n' /\
  (forall j, j <> id n -> getNoteById j db' = getNoteById j db) /\
  (forall m, In m (rows db) -> id m <> id n -> In m (rows db')) /\
  List.map id (rows db') = List.map id (rows db) /\
  Store.getStats db' = Store.getStats db /\
  seq db' = seq db.
Proof.
  intros Hnd Hin n' db'.
  assert (filter (has_id (id n)) (rows db) = [n]) as E
      by now apply filter_has_id_unique.
  unfold Service.updateNote, Store.updateNote in *. simpl in *. subst db'.
  simpl. unfold getNoteById. simpl.
  rewrite filter_upd_same, E. simpl.
  repeat split; try reflexivity.
  - intros j Hj. now apply filter_upd_other.
  - intros m Hm Hne. now apply in_map_upd_other.
  - apply map_upd_ids.
  - unfold Store.getStats. simpl. now rewrite length_map.
Qed.

(** C3. Delete semantics: the request answers [success: true] for every
    id; when no note carries the id the store is unchanged, and so is the
    count; when a note carries it (ids being unique) the count drops by
    exactly one, a later fetch by that id is absent, and the other rows
    stay. *)
Theorem delete_semantics (i : Z) (db : Db) :
  let db' := snd (Service.deleteNote i db) in
  fst (Service.deleteNote i db) = Service.Reply true /\
  (get (getNoteById i db) = None ->
     db' = db /\ Store.getStats db' = Store.getStats db) /\
  (NoDup (List.map id (rows db)) ->
   forall n, get (getNoteById i db) = Some n ->
     Store.getStats db' = (Store.getStats db - 1)%Z /\
     get (getNoteById i db') = None /\
     (forall m, In m (rows db') <-> In m (rows db) /\ id m <> i)).
Proof.
  simpl. split; [reflexivity|]. split.
  - intros H. apply get_none in H. unfold getNoteById in H.
    assert (Store.deleteNote i db = db) as ->; [|auto].
    unfold Store.deleteNote. rewrite filter_all; [now destruct db|].
    intros x Hx. now rewrite (filter_nil_all _ _ _ H x Hx).
  - intros Hnd n Hn. unfold getNoteById in *.
    assert (In n (rows db) /\ id n = i) as [Hin Hid].
    { destruct (filter (has_id i) (rows db)) as [|m l] eqn:E; [discriminate|].
      injection Hn as ->.
      assert (In n (filter (has_id i) (rows db))) as Hf
          by (rewrite E; now left).
      apply filter_In in Hf as [? ?%has_id_true]. auto. }
    subst i. pose proof (filter_has_id_unique (rows db) n Hnd Hin) as E.
    split; [|split].
    + unfold Store.getStats, Store.deleteNote. simpl.
      pose proof (filter_split_length _ (has_id (id n)) (rows db)) as L.
      rewrite E in L. simpl in L. lia.
    + apply get_none. unfold Store.deleteNote. simpl.
      apply filter_none. intros x Hx.
      apply filter_In in Hx as [_ Hx]. now destruct (has_id (id n) x).
    + intros m. unfold Store.deleteNote. simpl. rewrite filter_In.
      rewrite <- has_id_false. now destruct (has_id (id n) m).
Qed.

Lemma delete_semantics_witness :
  (get (getNoteById 9 sample_db) = None /\
   snd (Service.deleteNote 9 sample_db) = sample_db) /\
  (get (getNoteById 2 sample_db) <> None /\
   Store.getStats sample_db = 3%Z /\
   Store.getStats (snd (Service.deleteNote 2 sample_db)) = (3 - 1)%Z /\
   get (getNoteById 2 (snd (Service.deleteNote 2 sample_db))) = None).
Proof.
  split.
  - split; [reflexivity|].
    now apply (proj1 (proj2 (delete_semantics 9 sample_db))).
  - split; [discriminate|]. split; [reflexivity|].
    destruct (proj2 (proj2 (delete_semantics 2 sample_db)) sample_db_ids
                _ eq_refl) as (H1 & H2 & _).
    split; [exact H1 | exact H2].
Defined.

(** ** Histories *)

Module HistoryFacts.

Import Service.

(** One case per request, the handlers unfolded. *)
Ltac by_request r := destruct r as [|t c|i t c|i| |q]; simpl.

Lemma sorted_snoc (l : list Z) (x : Z) :
  StronglySorted Z.lt l -> Forall (fun y => y < x)%Z l ->
  StronglySorted Z.lt (l ++ [x]).
Proof.
  induction 1 as [|y l Hl IH Hy]; intros Hx; simpl.
  - repeat constructor.
  - apply Forall_cons_iff in Hx as [Hyx Hx].
    constructor; [now apply IH|].
    apply Forall_app. split; [exact Hy|]. now repeat constructor.
Qed.

Lemma sorted_filter_ids (f : Note -> bool) (l : list Note) :
  StronglySorted Z.lt (List.map id l) ->
  StronglySorted Z.lt (List.map id (filter f l)).
Proof.
  induction l as [|n l IH]; simpl; [auto|].
  intros H. apply StronglySorted_inv in H as [Hl Hn].
  destruct (f n); simpl; [|now apply IH].
  constructor; [now apply IH|].
  apply Forall_forall. intros j Hj.
  apply in_map_iff in Hj as (m & <- & Hm).
  apply filter_In in Hm as [Hm _].
  rewrite Forall_forall in Hn. apply Hn. now apply in_map.
Qed.

Lemma sorted_NoDup (l : list Z) : StronglySorted Z.lt l -> NoDup l.
Proof.
  induction 1 as [|x l _ IH Hx]; constructor; [|exact IH].
  intros Hin. rewrite Forall_forall in Hx. specialize (Hx x Hin). lia.
Qed.

Lemma wf_NoDup (db : Db) : wf db -> NoDup (List.map id (rows db)).
Proof. intros [H _]. now apply sorted_NoDup. Qed.

Lemma wf_empty : wf Store.empty.
Proof.
  unfold wf, MAX_ROWID. simpl. repeat split; try constructor; lia.
Qed.

Lemma wf_largest (db : Db) : wf db -> (largest_rowid (rows db) <= seq db)%Z.
Proof.
  intros (_ & Hb & Hs). destruct db as [l s]. simpl in *.
  induction l as [|n l IH]; simpl in *; [lia|].
  apply Forall_cons_iff in Hb as [Hn Hb]. specialize (IH Hb). lia.
Qed.

(** On a well-formed store the next rowid is [seq + 1], unless the
    space is exhausted. *)
Lemma wf_new_rowid (db : Db) :
  wf db ->
  new_rowid db = if (seq db =? MAX_ROWID)%Z then None else Some (seq db + 1)%Z.
Proof.
  intros Hwf. pose proof (wf_largest db Hwf) as Hl.
  destruct Hwf as (_ & _ & Hs). unfold new_rowid.
  destruct (Z.eqb_spec (seq db) MAX_ROWID) as [E|E].
  - now rewrite orb_true_r.
  - destruct (Z.geb_spec (largest_rowid (rows db)) MAX_ROWID); [lia|].
    simpl. f_equal. lia.
Qed.

Lemma insertNote_wf (t c now : text) (db : Db) :
  wf db ->
  insertNote t c now db =
    if (seq db =? MAX_ROWID)%Z then None
    else Some ([mkNote (seq db + 1) t c now now],
               {| rows := rows db ++ [mkNote (seq db + 1) t c now now];
                  seq := (seq db + 1)%Z |}).
Proof.
  intros Hwf. unfold insertNote. rewrite (wf_new_rowid db Hwf).
  now destruct (seq db =? MAX_ROWID)%Z.
Qed.

Lemma serve_wf (now : text) (r : Request) (db : Db) :
  wf db -> wf (serve now r db).
Proof.
  intros Hwf. by_request r; try exact Hwf.
  - unfold addNote. rewrite (insertNote_wf t c now db Hwf).
    destruct (Z.eqb_spec (seq db) MAX_ROWID) as [E|E]; simpl; [exact Hwf|].
    destruct Hwf as (Hs & Hb & Hq). unfold wf. simpl.
    rewrite map_app. simpl. repeat split; try lia.
    + apply sorted_snoc; [exact Hs|].
      eapply Forall_impl; [|exact Hb]. simpl. intros; lia.
    + apply Forall_app. split.
      * eapply Forall_impl; [|exact Hb]. simpl. intros; lia.
      * repeat constructor; simpl; lia.
  - destruct Hwf as (Hs & Hb & Hq). unfold wf. simpl.
    rewrite map_upd_ids. auto.
  - destruct Hwf as (Hs & Hb & Hq). unfold wf. simpl.
    repeat split; try lia.
    + now apply sorted_filter_ids.
    + apply Forall_forall. intros j Hj.
      apply in_map_iff in Hj as (m & <- & Hm).
      apply filter_In in Hm as [Hm _].
      rewrite Forall_forall in Hb. apply Hb. now apply in_map.
Qed.

Lemma run_wf (h : history) (db : Db) : wf db -> wf (run h db).
Proof.
  revert db. induction h as [|[now r] h IH]; simpl; intros db Hwf;
    [exact Hwf|].
  apply IH. now apply serve_wf.
Qed.

Lemma run_app (h1 h2 : history) (db : Db) :
  run (h1 ++ h2) db = run h2 (run h1 db).
Proof.
  revert db. induction h1 as [|[now r] h1 IH]; simpl; intros db;
    [reflexivity|]. apply IH.
Qed.






(** *** Timestamps *)

Lemma nondecreasing_head (a : text) (l : list text) :
  nondecreasing (a :: l) = true ->
  Forall (Text.le a) l /\ nondecreasing l = true.
Proof.
  revert a. induction l as [|b l IH]; intros a H.
  - split; [constructor | reflexivity].
  - simpl in H. apply andb_true_iff in H as [Hab Hl].
    split; [|exact Hl]. constructor; [exact Hab|].
    destruct (IH b Hl) as [Hb _].
    eapply Forall_impl; [|exact Hb].
    intros c Hc. now apply (TextFacts.le_trans a b c).
Qed.





End HistoryFacts.

Import HistoryFacts.





(** ** Counting *)

Module CountFacts.

Import Service.

Lemma creations_run (cs : list (text * (text * text))) (db : Db) :
  wf db ->
  (seq db + Z.of_nat (length cs) <= MAX_ROWID)%Z ->
  length (rows (run (creations cs) db)) = length (rows db) + length cs.
Proof.
  revert db. induction cs as [|[now [t c]] cs IH]; intros db Hwf Hb.
  - simpl. lia.
  - change (run (creations ((now, (t, c)) :: cs)) db)
      with (run (creations cs) (serve now (AddNote t c) db)).
    pose proof (serve_wf now (AddNote t c) db Hwf) as Hwf'.
    simpl in Hwf' |- *. revert Hwf'.
    unfold addNote. rewrite (insertNote_wf t c now db Hwf).
    simpl length in Hb.
    destruct (Z.eqb_spec (seq db) MAX_ROWID) as [E|E]; [lia|].
    simpl. intros Hwf'. rewrite IH; [|exact Hwf'|simpl; lia].
    simpl. rewrite length_app. simpl. lia.
Qed.

Lemma delete_present_length (i : Z) (db : Db) :
  wf db -> In i (List.map id (rows db)) ->
  length (rows (Store.deleteNote i db)) + 1 = length (rows db).
Proof.
  intros Hwf Hin. apply in_map_iff in Hin as (n & <- & Hn).
  pose proof (filter_has_id_unique (rows db) n (wf_NoDup db Hwf) Hn) as E.
  pose proof (filter_split_length _ (has_id (id n)) (rows db)) as L.
  rewrite E in L. simpl in *. lia.
Qed.

Lemma deletions_run (ds : list (text * Z)) (db : Db) :
  wf db ->
  NoDup (List.map snd ds) ->
  incl (List.map snd ds) (List.map id (rows db)) ->
  length (rows (run (deletions ds) db)) + length ds = length (rows db).
Proof.
  revert db. induction ds as [|[now i] ds IH]; intros db Hwf Hnd Hin.
  - simpl. lia.
  - change (run (deletions ((now, i) :: ds)) db)
      with (run (deletions ds) (Store.deleteNote i db)).
    simpl in Hnd, Hin. apply NoDup_cons_iff in Hnd as [Hi Hnd].
    pose proof (serve_wf now (DeleteNote i) db Hwf) as Hwf'. simpl in Hwf'.
    assert (In i (List.map id (rows db))) as Hpresent
        by (apply Hin; now left).
    pose proof (delete_present_length i db Hwf Hpresent) as L.
    specialize (IH (Store.deleteNote i db) Hwf' Hnd).
    simpl length. rewrite <- L, <- IH; [lia|].
    intros j Hj.
    assert (In j (List.map id (rows db))) as Hj' by (apply Hin; now right).
    apply in_map_iff in Hj' as (m & <- & Hm).
    apply in_map. simpl. apply filter_In. split; [exact Hm|].
    assert (id m <> i) as Hne by (intros E; rewrite E in Hj; contradiction).
    now rewrite (proj2 (has_id_false i m) Hne).
Qed.

End CountFacts.

Import CountFacts.

(** C8. Stats reflect the live count: on every store the [getStats]
    request answers with the number of rows, which is also the number of
    notes the list request returns; and starting from the empty store,
    [n] creations (within the rowid space) followed by the deletion of [m]
    distinct notes present after them leave [total = n - m]. *)
Theorem stats_live_count :
  (forall db : Db,
     fst (Service.getStats db) = Service.Reply (Z.of_nat (length (rows db))) /\
     fst (Service.getNotes db) = Service.Reply (getAllNotes db) /\
     length (getAllNotes db) = length (rows db)) /\
  (forall (cs : list (text * (text * text))) (ds : list (text * Z)),
     (Z.of_nat (length cs) <= MAX_ROWID)%Z ->
     NoDup (List.map snd ds) ->
     incl (List.map snd ds)
          (List.map id (rows (Service.run (Service.creations cs) Store.empty))) ->
     fst (Service.getStats
            (Service.run (Service.creations cs ++ Service.deletions ds)
                         Store.empty))
     = Service.Reply (Z.of_nat (length cs) - Z.of_nat (length ds))%Z).
Proof.
  split.
  - intros db. repeat split.
    apply StableFacts.sort_length.
  - intros cs ds Hb Hnd Hin. rewrite run_app.
    unfold Service.getStats, Store.getStats. simpl. f_equal.
    pose proof (run_wf (Service.creations cs) Store.empty wf_empty) as Hwf.
    pose proof (deletions_run ds _ Hwf Hnd Hin) as Hd.
    pose proof (creations_run cs Store.empty wf_empty) as Hc.
    simpl in Hc. specialize (Hc Hb). lia.
Qed.

Lemma stats_live_count_witness :
  let cs := [(txt "2024-05-01 10:00:00", (txt "A", txt "a"));
             (txt "2024-05-01 10:00:00", (txt "B", []));
             (txt "2024-05-01 10:00:01", (txt "C", txt "c"))] in
  let ds := [(txt "2024-05-01 10:00:02", 3%Z);
             (txt "2024-05-01 10:00:03", 1%Z)] in
  fst (Service.getStats
         (Service.run (Service.creations cs ++ Service.deletions ds)
                      Store.empty))
  = Service.Reply (3 - 2)%Z.
Proof.
  intros cs ds.
  apply (proj2 stats_live_count cs ds).
  - vm_compute. discriminate.
  - simpl. repeat constructor; simpl; intuition discriminate.
  - intros j Hj. simpl in Hj. vm_compute. intuition.
Defined.

(** ** Ordering of the results *)

Module OrderFacts.

Import Service.

Lemma text_asym (a b : text) : Text.ltb a b = true -> Text.ltb b a = false.
Proof.
  intros H. apply TextFacts.ltb_false_le. now apply TextFacts.lt_le.
Qed.

Lemma text_negtrans (a b c : text) :
  Text.ltb a b = false -> Text.ltb b c = false -> Text.ltb a c = false.
Proof.
  rewrite !TextFacts.ltb_false_le. intros H1 H2.
  now apply (TextFacts.le_trans c b a).
Qed.

Lemma sorted_weaken (A : Type) (R R' : A -> A -> Prop) (l : list A) :
  (forall a b, R a b -> R' a b) -> StronglySorted R l -> StronglySorted R' l.
Proof.
  intros HR. induction 1 as [|x l _ IH Hx]; constructor; [exact IH|].
  eapply Forall_impl; [|exact Hx]. intros b. apply HR.
Qed.

Lemma order_by_desc_perm (key : Note -> text) (l : list Note) :
  Permutation l (order_by_desc key l).
Proof. apply StableFacts.sort_perm. Qed.

Lemma order_by_desc_sorted (key : Note -> text) (l : list Note) :
  StronglySorted (fun a b => Text.le (key b) (key a)) (order_by_desc key l).
Proof.
  eapply sorted_weaken.
  2: apply (StableFacts.sort_sorted _ _ Text.ltb key text_asym text_negtrans).
  intros a b H. now apply TextFacts.ltb_false_le.
Qed.

Lemma strictly_increasing_head (a : text) (l : list text) :
  strictly_increasing (a :: l) = true ->
  Forall (Text.lt a) l /\ strictly_increasing l = true.
Proof.
  revert a. induction l as [|b l IH]; intros a H.
  - split; [constructor | reflexivity].
  - simpl in H. apply andb_true_iff in H as [Hab Hl].
    split; [|exact Hl]. constructor; [exact Hab|].
    destruct (IH b Hl) as [Hb _].
    eapply Forall_impl; [|exact Hb].
    intros c Hc. now apply (TextFacts.lt_trans a b c).
Qed.

Lemma created_keys (s : Z) (cs : list (text * (text * text))) :
  List.map (fun n => (created_at n, (title n, content n))) (created s cs) = cs.
Proof.
  revert s. induction cs as [|[now [t c]] cs IH]; intros s; simpl;
    [reflexivity|]. now rewrite IH.
Qed.

Lemma created_ascending (s : Z) (cs : list (text * (text * text))) :
  strictly_increasing (List.map fst cs) = true ->
  StronglySorted (Stable.asc Text.ltb created_at) (created s cs).
Proof.
  revert s. induction cs as [|[now [t c]] cs IH]; intros s H; simpl.
  - constructor.
  - apply strictly_increasing_head in H as [Hall Hrest].
    constructor; [now apply IH|].
    apply Forall_forall. intros n Hn. unfold Stable.asc. simpl.
    assert (In (created_at n) (List.map fst cs)) as Hin.
    { replace (List.map fst cs)
        with (List.map fst
                (List.map (fun n => (created_at n, (title n, content n)))
                          (created (s + 1) cs)))
        by now rewrite created_keys.
      rewrite map_map. simpl.
      apply in_map_iff. now exists n. }
    rewrite Forall_forall in Hall. exact (Hall _ Hin).
Qed.

(** Creations on a well-formed table append their rows in order. *)
Lemma creations_rows (cs : list (text * (text * text))) (db : Db) :
  wf db ->
  (seq db + Z.of_nat (length cs) <= MAX_ROWID)%Z ->
  rows (run (creations cs) db) = rows db ++ created (seq db) cs.
Proof.
  revert db. induction cs as [|[now [t c]] cs IH]; intros db Hwf Hb.
  - simpl. now rewrite app_nil_r.
  - change (run (creations ((now, (t, c)) :: cs)) db)
      with (run (creations cs) (serve now (AddNote t c) db)).
    pose proof (serve_wf now (AddNote t c) db Hwf) as Hwf'.
    simpl in Hwf' |- *. revert Hwf'.
    unfold addNote. rewrite (insertNote_wf t c now db Hwf).
    simpl length in Hb.
    destruct (Z.eqb_spec (seq db) MAX_ROWID) as [E|E]; [lia|].
    simpl. intros Hwf'. rewrite IH; [|exact Hwf'|simpl; lia].
    simpl. now rewrite <- app_assoc.
Qed.

End OrderFacts.

Import OrderFacts.

(** C4, as the code has it.  The list request returns every note of the
    store, each once, in descending order of [created_at]; and after
    creations at strictly increasing clock readings on the empty store
    (within the rowid space, no other request in between) it returns the
    notes in the reverse of their order of creation: C, B, A for A, B, C. *)
Theorem list_all_ordering :
  (forall db : Db,
     Service.getNotes db = (Service.Reply (getAllNotes db), db) /\
     Permutation (rows db) (getAllNotes db) /\
     StronglySorted (fun a b => Text.le (created_at b) (created_at a))
                    (getAllNotes db)) /\
  (forall cs : list (text * (text * text)),
     Service.strictly_increasing (List.map fst cs) = true ->
     (Z.of_nat (length cs) <= MAX_ROWID)%Z ->
     let db := Service.run (Service.creations cs) Store.empty in
     List.map (fun n => (created_at n, (title n, content n))) (rows db) = cs /\
     fst (Service.getNotes db) = Service.Reply (rev (rows db))).
Proof.
  split.
  - intros db. split; [reflexivity|]. split.
    + apply order_by_desc_perm.
    + apply order_by_desc_sorted.
  - intros cs Hinc Hb db.
    assert (rows db = Service.created 0 cs) as E.
    { unfold db. rewrite creations_rows; [reflexivity|exact wf_empty|].
      simpl. lia. }
    split.
    + rewrite E. apply created_keys.
    + simpl. f_equal. unfold getAllNotes, order_by_desc. rewrite E.
      apply StableFacts.sort_rev. now apply created_ascending.
Qed.

Lemma list_all_ordering_witness :
  let cs := [(txt "2024-05-01 10:00:00", (txt "A", txt "a"));
             (txt "2024-05-01 10:00:01", (txt "B", txt "b"));
             (txt "2024-05-01 10:01:00", (txt "C", txt "c"))] in
  let db := Service.run (Service.creations cs) Store.empty in
  List.map (fun n => (created_at n, (title n, content n))) (rows db) = cs /\
  fst (Service.getNotes db) = Service.Reply (rev (rows db)) /\
  List.map title (rev (rows db)) = [txt "C"; txt "B"; txt "A"].
Proof.
  intros cs db.
  destruct (proj2 list_all_ordering cs) as [H1 H2].
  - reflexivity.
  - vm_compute. discriminate.
  - split; [exact H1|]. split; [exact H2|]. reflexivity.
Defined.

(** C4 as stated fails: three notes created within one second of the
    clock, in the order A, B, C and with no update, have equal
    [created_at], and the list request returns them as A, B, C. *)
Lemma list_all_same_second :
  let t := txt "2024-05-01 10:00:00" in
  let db := Service.run
              (Service.creations [(t, (txt "A", [])); (t, (txt "B", []));
                                  (t, (txt "C", []))]) Store.empty in
  exists l : list Note,
    fst (Service.getNotes db) = Service.Reply l /\
    List.map title l = [txt "A"; txt "B"; txt "C"] /\
    List.map title l <> [txt "C"; txt "B"; txt "A"].
Proof.
  eexists. split; [reflexivity|]. split; [reflexivity|].
  vm_compute. discriminate.
Qed.

(** ** [LIKE] on a wrapped query *)

Module LikeFacts.

Import Like Spec.

Lemma matches_percent (p s : text) :
  matches (percent :: p) s =
  matches p s || match s with
                 | [] => false
                 | _ :: s' => matches (percent :: p) s'
                 end.
Proof. destruct s; reflexivity. Qed.








End LikeFacts.

Import LikeFacts.



(** Case is folded for ASCII letters only: to [LIKE], an accented
    capital E and its small letter differ, while E and e do not. *)
Lemma like_folds_ascii_only :
  Like.like [201%N] ([Like.percent] ++ [233%N] ++ [Like.percent]) = false /\
  Like.like (txt "E") ([Like.percent] ++ txt "e" ++ [Like.percent]) = true.
Proof. split; reflexivity. Qed.



(** ** The rendering of a row *)

Module ViewFacts.

Import View Spec.

(** *** [trim] *)

Lemma trimStart_split (s : text) :
  exists pre : text, s = pre ++ trimStart s /\ forallb is_space pre = true.
Proof.
  induction s as [|c s (pre & E & Hpre)]; simpl.
  - now exists [].
  - destruct (is_space c) eqn:Hc.
    + exists (c :: pre). simpl. rewrite Hc, <- E. auto.
    + now exists [].
Qed.

Lemma trimStart_head (s : text) (c : N) :
  hd_error (trimStart s) = Some c -> is_space c = false.
Proof.
  induction s as [|d s IH]; simpl; [discriminate|].
  destruct (is_space d) eqn:Hd; [exact IH|].
  simpl. now intros [= <-].
Qed.

Lemma forallb_rev (f : N -> bool) (l : text) :
  forallb f l = true -> forallb f (rev l) = true.
Proof.
  rewrite !forallb_forall. intros H x Hx. apply H. now apply in_rev.
Qed.

Lemma trimEnd_split (s : text) :
  exists post : text, s = trimEnd s ++ post /\ forallb is_space post = true.
Proof.
  destruct (trimStart_split (rev s)) as (pre & E & Hpre).
  exists (rev pre). split; [|now apply forallb_rev].
  unfold trimEnd. rewrite <- rev_app_distr, <- E. now rewrite rev_involutive.
Qed.

Lemma trimEnd_last (s : text) (c : N) :
  hd_error (rev (trimEnd s)) = Some c -> is_space c = false.
Proof.
  unfold trimEnd. rewrite rev_involutive. apply trimStart_head.
Qed.

(** [trim] removes the white space at both ends and nothing else. *)
Lemma trim_trimmed (s : text) : trimmed s (trim s).
Proof.
  unfold trim.
  destruct (trimStart_split s) as (pre & E1 & Hpre).
  destruct (trimEnd_split (trimStart s)) as (post & E2 & Hpost).
  repeat split.
  - exists pre, post. repeat split; [|exact Hpre|exact Hpost].
    now rewrite <- E2.
  - intros c Hc. apply (trimStart_head s). rewrite E2.
    destruct (trimEnd (trimStart s)); [discriminate|exact Hc].
  - apply trimEnd_last.
Qed.

Lemma trimStart_snoc (x : text) (c : N) :
  trimStart (x ++ [c]) =
  match trimStart x with
  | [] => if is_space c then [] else [c]
  | y => y ++ [c]
  end.
Proof.
  induction x as [|d x IH]; simpl; [reflexivity|].
  now destruct (is_space d).
Qed.

Lemma trimEnd_cons (c : N) (s : text) :
  trimEnd (c :: s) =
  if is_space c && negb (truthy (trimEnd s)) then [] else c :: trimEnd s.
Proof.
  unfold trimEnd. simpl rev at 2. rewrite trimStart_snoc.
  destruct (trimStart (rev s)) as [|y0 y]; simpl.
  - now destruct (is_space c).
  - rewrite rev_app_distr. simpl.
    destruct (rev y ++ [y0]) eqn:E; [now destruct (rev y)|].
    simpl. now rewrite andb_false_r.
Qed.

(** *** Collapsing white space *)

Lemma trimStart_replace (b : bool) (s : text) :
  trimStart (replace_spaces b s) = replace_spaces true (trimStart s).
Proof.
  revert b. induction s as [|c s IH]; intros b; simpl; [reflexivity|].
  destruct (is_space c) eqn:Hc.
  - destruct b; simpl; apply IH.
  - simpl. now rewrite Hc.
Qed.

Lemma words_trimStart (s : text) : words (trimStart s) = words s.
Proof.
  induction s as [|c s IH]; simpl; [reflexivity|].
  destruct (is_space c) eqn:Hc; [exact IH|]. simpl. now rewrite Hc.
Qed.

Lemma words_nonempty (s : text) : Forall (fun w => truthy w = true) (words s).
Proof.
  induction s as [|c s IH]; simpl; [constructor|].
  destruct (is_space c); [exact IH|].
  destruct (words s) as [|w ws]; [now repeat constructor|].
  apply Forall_cons_iff in IH as [Hw Hws].
  destruct (word_break s); repeat constructor; assumption.
Qed.

(** Starting inside a run of white space, or outside one. *)
Lemma replace_words (s : text) :
  trimEnd (replace_spaces true s) = single_line s /\
  trimEnd (replace_spaces false s) =
    if negb (word_break s) || negb (truthy (single_line s))
    then single_line s else space :: single_line s.
Proof.
  induction s as [|c s [IHt IHf]].
  - split; reflexivity.
  - unfold single_line in *. simpl replace_spaces. simpl words.
    simpl word_break. destruct (is_space c) eqn:Hc.
    + split; [exact IHt|]. simpl negb at 1. simpl orb.
      rewrite trimEnd_cons, IHt. simpl.
      now destruct (join_words (words s)).
    + assert (trimEnd (c :: replace_spaces false s)
              = c :: trimEnd (replace_spaces false s)) as E
          by (rewrite trimEnd_cons, Hc; reflexivity).
      simpl negb at 1. simpl orb. cbv iota. rewrite E, IHf.
      assert (c :: (if negb (word_break s)
                       || negb (truthy (join_words (words s)))
                    then join_words (words s)
                    else space :: join_words (words s))
              = join_words
                  match words s with
                  | [] => [[c]]
                  | w :: ws =>
                      if word_break s then [c] :: w :: ws else (c :: w) :: ws
                  end) as R.
      { pose proof (words_nonempty s) as Hne.
        destruct (words s) as [|w ws].
        - simpl. now rewrite orb_true_r.
        - apply Forall_cons_iff in Hne as [Hw _].
          destruct w as [|x w]; [discriminate|].
          destruct (word_break s); reflexivity. }
      split; exact R.
Qed.

(** The code's pipeline yields the words of the content, single-spaced. *)
Lemma rawContent_single_line (note : Note) :
  rawContent note = single_line (content note).
Proof.
  unfold rawContent, trim. rewrite trimStart_replace.
  rewrite (proj1 (replace_words _)). unfold single_line.
  now rewrite words_trimStart.
Qed.

Lemma preview_truncated (note : Note) :
  preview note = truncated (single_line (content note)).
Proof.
  unfold preview, truncated, substring0. rewrite rawContent_single_line.
  destruct (Nat.ltb_spec 60 (length (single_line (content note))));
    destruct (Nat.leb_spec (length (single_line (content note))) 60);
    try lia; reflexivity.
Qed.

(** *** Escaping *)

Lemma escapeHtml_truthy (s : text) : truthy (escapeHtml s) = truthy s.
Proof.
  destruct s as [|c s]; [reflexivity|]. simpl. unfold escape_char.
  repeat match goal with |- context [if ?b then _ else _] => destruct b end;
    reflexivity.
Qed.

(** Escaped text is shown as it was. *)
Lemma shown_escapeHtml (s : text) : shown 0 (escapeHtml s) = s.
Proof.
  induction s as [|c s IH]; [reflexivity|].
  change (escapeHtml (c :: s)) with (escape_char c ++ escapeHtml s).
  unfold escape_char.
  destruct (N.eqb_spec c 38) as [->|H38]; [simpl; now rewrite IH|].
  destruct (N.eqb_spec c 160) as [->|H160]; [simpl; now rewrite IH|].
  destruct (N.eqb_spec c 60) as [->|H60]; [simpl; now rewrite IH|].
  destruct (N.eqb_spec c 62) as [->|H62]; [simpl; now rewrite IH|].
  simpl. apply N.eqb_neq in H38. rewrite H38. now rewrite IH.
Qed.

Lemma or_else_spec (a b : text) : or_else a b = if truthy a then a else b.
Proof. reflexivity. Qed.

End ViewFacts.

Import ViewFacts.



(** ** Loading in the view with search *)

Module LoadFacts.

Import View View.SearchSidebar.


Lemma by_recency_perm (getTime : text -> Z) (l : list Note) :
  Permutation l (by_recency getTime l).
Proof. apply StableFacts.sort_perm. Qed.


End LoadFacts.

Import LoadFacts.


(** * Further properties of the store and its handlers *)

Module ComposeFacts.

Lemma filter_filter (A : Type) (f g : A -> bool) (l : list A) :
  filter f (filter g l) = filter (fun x => g x && f x) l.
Proof.
  induction l as [|x l IH]; simpl; [reflexivity|].
  destruct (g x); simpl; [destruct (f x); now rewrite IH | exact IH].
Qed.

Section StableMaps.
Variables (A K : Type) (ltb : K -> K -> bool) (key : A -> K).

Local Abbreviation place := (Stable.place ltb key).
Local Abbreviation sort := (Stable.sort_desc ltb key).

(** A change of the elements that keeps their keys goes through the
    sort. *)
Lemma sort_map (f : A -> A) (l : list A) :
  (forall x, key (f x) = key x) ->
  sort (List.map f l) = List.map f (sort l).
Proof.
  intros Hf.
  assert (Hplace : forall x m,
             place (f x) (List.map f m) = List.map f (place x m)).
  { intros x m. induction m as [|y m IH]; simpl; [reflexivity|].
    rewrite !Hf. destruct (ltb (key x) (key y)); simpl; [now rewrite IH|].
    reflexivity. }
  induction l as [|x l IH]; simpl; [reflexivity|].
  fold (sort (List.map f l)). rewrite IH. apply Hplace.
Qed.

Hypothesis asym : forall a b, ltb a b = true -> ltb b a = false.
Hypothesis negtrans :
  forall a b c, ltb a b = false -> ltb b c = false -> ltb a c = false.

Lemma place_filter (f : A -> bool) (x : A) (l : list A) :
  StronglySorted (Stable.desc ltb key) l ->
  filter f (place x l) = if f x then place x (filter f l) else filter f l.
Proof.
  induction 1 as [|y l Hl IH Hy]; simpl.
  - now destruct (f x).
  - destruct (ltb (key x) (key y)) eqn:E; simpl.
    + rewrite IH. destruct (f y), (f x); simpl; try reflexivity.
      now rewrite E.
    + destruct (f x) eqn:Fx; simpl; [|reflexivity].
      destruct (f y) eqn:Fy; simpl; [now rewrite E|].
      (* [x] stays in front of whatever is left of [l] *)
      f_equal.
      assert (Hall : Forall (fun z => ltb (key x) (key z) = false)
                            (filter f l)).
      { apply Forall_forall. intros z Hz. apply filter_In in Hz as [Hz _].
        rewrite Forall_forall in Hy. exact (negtrans _ _ _ E (Hy z Hz)). }
      destruct (filter f l) as [|z m]; [reflexivity|].
      apply Forall_cons_iff in Hall as [Hz _]. simpl. now rewrite Hz.
Qed.

(** Dropping elements goes through the sort: what is left keeps its
    order. *)
Lemma sort_filter (f : A -> bool) (l : list A) :
  sort (filter f l) = filter f (sort l).
Proof.
  induction l as [|x l IH]; simpl; [reflexivity|].
  fold (sort l).
  rewrite (place_filter f x (sort l)
             (StableFacts.sort_sorted _ _ ltb key asym negtrans l)).
  destruct (f x); simpl; now rewrite <- IH.
Qed.
End StableMaps.

End ComposeFacts.

Import ComposeFacts.

(** X1. Deleting is idempotent and deletions commute: to delete the same
    id twice leaves the store as deleting it once, and two deletions
    leave the same store in either order; every one of them answers
    success. *)
Theorem delete_idempotent_commutes (i j : Z) (db : Db) :
  snd (Service.deleteNote i (snd (Service.deleteNote i db)))
  = snd (Service.deleteNote i db) /\
  snd (Service.deleteNote i (snd (Service.deleteNote j db)))
  = snd (Service.deleteNote j (snd (Service.deleteNote i db))) /\
  fst (Service.deleteNote i (snd (Service.deleteNote i db)))
  = Service.Reply true.
Proof.
  unfold Service.deleteNote, Store.deleteNote. simpl.
  repeat split; f_equal; rewrite !filter_filter; apply filter_ext; intros n.
  - now destruct (has_id i n).
  - now destruct (has_id i n), (has_id j n).
Qed.

(** X2. The last update wins: two updates of one id in a row leave the
    store that the second alone would leave. *)
Theorem update_last_wins (i : Z) (T1 C1 now1 T2 C2 now2 : text) (db : Db) :
  snd (Service.updateNote i T2 C2 now2
         (snd (Service.updateNote i T1 C1 now1 db)))
  = snd (Service.updateNote i T2 C2 now2 db).
Proof.
  unfold Service.updateNote, Store.updateNote. simpl. f_equal.
  rewrite map_map. apply map_ext. intros n.
  destruct (has_id i n) eqn:E; [|now rewrite E].
  unfold has_id in *. simpl. now rewrite E.
Qed.

(** X3. Edits and deletions never reorder the list: after an update the
    list request returns the notes it returned before, in the same
    order, with the updated note in the place of the old one; after a
    deletion it returns the notes it returned before without the deleted
    one, in the same order. *)
Theorem list_order_stable (i : Z) (T C now : text) (db : Db) :
  getAllNotes (snd (Service.updateNote i T C now db))
  = List.map (fun n => if has_id i n then set_note T C now n else n)
             (getAllNotes db) /\
  getAllNotes (snd (Service.deleteNote i db))
  = filter (fun n => negb (has_id i n)) (getAllNotes db).
Proof.
  split.
  - unfold getAllNotes, order_by_desc, Service.updateNote, Store.updateNote.
    simpl. apply sort_map. intros n. now destruct (has_id i n).
  - unfold getAllNotes, order_by_desc, Service.deleteNote, Store.deleteNote.
    simpl. apply sort_filter; [exact text_asym | exact text_negtrans].
Qed.

Module IssueFacts.

Import Service.

Lemma issues_cases (now : text) (r : Request) (db : Db) :
  wf db ->
  (issues now r db = [] /\ seq (serve now r db) = seq db) \/
  (issues now r db = [(seq db + 1)%Z] /\
   seq (serve now r db) = (seq db + 1)%Z).
Proof.
  intros Hwf. destruct r as [|t c|i t c|i| |q]; simpl; auto.
  unfold addNote. rewrite (insertNote_wf t c now db Hwf).
  destruct (seq db =? MAX_ROWID)%Z; simpl; auto.
Qed.

Lemma issued_consecutive (h : history) (db : Db) :
  wf db ->
  issued h db
  = List.map (fun k => (seq db + Z.of_nat k)%Z)
             (List.seq 1 (length (issued h db))) /\
  seq (run h db) = (seq db + Z.of_nat (length (issued h db)))%Z.
Proof.
  revert db. induction h as [|[now r] h IH]; intros db Hwf.
  - simpl. split; [reflexivity|lia].
  - simpl issued. simpl run.
    destruct (IH _ (serve_wf now r db Hwf)) as [IH1 IH2].
    destruct (issues_cases now r db Hwf) as [[E S]|[E S]];
      rewrite E; rewrite S in IH1, IH2.
    + simpl app. split; assumption.
    + simpl app. simpl length. split.
      * rewrite IH1 at 1. simpl List.seq. simpl List.map. f_equal.
        rewrite <- (seq_shift _ 1), map_map.
        apply map_ext. intros k. lia.
      * rewrite IH2. lia.
Qed.

End IssueFacts.

(** X4. Ids count the creations: along any history from the empty store
    the k-th note created gets the id k, whatever has been deleted in
    between, and the sequence counter is the number of notes created so
    far. *)
Theorem ids_count_creations (h : Service.history) :
  let ids := Service.issued h Store.empty in
  ids = List.map Z.of_nat (List.seq 1 (length ids)) /\
  seq (Service.run h Store.empty) = Z.of_nat (length ids).
Proof.
  simpl.
  destruct (IssueFacts.issued_consecutive h Store.empty wf_empty) as [H1 H2].
  split; [|exact H2].
  rewrite H1 at 1. apply map_ext. intros k. reflexivity.
Qed.

(** X5. Creating a note and deleting it again restores the rows of the
    table but not the sequence counter: on a well-formed store with room
    in the rowid space the new note gets the id [seq + 1], after its
    deletion the table holds the rows it held before, and the counter
    stays at the id that was handed out. *)
Theorem create_then_delete (t c now : text) (db : Db) :
  wf db ->
  (seq db < MAX_ROWID)%Z ->
  exists (n : Note) (db1 : Db),
    Service.addNote t c now db = (Service.Reply (Some n), db1) /\
    id n = (seq db + 1)%Z /\
    rows (snd (Service.deleteNote (id n) db1)) = rows db /\
    seq (snd (Service.deleteNote (id n) db1)) = (seq db + 1)%Z /\
    getAllNotes (snd (Service.deleteNote (id n) db1)) = getAllNotes db.
Proof.
  intros Hwf Hroom. unfold Service.addNote.
  rewrite (insertNote_wf t c now db Hwf).
  destruct (Z.eqb_spec (seq db) MAX_ROWID) as [E|_]; [lia|].
  eexists. eexists. split; [reflexivity|]. simpl. split; [reflexivity|].
  assert (R : filter (fun n => negb (has_id (seq db + 1) n))
                     (rows db ++ [mkNote (seq db + 1) t c now now])
              = rows db).
  { rewrite filter_app. simpl. unfold has_id at 2. simpl.
    rewrite Z.eqb_refl. simpl. rewrite app_nil_r.
    apply filter_all. intros m Hm. apply negb_true_iff, has_id_false.
    destruct Hwf as (_ & Hb & _). rewrite Forall_forall in Hb.
    specialize (Hb (id m) (in_map id _ _ Hm)). lia. }
  split; [exact R|]. split; [reflexivity|].
  unfold getAllNotes. simpl. now rewrite R.
Qed.

Lemma create_then_delete_witness :
  let db := Service.run sample_history Store.empty in
  rows db <> [] /\
  exists (n : Note) (db1 : Db),
    Service.addNote (txt "D") [] (txt "2024-05-02 08:00:01") db
    = (Service.Reply (Some n), db1) /\
    id n = (seq db + 1)%Z /\
    rows (snd (Service.deleteNote (id n) db1)) = rows db /\
    seq (snd (Service.deleteNote (id n) db1)) = (seq db + 1)%Z /\
    getAllNotes (snd (Service.deleteNote (id n) db1)) = getAllNotes db.
Proof.
  intros db. split; [vm_compute; discriminate|].
  apply create_then_delete.
  - apply run_wf, wf_empty.
  - vm_compute. reflexivity.
Defined.

(** ** [LIKE], case and wildcards *)

Module FoldFacts.

Import Like.

Lemma lower_keeps (k c c' : N) :
  (k = 0 \/ k = percent \/ k = underscore)%N ->
  lower c = lower c' -> (c =? k)%N = (c' =? k)%N.
Proof.
  unfold lower, percent, underscore. intros Hk H.
  destruct (N.leb_spec 65 c), (N.leb_spec c 90),
           (N.leb_spec 65 c'), (N.leb_spec c' 90); simpl in H;
    destruct (N.eqb_spec c k), (N.eqb_spec c' k); try reflexivity; lia.
Qed.

Lemma cstr_fold (s s' : text) :
  List.map lower s = List.map lower s' ->
  List.map lower (cstr s) = List.map lower (cstr s').
Proof.
  revert s'. induction s as [|c s IH]; intros [|c' s'] H;
    try discriminate; [reflexivity|].
  simpl in H. injection H as Hc Hs. simpl.
  rewrite (lower_keeps 0 c c') by auto.
  destruct (c' =? 0)%N; [reflexivity|]. simpl. rewrite Hc. f_equal. auto.
Qed.

Lemma matches_fold (p p' s s' : text) :
  List.map lower p = List.map lower p' ->
  List.map lower s = List.map lower s' ->
  matches p s = matches p' s'.
Proof.
  revert p' s s'. induction p as [|c p IH]; intros [|c' p'] s s' Hp Hs;
    try discriminate.
  - destruct s, s'; try discriminate; reflexivity.
  - simpl in Hp. injection Hp as Hc Hp.
    destruct (N.eqb_spec c percent) as [->|Hcp].
    + assert (c' = percent) as ->.
      { apply N.eqb_eq. rewrite <- (lower_keeps percent percent c'); auto. }
      revert s' Hs. induction s as [|d s IHs]; intros [|d' s'] Hs;
        try discriminate.
      * rewrite !LikeFacts.matches_percent. f_equal. now apply IH.
      * simpl in Hs. injection Hs as Hd Hs.
        rewrite (LikeFacts.matches_percent p (d :: s)),
                (LikeFacts.matches_percent p' (d' :: s')).
        f_equal; [apply IH; simpl; congruence | now apply IHs].
    + assert (Hcp' : (c' =? percent)%N = false).
      { rewrite <- (lower_keeps percent c c') by auto.
        now apply N.eqb_neq. }
      apply N.eqb_neq in Hcp. simpl. rewrite Hcp, Hcp'.
      rewrite <- (lower_keeps underscore c c') by auto.
      destruct (c =? underscore)%N.
      * destruct s as [|d s], s' as [|d' s']; try discriminate;
          [reflexivity|].
        simpl in Hs. injection Hs as _ Hs. now apply IH.
      * destruct s as [|d s], s' as [|d' s']; try discriminate;
          [reflexivity|].
        simpl in Hs. injection Hs as Hd Hs.
        rewrite Hc, Hd. f_equal. now apply IH.
Qed.

Lemma like_fold (s s' p p' : text) :
  List.map lower s = List.map lower s' ->
  List.map lower p = List.map lower p' ->
  like s p = like s' p'.
Proof.
  intros Hs Hp. unfold like. apply matches_fold; now apply cstr_fold.
Qed.

(** *** Queries of underscores *)





End FoldFacts.

(** X6. The search ignores the case of ASCII letters on both sides, for
    every query, wildcards included: two queries that differ only in the
    case of ASCII letters get the same answer, and two texts that differ
    only so are matched by the same queries. *)
Theorem search_ignores_ascii_case (q q' : text) :
  List.map Like.lower q = List.map Like.lower q' ->
  (forall db : Db, Service.searchNotes q db = Service.searchNotes q' db) /\
  (forall s s' : text,
     List.map Like.lower s = List.map Like.lower s' ->
     Like.like s ([Like.percent] ++ q ++ [Like.percent])
     = Like.like s' ([Like.percent] ++ q' ++ [Like.percent])).
Proof.
  intros Hq.
  assert (Hw : List.map Like.lower ([Like.percent] ++ q ++ [Like.percent])
               = List.map Like.lower ([Like.percent] ++ q' ++ [Like.percent]))
    by (rewrite !map_app, Hq; reflexivity).
  split.
  - intros db. unfold Service.searchNotes, searchNotesStmt. do 3 f_equal.
    apply filter_ext. intros n.
    now rewrite !(FoldFacts.like_fold _ _ _ _ eq_refl Hw).
  - intros s s' Hs. now apply FoldFacts.like_fold.
Qed.

Lemma search_ignores_ascii_case_witness :
  Service.searchNotes (txt "GROCER") sample_db
  = Service.searchNotes (txt "grocer") sample_db /\
  Like.like (txt "Grocery List")
            ([Like.percent] ++ txt "GROCER" ++ [Like.percent])
  = Like.like (txt "GROCERY LIST")
              ([Like.percent] ++ txt "grocer" ++ [Like.percent]).
Proof.
  destruct (search_ignores_ascii_case (txt "GROCER") (txt "grocer") eq_refl)
    as [H1 H2].
  split; [apply H1 | apply H2; reflexivity].
Defined.


(** * Further properties of the views *)

Module RenderFacts.

Import View Spec.

Lemma escape_char_safe (c : N) :
  Forall (fun d => d <> 60 /\ d <> 62 /\ d <> 160)%N (escape_char c).
Proof.
  unfold escape_char.
  destruct (N.eqb_spec c 38); [repeat constructor; discriminate|].
  destruct (N.eqb_spec c 160); [repeat constructor; discriminate|].
  destruct (N.eqb_spec c 60); [repeat constructor; discriminate|].
  destruct (N.eqb_spec c 62); [repeat constructor; discriminate|].
  repeat constructor; assumption.
Qed.

Lemma trimStart_fixed (t : text) :
  (forall c, hd_error t = Some c -> is_space c = false) -> trimStart t = t.
Proof.
  destruct t as [|c t]; [reflexivity|]. intros H. simpl.
  now rewrite (H c eq_refl).
Qed.

Lemma trimEnd_fixed (t : text) :
  (forall c, hd_error (rev t) = Some c -> is_space c = false) ->
  trimEnd t = t.
Proof.
  intros H. unfold trimEnd. rewrite (trimStart_fixed _ H).
  apply rev_involutive.
Qed.

Lemma trim_idempotent (s : text) : trim (trim s) = trim s.
Proof.
  destruct (trim_trimmed s) as (_ & Hhd & Hlast).
  unfold trim at 1. rewrite (trimStart_fixed _ Hhd).
  now apply trimEnd_fixed.
Qed.

(** The characters of a word are not white space. *)
Lemma words_chars (s : text) :
  Forall (Forall (fun c => is_space c = false)) (words s).
Proof.
  induction s as [|c s IH]; simpl; [constructor|].
  destruct (is_space c) eqn:Hc; [exact IH|].
  destruct (words s) as [|w ws]; [now repeat constructor|].
  apply Forall_cons_iff in IH as [Hw Hws].
  destruct (word_break s); repeat constructor; assumption.
Qed.

Lemma single_line_spaces (s : text) :
  Forall (fun c => is_space c = true -> c = space) (single_line s).
Proof.
  unfold single_line. pose proof (words_chars s) as H.
  assert (Hword : forall w, Forall (fun c => is_space c = false) w ->
                    Forall (fun c => is_space c = true -> c = space) w).
  { intros w Hw. eapply Forall_impl; [|exact Hw]. simpl. congruence. }
  destruct (words s) as [|w ws]; [constructor|].
  apply Forall_cons_iff in H as [Hw Hws]. simpl.
  apply Forall_app. split; [now apply Hword|].
  induction Hws as [|v vs Hv _ IH]; simpl; [constructor|].
  constructor; [reflexivity|]. apply Forall_app. split; [now apply Hword|].
  exact IH.
Qed.

End RenderFacts.

Import RenderFacts.

(** X8. Escaping: the markup [escapeHtml] returns holds no [<], no [>]
    and no no-break space, it is empty only for the empty string,
    it is shown as the text that was escaped, and so two different
    texts never get the same markup. *)
Theorem escapeHtml_safe (s : text) :
  Forall (fun d => d <> 60 /\ d <> 62 /\ d <> 160)%N (View.escapeHtml s) /\
  Spec.shown 0 (View.escapeHtml s) = s /\
  truthy (View.escapeHtml s) = truthy s /\
  (forall s' : text, View.escapeHtml s = View.escapeHtml s' -> s = s').
Proof.
  split; [|split; [|split]].
  - unfold View.escapeHtml. induction s as [|c s IH]; simpl; [constructor|].
    apply Forall_app. split; [apply escape_char_safe | exact IH].
  - apply shown_escapeHtml.
  - apply escapeHtml_truthy.
  - intros s' H. rewrite <- (shown_escapeHtml s), <- (shown_escapeHtml s').
    now rewrite H.
Qed.

(** X9. The preview of a sidebar row is one short line: it has at most
    63 characters, its only white space is the plain space, and it does
    not begin with white space. *)
Theorem sidebar_preview_one_line (note : Note) :
  length (View.preview note) <= 63 /\
  Forall (fun c => View.is_space c = true -> c = View.space)
         (View.preview note) /\
  (forall c, hd_error (View.preview note) = Some c ->
             View.is_space c = false).
Proof.
  rewrite preview_truncated. unfold Spec.truncated.
  pose proof (single_line_spaces (content note)) as Hs.
  assert (Hhd : forall c, hd_error (Spec.single_line (content note)) = Some c
                          -> View.is_space c = false).
  { rewrite <- rawContent_single_line. unfold View.rawContent.
    destruct (trim_trimmed (View.replace_spaces false (content note)))
      as (_ & H & _). exact H. }
  destruct (Nat.leb_spec (length (Spec.single_line (content note))) 60)
    as [Hle|Hgt].
  - split; [lia|]. split; assumption.
  - split; [|split].
    + rewrite length_app, length_firstn.
      change (length (txt "...")) with 3. lia.
    + apply Forall_app. split.
      * apply Forall_forall. intros c Hc. rewrite Forall_forall in Hs.
        apply Hs.
        rewrite <- (firstn_skipn 60 (Spec.single_line (content note))).
        apply in_or_app. now left.
      * repeat constructor; discriminate.
    + intros c Hc. apply Hhd.
      destruct (Spec.single_line (content note)); [simpl in Hgt; lia|].
      exact Hc.
Qed.

(** ** The card grid *)

Module CardFacts.

Import CardGrid.

Lemma insertNote_rows (t c now : text) (db : Db) :
  (largest_rowid (rows db) < MAX_ROWID)%Z -> (seq db < MAX_ROWID)%Z ->
  exists n : Note,
    insertNote t c now db
    = Some ([n], {| rows := rows db ++ [n]; seq := id n |}) /\
    title n = t /\ content n = c /\ created_at n = now /\ updated_at n = now /\
    (largest_rowid (rows db) < id n)%Z.
Proof.
  intros H1 H2. unfold insertNote. rewrite (new_rowid_some db H1 H2).
  exists (mkNote (Z.max (largest_rowid (rows db) + 1) (seq db + 1))
                 t c now now).
  split; [reflexivity|]. simpl. repeat split. lia.
Qed.

Lemma loadNotes_spec (p : Page) (db : Db) :
  loadNotes p db
  = ({| notes := getAllNotes db; noteInput := noteInput p;
        noteList := renderNotes (getAllNotes db);
        statsDiv := stats_line (Store.getStats db);
        modalHidden := modalHidden p; modalHeading := modalHeading p;
        modalTitleInput := modalTitleInput p;
        modalContentTextarea := modalContentTextarea p;
        currentEditId := currentEditId p |}, db).
Proof. reflexivity. Qed.

Lemma preview_truthy (n : Note) : truthy (preview n) = truthy (content n).
Proof.
  unfold preview. destruct (Nat.ltb_spec 100 (length (content n))) as [H|H];
    [|reflexivity].
  destruct (content n) as [|c l]; [simpl in H; lia|]. reflexivity.
Qed.

Lemma saved_title_clean (p : Page) :
  truthy (saved_title p) = true /\ View.trim (saved_title p) = saved_title p.
Proof.
  unfold saved_title, or_else.
  destruct (truthy (View.trim (modalTitleInput p))) eqn:E.
  - split; [exact E | apply trim_idempotent].
  - split; reflexivity.
Qed.

Lemma wf_list_ids (db : Db) :
  wf db -> Forall (fun n => 1 <= id n)%Z (getAllNotes db).
Proof.
  intros (_ & Hb & _).
  eapply Permutation_Forall; [apply order_by_desc_perm|].
  apply Forall_forall. intros n Hn. rewrite Forall_forall in Hb.
  specialize (Hb (id n) (in_map id _ _ Hn)). lia.
Qed.

Lemma steady_load (p : Page) (db : Db) :
  wf db ->
  (modalHidden p = false ->
   exists i, currentEditId p = Some i /\ (1 <= i)%Z) ->
  steady (fst (loadNotes p db)) (snd (loadNotes p db)).
Proof.
  intros Hwf Hm. rewrite loadNotes_spec. simpl.
  repeat split; try apply Hwf; [now apply wf_list_ids | exact Hm].
Qed.

Lemma saveNote_cases (now : text) (p : Page) (db : Db) :
  exists r : Service.Request,
    saveNote now p db = (p, Service.serve now r db) \/
    saveNote now p db = loadNotes (closeModal p) (Service.serve now r db).
Proof.
  unfold saveNote.
  destruct (currentEditId p) as [i|].
  - destruct (Js.truthy_number (Some i)).
    + exists (Service.UpdateNote i (saved_title p) (modalContentTextarea p)).
      right. reflexivity.
    + exists (Service.AddNote (saved_title p) (modalContentTextarea p)).
      simpl. fold (saved_title p).
      destruct (Service.addNote (saved_title p) (modalContentTextarea p)
                                now db) as [[a|] d]; auto.
  - exists (Service.AddNote (saved_title p) (modalContentTextarea p)).
    simpl. fold (saved_title p).
    destruct (Service.addNote (saved_title p) (modalContentTextarea p)
                              now db) as [[a|] d]; auto.
Qed.

Lemma steady_dispatch (now : text) (e : Event) (p : Page) (db : Db) :
  steady p db ->
  steady (fst (dispatch now e p db)) (snd (dispatch now e p db)).
Proof.
  intros (Hwf & Hids & Hm).
  assert (Hclosed : forall d, wf d ->
            steady (fst (loadNotes (closeModal p) d))
                   (snd (loadNotes (closeModal p) d))).
  { intros d Hd. apply steady_load; [exact Hd|]. simpl. discriminate. }
  destruct e as [s| |i|i|s|s| | | | ]; simpl.
  - repeat split; try apply Hwf; assumption.
  - unfold addNote. destruct (negb (truthy (View.trim (noteInput p))));
      [repeat split; try apply Hwf; assumption|].
    pose proof (serve_wf now (Service.AddNote (View.trim (noteInput p)) [])
                         db Hwf) as Hwf'. simpl in Hwf'.
    destruct (Service.addNote (View.trim (noteInput p)) [] now db)
      as [[a|] d]; simpl in Hwf'.
    + now apply steady_load.
    + repeat split; try apply Hwf'; assumption.
  - unfold clickCard. destruct (find (has_id i) (notes p)) as [n|] eqn:F;
      [|repeat split; try apply Hwf; assumption].
    apply find_some in F as [Hn _]. rewrite Forall_forall in Hids.
    repeat split; try apply Hwf; [now apply Forall_forall|].
    intros _. exists (id n). split; [reflexivity | now apply Hids].
  - unfold clickDelete.
    pose proof (serve_wf now (Service.DeleteNote i) db Hwf) as Hwf'.
    simpl in Hwf' |- *. now apply steady_load.
  - repeat split; try apply Hwf; assumption.
  - repeat split; try apply Hwf; assumption.
  - destruct (saveNote_cases now p db) as [r [E|E]]; rewrite E.
    + simpl. repeat split; try apply (serve_wf now r db Hwf); assumption.
    + apply Hclosed, serve_wf, Hwf.
  - repeat split; try apply Hwf; [assumption | simpl; discriminate].
  - destruct (modalHidden p) eqn:Hh; simpl.
    + repeat split; try apply Hwf; [assumption | congruence].
    + repeat split; try apply Hwf; [assumption | simpl; discriminate].
  - destruct (modalHidden p) eqn:Hh.
    + simpl. repeat split; try apply Hwf; [assumption | congruence].
    + destruct (saveNote_cases now p db) as [r [E|E]]; rewrite E.
      * simpl. repeat split; try apply (serve_wf now r db Hwf);
          [assumption | intros _; now apply Hm].
      * apply Hclosed, serve_wf, Hwf.
Qed.

Lemma steady_run (es : list (text * Event)) (p : Page) (db : Db) :
  steady p db -> steady (fst (run es p db)) (snd (run es p db)).
Proof.
  revert p db. induction es as [|[now e] es IH]; intros p db H;
    [exact H|].
  simpl. pose proof (steady_dispatch now e p db H) as H'.
  destruct (dispatch now e p db) as [p1 db1]. now apply IH.
Qed.

End CardFacts.

Import CardFacts.

(** X10. The cards of the grid: without notes the grid shows its empty
    state; otherwise it shows one card per note, in the order of the
    list, each with the title as stored (not trimmed, no placeholder) and
    with the content as stored when it has at most 100 characters, its
    first 100 characters followed by "..." when it has more, and the
    literal "(Empty note)" when it is empty. *)
Theorem card_rendering (n : Note) (rest : list Note) :
  CardGrid.renderNotes [] = CardGrid.EmptyState /\
  exists cards : list CardGrid.Card,
    CardGrid.renderNotes (n :: rest) = CardGrid.Cards cards /\
    List.map CardGrid.card_id cards = List.map id (n :: rest) /\
    List.map (fun c => Spec.shown 0 (CardGrid.card_title c)) cards
    = List.map title (n :: rest) /\
    List.map (fun c => Spec.shown 0 (CardGrid.card_content c)) cards
    = List.map
        (fun m =>
           if truthy (content m) then
             if (length (content m) <=? 100)%nat then content m
             else firstn 100 (content m) ++ txt "..."
           else txt "(Empty note)")
        (n :: rest).
Proof.
  split; [reflexivity|].
  exists (List.map CardGrid.renderCard (n :: rest)).
  split; [reflexivity|]. rewrite !map_map.
  split; [reflexivity|]. split.
  - apply map_ext. intros m. apply shown_escapeHtml.
  - apply map_ext. intros m. simpl.
    rewrite or_else_spec, escapeHtml_truthy, preview_truthy.
    destruct (truthy (content m)); [|reflexivity].
    rewrite shown_escapeHtml. unfold CardGrid.preview, View.substring0.
    destruct (Nat.ltb_spec 100 (length (content m)));
      destruct (Nat.leb_spec (length (content m)) 100);
      try lia; reflexivity.
Qed.

(** X11. The quick add: a field that holds only white space sends no
    request and changes nothing; otherwise, with room in the rowid space,
    one note is created whose title is the field without its leading and
    trailing white space and whose content is empty, the field is
    emptied, and the grid and the stats line are loaded again and show
    the new note and the new count. *)
Theorem quick_add (now : text) (p : CardGrid.Page) (db : Db) :
  let t := View.trim (CardGrid.noteInput p) in
  let p' := fst (CardGrid.addNote now p db) in
  let db' := snd (CardGrid.addNote now p db) in
  (truthy t = false -> CardGrid.addNote now p db = (p, db)) /\
  (truthy t = true ->
   (largest_rowid (rows db) < MAX_ROWID)%Z -> (seq db < MAX_ROWID)%Z ->
   exists n : Note,
     rows db' = rows db ++ [n] /\
     getNoteById (id n) db' = [n] /\
     title n = t /\ Spec.trimmed (CardGrid.noteInput p) (title n) /\
     content n = [] /\ created_at n = now /\ updated_at n = now /\
     CardGrid.noteInput p' = [] /\
     CardGrid.notes p' = getAllNotes db' /\ In n (CardGrid.notes p') /\
     CardGrid.noteList p' = CardGrid.renderNotes (CardGrid.notes p') /\
     CardGrid.statsDiv p'
     = CardGrid.stats_line (Store.getStats db + 1)%Z).
Proof.
  intros t p' db'. split.
  - intros Ht. unfold CardGrid.addNote. fold t. now rewrite Ht.
  - intros Ht H1 H2.
    destruct (insertNote_rows t [] now db H1 H2)
      as (n & Hi & Hti & Hc & Hcr & Hup & Hfresh).
    assert (E : CardGrid.addNote now p db
                = CardGrid.loadNotes
                    (CardGrid.setNoteInput [] p)
                    {| rows := rows db ++ [n]; seq := id n |}).
    { unfold CardGrid.addNote. fold t. rewrite Ht. simpl.
      unfold Service.addNote. rewrite Hi. reflexivity. }
    unfold p', db'. rewrite E, loadNotes_spec. simpl.
    exists n. split; [reflexivity|]. split.
    { unfold getNoteById. simpl. rewrite filter_app. simpl.
      rewrite getNoteById_fresh by exact Hfresh.
      unfold has_id. now rewrite Z.eqb_refl. }
    split; [exact Hti|]. split; [rewrite Hti; apply trim_trimmed|].
    split; [exact Hc|]. split; [exact Hcr|]. split; [exact Hup|].
    split; [reflexivity|]. split; [reflexivity|]. split.
    { apply (Permutation_in _ (order_by_desc_perm created_at _)).
      apply in_or_app. right. now left. }
    split; [reflexivity|].
    unfold Store.getStats. simpl. rewrite length_app. simpl.
    f_equal. lia.
Qed.

Lemma quick_add_witness :
  let now := txt "2024-05-04 09:00:00" in
  (CardGrid.addNote now (CardGrid.setNoteInput (txt "   ") sample_grid)
                    sample_db
   = (CardGrid.setNoteInput (txt "   ") sample_grid, sample_db)) /\
  exists n : Note,
    rows (snd (CardGrid.addNote now sample_grid sample_db))
    = rows sample_db ++ [n] /\
    title n = txt "milk" /\ content n = [] /\
    CardGrid.noteInput (fst (CardGrid.addNote now sample_grid sample_db)) = [] /\
    In n (CardGrid.notes (fst (CardGrid.addNote now sample_grid sample_db))) /\
    CardGrid.statsDiv (fst (CardGrid.addNote now sample_grid sample_db))
    = txt "4 notes".
Proof.
  intros now. split.
  - apply (proj1 (quick_add now (CardGrid.setNoteInput (txt "   ") sample_grid)
                            sample_db)). reflexivity.
  - destruct (proj2 (quick_add now sample_grid sample_db)) as (n & H);
      try reflexivity.
    destruct H as (H1 & _ & H3 & _ & H5 & _ & _ & H8 & _ & H10 & _ & H12).
    exists n. repeat split; assumption.
Defined.

(** X12. Saving from the modal while it edits a note of the store: the
    note gets as title the title field without its leading and trailing
    white space, or "Untitled" when nothing is left of it, so never an
    empty title, and as content the textarea as it is; its id and
    [created_at] stay, the number of notes stays, the modal is closed and
    the grid is loaded again. *)
Theorem modal_save_edits (now : text) (p : CardGrid.Page) (db : Db)
  (m : Note) :
  NoDup (List.map id (rows db)) ->
  In m (rows db) ->
  CardGrid.currentEditId p = Some (id m) ->
  id m <> 0%Z ->
  let t := or_else (View.trim (CardGrid.modalTitleInput p)) (txt "Untitled") in
  let c := CardGrid.modalContentTextarea p in
  let p' := fst (CardGrid.saveNote now p db) in
  let db' := snd (CardGrid.saveNote now p db) in
  truthy t = true /\ View.trim t = t /\
  get (getNoteById (id m) db') = Some (set_note t c now m) /\
  Store.getStats db' = Store.getStats db /\
  CardGrid.modalHidden p' = true /\ CardGrid.currentEditId p' = None /\
  CardGrid.notes p' = getAllNotes db' /\
  In (set_note t c now m) (CardGrid.notes p').
Proof.
  intros Hnd Hin He Hz t c p' db'.
  destruct (saved_title_clean p) as [Ht1 Ht2]. fold t in Ht1, Ht2.
  destruct (updateNote_frame m t c now db Hnd Hin)
    as (H1 & H2 & _ & _ & _ & H6 & _).
  assert (E : CardGrid.saveNote now p db
              = CardGrid.loadNotes (CardGrid.closeModal p)
                  (snd (Service.updateNote (id m) t c now db))).
  { unfold CardGrid.saveNote. rewrite He. fold t. fold c.
    assert (Js.truthy_number (Some (id m)) = true) as ->
        by (simpl; now apply negb_true_iff, Z.eqb_neq).
    reflexivity. }
  unfold p', db'. rewrite E, loadNotes_spec. simpl.
  repeat split; try assumption.
  apply (Permutation_in _ (order_by_desc_perm created_at _)).
  unfold getNoteById in H2.
  destruct (filter (has_id (id m))
              (rows (snd (Service.updateNote (id m) t c now db))))
    as [|x l] eqn:F; [discriminate|].
  injection H2 as ->.
  assert (In (set_note t c now m)
             (filter (has_id (id m))
                (rows (snd (Service.updateNote (id m) t c now db))))) as Hf
      by (rewrite F; now left).
  now apply filter_In in Hf as [Hf _].
Qed.

Lemma modal_save_edits_witness :
  let now := txt "2024-05-04 09:00:00" in
  let m := mkNote 2 (txt "Todo") (txt "buy GROCERIES")
             (txt "2024-05-01 10:00:05") (txt "2024-05-02 08:30:00") in
  let p := CardGrid.setModalFields (txt "   ") (txt "x")
             (CardGrid.openModal (Some m) sample_grid) in
  get (getNoteById 2 (snd (CardGrid.saveNote now p sample_db)))
  = Some (set_note (txt "Untitled") (txt "x") now m) /\
  CardGrid.modalHidden (fst (CardGrid.saveNote now p sample_db)) = true.
Proof.
  intros now m p.
  destruct (modal_save_edits now p sample_db m sample_db_ids)
    as (_ & _ & H3 & _ & H5 & _); try reflexivity.
  - simpl. auto.
  - discriminate.
  - split; [exact H3 | exact H5].
Defined.

(** X13. The modal never creates a note: along any run of events from a
    window whose modal is closed and whose list is empty, on a
    well-formed store, an open modal always edits a note (its
    [currentEditId] is a positive id), and a save from it leaves the
    number of notes and the sequence counter as they were. *)
Theorem modal_never_creates (es : list (text * CardGrid.Event))
  (p0 : CardGrid.Page) (db0 : Db) :
  wf db0 ->
  CardGrid.modalHidden p0 = true ->
  CardGrid.notes p0 = [] ->
  let p := fst (CardGrid.run es p0 db0) in
  let db := snd (CardGrid.run es p0 db0) in
  CardGrid.modalHidden p = false ->
  Js.truthy_number (CardGrid.currentEditId p) = true /\
  forall now : text,
    Store.getStats (snd (CardGrid.saveNote now p db)) = Store.getStats db /\
    seq (snd (CardGrid.saveNote now p db)) = seq db.
Proof.
  intros Hwf Hh Hn p db Hopen.
  assert (Hs : steady p0 db0).
  { repeat split; try apply Hwf; [rewrite Hn; constructor | congruence]. }
  apply (steady_run es) in Hs. fold p in Hs. fold db in Hs.
  destruct Hs as (_ & _ & Hm). destruct (Hm Hopen) as (i & Hi & Hpos).
  assert (Ht : Js.truthy_number (Some i) = true)
    by (simpl; apply negb_true_iff, Z.eqb_neq; lia).
  rewrite Hi. split; [exact Ht|]. intros now.
  unfold CardGrid.saveNote. rewrite Hi, Ht.
  unfold Service.updateNote, Store.updateNote. simpl.
  unfold Store.getStats. simpl. now rewrite length_map.
Qed.

Lemma modal_never_creates_witness :
  let t := txt "2024-05-04 09:00:00" in
  let es := [(t, CardGrid.SubmitNew); (t, CardGrid.ClickCard 1)] in
  let p := fst (CardGrid.run es sample_grid Store.empty) in
  let db := snd (CardGrid.run es sample_grid Store.empty) in
  CardGrid.modalHidden p = false /\
  Js.truthy_number (CardGrid.currentEditId p) = true /\
  Store.getStats (snd (CardGrid.saveNote t p db)) = Store.getStats db.
Proof.
  intros t es p db.
  assert (Hopen : CardGrid.modalHidden p = false) by reflexivity.
  split; [exact Hopen|].
  destruct (modal_never_creates es sample_grid Store.empty wf_empty
              eq_refl eq_refl Hopen) as [H1 H2].
  split; [exact H1 | exact (proj1 (H2 t))].
Defined.

(** ** The sidebar view without search *)

Module SidebarFacts.

Import SidebarPage.

Lemma same_spec (a b : text) : Js.same a b = true <-> a = b.
Proof.
  revert b. induction a as [|x a IH]; intros [|y b]; simpl;
    try (split; [discriminate | discriminate]); [tauto|].
  rewrite andb_true_iff, N.eqb_eq, IH. split.
  - now intros [-> ->].
  - now intros [= -> ->].
Qed.

Lemma same_refl (a : text) : Js.same a a = true.
Proof. now apply same_spec. Qed.

Lemma truthy_number_spec (a : Z) :
  Js.truthy_number (Some a) = true <-> a <> 0%Z.
Proof. simpl. rewrite negb_true_iff. apply Z.eqb_neq. Qed.

(** With unique ids, [find] by the id of a member returns that member. *)
Lemma find_unique (l : list Note) (x : Note) :
  NoDup (List.map id l) -> In x l -> find (has_id (id x)) l = Some x.
Proof.
  induction l as [|y l IH]; simpl; [tauto|].
  intros Hnd Hin. apply NoDup_cons_iff in Hnd as [Hy Hnd].
  destruct Hin as [->|Hin].
  - unfold has_id. now rewrite Z.eqb_refl.
  - destruct (has_id (id x) y) eqn:E; [|now apply IH].
    apply has_id_true in E. exfalso. apply Hy. rewrite E. now apply in_map.
Qed.

Lemma find_absent (i : Z) (l : list Note) :
  ~ In i (List.map id l) -> find (has_id i) l = None.
Proof.
  intros H. destruct (find (has_id i) l) as [x|] eqn:F; [|reflexivity].
  apply find_some in F as [Hx E]. apply has_id_true in E.
  exfalso. apply H. rewrite <- E. now apply in_map.
Qed.

Lemma find_present (i : Z) (l : list Note) :
  In i (List.map id l) -> exists x, find (has_id i) l = Some x /\ id x = i.
Proof.
  intros H. apply in_map_iff in H as (y & Hy & Hin).
  destruct (find (has_id i) l) as [x|] eqn:F.
  - exists x. split; [reflexivity|].
    apply find_some in F as [_ E]. now apply has_id_true.
  - exfalso. apply (find_none _ _ F) in Hin.
    apply has_id_false in Hin. contradiction.
Qed.

Section Load.
Variable getTime : text -> Z.

Local Abbreviation recent := (View.SearchSidebar.by_recency getTime).

(** The loaded list is sorted by the parsed [updated_at], latest first. *)
Lemma by_recency_sorted (l : list Note) :
  StronglySorted
    (fun a b => (getTime (updated_at b ++ txt "Z")
                 <= getTime (updated_at a ++ txt "Z"))%Z)
    (recent l).
Proof.
  eapply sorted_weaken.
  2: apply (StableFacts.sort_sorted
              _ _ Z.ltb (fun n => getTime (updated_at n ++ txt "Z"))).
  - intros a b H. unfold Stable.desc in H. apply Z.ltb_ge in H. exact H.
  - intros a b H. apply Z.ltb_lt in H. apply Z.ltb_ge. lia.
  - intros a b c H1 H2. apply Z.ltb_ge in H1, H2. apply Z.ltb_ge. lia.
Qed.

Lemma recent_perm (db : Db) : Permutation (recent (getAllNotes db)) (rows db).
Proof.
  symmetry. etransitivity; [apply order_by_desc_perm|].
  apply LoadFacts.by_recency_perm.
Qed.

Lemma recent_ids (db : Db) (i : Z) :
  In i (List.map id (recent (getAllNotes db))) <-> In i (List.map id (rows db)).
Proof.
  pose proof (Permutation_map id (recent_perm db)) as H.
  split; intros Hi.
  - now apply (Permutation_in _ H).
  - now apply (Permutation_in _ (Permutation_sym H)).
Qed.

Lemma loadNotes_cases (p : Page) (db : Db) :
  loadNotes getTime p db =
  match activeNoteId p with
  | Some a =>
      if Js.truthy_number (Some a) then
        match find (has_id a) (recent (getAllNotes db)) with
        | None => (loaded_cleared getTime p db, db)
        | Some _ => (loaded getTime p db, db)
        end
      else (loaded getTime p db, db)
  | None => (loaded getTime p db, db)
  end.
Proof.
  unfold loadNotes, loaded, loaded_cleared, updateStats. simpl.
  destruct (activeNoteId p) as [a|]; [|reflexivity].
  destruct (negb (a =? 0)%Z); [|reflexivity].
  destruct (find (has_id a) (recent (getAllNotes db))); reflexivity.
Qed.

Lemma loadNotes_db (p : Page) (db : Db) : snd (loadNotes getTime p db) = db.
Proof.
  rewrite loadNotes_cases.
  destruct (activeNoteId p) as [a|]; [|reflexivity].
  destruct (Js.truthy_number (Some a)); [|reflexivity].
  destruct (find (has_id a) (recent (getAllNotes db))); reflexivity.
Qed.

End Load.

End SidebarFacts.

Import SidebarFacts.

(** X14. Loading in the view without search: a load leaves the store as
    it was, holds every note of the store sorted by the parsed
    [updated_at], latest first, shows one row per note and the count of
    all notes; a selection whose note is no longer in the store is
    cleared, with the editor hidden and its fields emptied, any other
    selection and the editor are left alone; so after a load the selected
    id, if any but 0, is the id of a loaded note. *)
Theorem sidebar_load (getTime : text -> Z) (p : SidebarPage.Page) (db : Db) :
  let p' := fst (SidebarPage.loadNotes getTime p db) in
  snd (SidebarPage.loadNotes getTime p db) = db /\
  Permutation (SidebarPage.notes p') (rows db) /\
  StronglySorted
    (fun a b => (getTime (updated_at b ++ txt "Z")
                 <= getTime (updated_at a ++ txt "Z"))%Z)
    (SidebarPage.notes p') /\
  SidebarPage.noteList p'
  = View.Sidebar.renderNotes (SidebarPage.notes p')
                             (SidebarPage.activeNoteId p') /\
  View.SearchSidebar.shown_rows (SidebarPage.noteList p') = length (rows db) /\
  SidebarPage.statsDiv p'
  = View.SearchSidebar.stats_line (Z.of_nat (length (rows db))) /\
  (forall a, SidebarPage.activeNoteId p = Some a -> a <> 0%Z ->
             ~ In a (List.map id (rows db)) ->
             SidebarPage.activeNoteId p' = None /\
             SidebarPage.emptyEditorHidden p' = false /\
             SidebarPage.editorContainerHidden p' = true /\
             SidebarPage.noteTitleInput p' = [] /\
             SidebarPage.noteContentTextarea p' = []) /\
  ((forall a, SidebarPage.activeNoteId p = Some a ->
              In a (List.map id (rows db))) ->
   SidebarPage.activeNoteId p' = SidebarPage.activeNoteId p /\
   SidebarPage.editorContainerHidden p' = SidebarPage.editorContainerHidden p /\
   SidebarPage.noteTitleInput p' = SidebarPage.noteTitleInput p /\
   SidebarPage.noteContentTextarea p' = SidebarPage.noteContentTextarea p) /\
  (forall a, SidebarPage.activeNoteId p' = Some a ->
             a = 0%Z \/ In a (List.map id (SidebarPage.notes p'))).
Proof.
  intros p'.
  assert (Hrows : forall l a,
            View.SearchSidebar.shown_rows (View.Sidebar.renderNotes l a)
            = length l).
  { intros [|n l] a; [reflexivity|]. simpl. now rewrite length_map. }
  assert (Hlen : length (View.SearchSidebar.by_recency getTime (getAllNotes db))
                 = length (rows db))
    by apply Permutation_length, recent_perm.
  split; [apply loadNotes_db|].
  unfold p'. rewrite loadNotes_cases.
  destruct (SidebarPage.activeNoteId p) as [a|] eqn:Ha.
  - destruct (Js.truthy_number (Some a)) eqn:Ht.
    + destruct (find (has_id a)
                  (View.SearchSidebar.by_recency getTime (getAllNotes db)))
        as [x|] eqn:F; simpl.
      * (* the selected note is still there *)
        apply find_some in F as [Hx Hid]. apply has_id_true in Hid.
        assert (Hin : In a (List.map id
                          (View.SearchSidebar.by_recency getTime
                                                         (getAllNotes db))))
          by (rewrite <- Hid; now apply in_map).
        rewrite Ha.
        split; [apply recent_perm|]. split; [apply by_recency_sorted|].
        split; [reflexivity|]. split; [rewrite Hrows; exact Hlen|].
        split; [reflexivity|]. split.
        { intros b [= <-] _ Hno. exfalso. apply Hno.
          now apply (recent_ids getTime db a). }
        split; [auto|].
        intros b [= <-]. now right.
      * (* it is gone: the selection is cleared *)
        split; [apply recent_perm|]. split; [apply by_recency_sorted|].
        split; [reflexivity|]. split; [rewrite Hrows; exact Hlen|].
        split; [reflexivity|]. split; [auto|]. split.
        { intros Hall. exfalso.
          apply (recent_ids getTime db a) in Hall; [|reflexivity].
          destruct (find_present a _ Hall) as (x & Hx & _). congruence. }
        discriminate.
    + simpl. rewrite Ha.
      split; [apply recent_perm|]. split; [apply by_recency_sorted|].
      split; [reflexivity|]. split; [rewrite Hrows; exact Hlen|].
      split; [reflexivity|]. split.
      { intros b [= <-] Hb. apply truthy_number_spec in Hb. congruence. }
      split; [auto|].
      intros b [= <-]. left. simpl in Ht. apply negb_false_iff in Ht.
      now apply Z.eqb_eq.
  - simpl. rewrite Ha.
    split; [apply recent_perm|]. split; [apply by_recency_sorted|].
    split; [reflexivity|]. split; [rewrite Hrows; exact Hlen|].
    split; [reflexivity|]. split; [discriminate|].
    split; [auto|]. discriminate.
Qed.

Lemma sidebar_load_witness :
  let p' := fst (SidebarPage.loadNotes (fun _ => 0%Z) sample_sidebar
                                       sample_db) in
  SidebarPage.activeNoteId p' = None /\
  SidebarPage.editorContainerHidden p' = true /\
  SidebarPage.noteTitleInput p' = [] /\
  SidebarPage.statsDiv p' = txt "3 memos" /\
  SidebarPage.activeNoteId
    (fst (SidebarPage.loadNotes (fun _ => 0%Z)
            (SidebarPage.set_activeNoteId (Some 2%Z) sample_sidebar)
            sample_db)) = Some 2%Z.
Proof.
  intros p'.
  destruct (sidebar_load (fun _ => 0%Z) sample_sidebar sample_db)
    as (_ & _ & _ & _ & _ & Hs & Hclear & _).
  destruct (Hclear 9%Z eq_refl) as (H1 & _ & H3 & H4 & _).
  - discriminate.
  - simpl. intuition discriminate.
  - split; [exact H1|]. split; [exact H3|]. split; [exact H4|].
    split; [exact Hs|].
    destruct (sidebar_load (fun _ => 0%Z)
                (SidebarPage.set_activeNoteId (Some 2%Z) sample_sidebar)
                sample_db)
      as (_ & _ & _ & _ & _ & _ & _ & Hkeep & _).
    apply Hkeep. intros a [= <-]. simpl. auto.
Defined.

Module AutosaveFacts.

Import SidebarPage.

Lemma differ_spec (a b c d : text) :
  negb (Js.same a b) || negb (Js.same c d) = true <-> a <> b \/ c <> d.
Proof.
  rewrite orb_true_iff, !negb_true_iff. split.
  - intros [H|H]; [left|right]; intros E; apply same_spec in E; congruence.
  - intros [H|H]; [left|right];
      (destruct (Js.same _ _) eqn:E; [apply same_spec in E; contradiction
                                     |reflexivity]).
Qed.

Lemma differ_false (a c : text) :
  negb (Js.same a a) || negb (Js.same c c) = false.
Proof. now rewrite !same_refl. Qed.

(** After an update of a present id, on unique ids, the reloaded list
    finds the updated row under that id. *)
Lemma find_after_update (getTime : text -> Z) (m : Note) (T C now : text)
  (db : Db) :
  NoDup (List.map id (rows db)) -> In m (rows db) ->
  find (has_id (id m))
       (View.SearchSidebar.by_recency getTime
          (getAllNotes (snd (Service.updateNote (id m) T C now db))))
  = Some (set_note T C now m).
Proof.
  intros Hnd Hin.
  pose proof (recent_perm getTime
                (snd (Service.updateNote (id m) T C now db))) as Hp.
  assert (Hnd' : NoDup (List.map id
                   (rows (snd (Service.updateNote (id m) T C now db)))))
    by (simpl; now rewrite map_upd_ids).
  apply (find_unique _ (set_note T C now m)).
  - apply (Permutation_NoDup (Permutation_sym (Permutation_map id Hp)) Hnd').
  - apply (Permutation_in _ (Permutation_sym Hp)). simpl.
    apply in_map_iff. exists m. split; [|exact Hin].
    unfold has_id. now rewrite Z.eqb_refl.
Qed.

End AutosaveFacts.

Import AutosaveFacts.

(** X15. Autosave in the view without search, for a selected note that
    is in the store (ids unique): when the two fields equal the loaded
    snapshot of the note, [performSave] sends nothing and changes
    nothing; when one differs, the note gets the two fields as title and
    content and the host's clock reading as [updated_at], every other
    note and the count stay, the selection and the fields stay, the list
    is loaded again, and a further [performSave] sends nothing. *)
Theorem autosave_persists (getTime : text -> Z) (r r2 : readings)
  (p : SidebarPage.Page) (db : Db) (snap m : Note) :
  SidebarPage.activeNoteId p = Some (id m) ->
  id m <> 0%Z ->
  find (has_id (id m)) (SidebarPage.notes p) = Some snap ->
  NoDup (List.map id (rows db)) ->
  In m (rows db) ->
  let T := SidebarPage.noteTitleInput p in
  let C := SidebarPage.noteContentTextarea p in
  let p' := fst (SidebarPage.performSave getTime r p db) in
  let db' := snd (SidebarPage.performSave getTime r p db) in
  (title snap = T /\ content snap = C ->
   SidebarPage.performSave getTime r p db = (p, db)) /\
  (title snap <> T \/ content snap <> C ->
   get (getNoteById (id m) db') = Some (set_note T C (save_now r) m) /\
   (forall j, j <> id m -> getNoteById j db' = getNoteById j db) /\
   Store.getStats db' = Store.getStats db /\
   SidebarPage.activeNoteId p' = Some (id m) /\
   SidebarPage.noteTitleInput p' = T /\
   SidebarPage.noteContentTextarea p' = C /\
   find (has_id (id m)) (SidebarPage.notes p')
   = Some (set_note T C (save_now r) m) /\
   SidebarPage.performSave getTime r2 p' db' = (p', db')).
Proof.
  intros Ha Hz Hsnap Hnd Hin T C p' db'.
  assert (Ht : Js.truthy_number (Some (id m)) = true)
    by now apply truthy_number_spec.
  split.
  - intros [E1 E2]. unfold SidebarPage.performSave,
      SidebarPage.performSave_start.
    rewrite Ha, Ht, Hsnap, E1, E2. fold T C. now rewrite differ_false.
  - intros Hd. apply differ_spec in Hd.
    pose proof (find_after_update getTime m T C (save_now r) db Hnd Hin)
      as Hfind.
    assert (E : SidebarPage.performSave getTime r p db
                = (loaded getTime
                     (SidebarPage.set_notes
                        (SidebarPage.patch (id m) T C (client_now r)
                                           (SidebarPage.notes p)) p)
                     (snd (Service.updateNote (id m) T C (save_now r) db)),
                   snd (Service.updateNote (id m) T C (save_now r) db))).
    { unfold SidebarPage.performSave, SidebarPage.performSave_start.
      rewrite Ha, Ht, Hsnap. fold T C. rewrite Hd.
      unfold SidebarPage.performSave_finish.
      assert (U : Service.updateNote (id m) T C (save_now r) db
                  = (Service.Reply
                       (get (fst (Store.updateNote T C (id m) (save_now r)
                                                   db))),
                     snd (Service.updateNote (id m) T C (save_now r) db)))
        by reflexivity.
      rewrite U at 1.
      rewrite loadNotes_cases. simpl SidebarPage.activeNoteId.
      rewrite Ha, Ht, Hfind. reflexivity. }
    destruct (updateNote_frame m T C (save_now r) db Hnd Hin)
      as (_ & H2 & H3 & _ & _ & H6 & _).
    unfold p', db'. rewrite E.
    split; [exact H2|]. split; [exact H3|]. split; [exact H6|].
    split; [exact Ha|]. split; [reflexivity|]. split; [reflexivity|].
    split; [exact Hfind|].
    unfold SidebarPage.performSave, SidebarPage.performSave_start.
    simpl fst. simpl snd.
    change (SidebarPage.activeNoteId (loaded getTime _ _))
      with (SidebarPage.activeNoteId p).
    rewrite Ha, Ht.
    change (SidebarPage.notes (loaded getTime _ _))
      with (View.SearchSidebar.by_recency getTime
              (getAllNotes
                 (snd (Service.updateNote (id m) T C (save_now r) db)))).
    rewrite Hfind. simpl title. simpl content.
    change (SidebarPage.noteTitleInput (loaded getTime _ _)) with T.
    change (SidebarPage.noteContentTextarea (loaded getTime _ _)) with C.
    now rewrite differ_false.
Qed.

Lemma autosave_persists_witness :
  let m := mkNote 2 (txt "Todo") (txt "buy GROCERIES")
             (txt "2024-05-01 10:00:05") (txt "2024-05-02 08:30:00") in
  let p := SidebarPage.mkPage (rows sample_db) (Some 2%Z) None
             View.EmptyState [] true false (txt "Todo!") (txt "done")
             Timers.fresh in
  let p' := fst (SidebarPage.performSave (fun _ => 0%Z) sample_readings p
                                         sample_db) in
  let db' := snd (SidebarPage.performSave (fun _ => 0%Z) sample_readings p
                                          sample_db) in
  get (getNoteById 2 db')
  = Some (set_note (txt "Todo!") (txt "done") (txt "2024-05-04 09:00:00") m) /\
  SidebarPage.performSave (fun _ => 0%Z) sample_readings p' db' = (p', db').
Proof.
  intros m p.
  destruct (autosave_persists (fun _ => 0%Z) sample_readings sample_readings
              p sample_db m m eq_refl) as [_ H].
  - discriminate.
  - reflexivity.
  - exact sample_db_ids.
  - simpl. auto.
  - destruct H as (H1 & _ & _ & _ & _ & _ & _ & H8).
    + left. discriminate.
    + split; [exact H1 | exact H8].
Defined.

(** ** The sidebar view with search *)

Module SearchFacts.

Import SearchPage.

Lemma view_load_spec (getTime : text -> Z) (v : View.SearchSidebar.View)
  (db : Db) :
  View.SearchSidebar.loadNotes getTime v db
  = (View.SearchSidebar.mkView
       (View.SearchSidebar.by_recency getTime (fetched v db))
       (View.SearchSidebar.activeNote v)
       (View.SearchSidebar.searchInput v)
       (View.SearchSidebar.renderNotes
          (View.SearchSidebar.by_recency getTime (fetched v db))
          (View.SearchSidebar.activeNote v))
       (View.SearchSidebar.stats_line (Store.getStats db)), db).
Proof.
  unfold View.SearchSidebar.loadNotes, fetched.
  destruct (truthy (View.trim (View.SearchSidebar.searchInput v)));
    reflexivity.
Qed.

Lemma load_spec (getTime : text -> Z) (p : Page) (db : Db) :
  loadNotes getTime p db
  = (set_view
       (View.SearchSidebar.mkView
          (View.SearchSidebar.by_recency getTime (fetched (view p) db))
          (View.SearchSidebar.activeNote (view p))
          (View.SearchSidebar.searchInput (view p))
          (View.SearchSidebar.renderNotes
             (View.SearchSidebar.by_recency getTime (fetched (view p) db))
             (View.SearchSidebar.activeNote (view p)))
          (View.SearchSidebar.stats_line (Store.getStats db))) p, db).
Proof. unfold loadNotes. now rewrite view_load_spec. Qed.



End SearchFacts.

Import SearchFacts.



(** ** Timers of the view with search *)

Module TimerFacts.

Import SearchPage.

Lemma tidy_fresh (save search : option nat) : tidy save search Timers.fresh.
Proof.
  split; [constructor|]. split; [simpl; lia|]. split; constructor.
Qed.

Lemma NoDup_map_filter (A B : Type) (f : A -> B) (g : A -> bool)
  (l : list A) :
  NoDup (List.map f l) -> NoDup (List.map f (filter g l)).
Proof.
  induction l as [|x l IH]; simpl; [auto|].
  intros H. apply NoDup_cons_iff in H as [Hx Hl].
  destruct (g x); simpl; [|now apply IH].
  constructor; [|now apply IH].
  intros Hin. apply Hx. apply in_map_iff in Hin as (y & E & Hy).
  apply filter_In in Hy as [Hy _]. rewrite <- E. now apply in_map.
Qed.

Lemma Forall_filter (A : Type) (P : A -> Prop) (g : A -> bool) (l : list A) :
  Forall P l -> Forall P (filter g l).
Proof.
  rewrite !Forall_forall. intros H x Hx. apply filter_In in Hx as [Hx _].
  now apply H.
Qed.

Lemma NoDup_snoc (A : Type) (l : list A) (x : A) :
  NoDup l -> ~ In x l -> NoDup (l ++ [x]).
Proof.
  induction 1 as [|y l Hy Hl IH]; simpl; intros Hx.
  - repeat constructor. tauto.
  - constructor.
    + intros Hin. apply in_app_or in Hin as [Hin|[<-|[]]]; tauto.
    + apply IH. tauto.
Qed.

(** A timer that fires or is cleared leaves the rest tidy. *)
Lemma tidy_clear (h : nat) (save search : option nat) (t : Timers.table) :
  tidy save search t -> tidy save search (Timers.clearTimeout h t).
Proof.
  intros (H1 & H0 & H2 & H3). unfold Timers.clearTimeout.
  split; [now apply NoDup_map_filter|]. split; [exact H0|].
  split; now apply Forall_filter.
Qed.

(** What is left when the timers a variable may name are gone. *)
Lemma named_without (kind : Timers.callback) (save search : option nat)
  (t : Timers.table) (keep : Timers.timer -> bool) :
  tidy save search t ->
  (forall x, In x (Timers.live t) -> Timers.action x = kind ->
             keep x = false) ->
  Forall (named (match kind with Timers.PerformSave => None | _ => save end)
                (match kind with Timers.LoadNotes => None | _ => search end))
         (filter keep (Timers.live t)).
Proof.
  intros (_ & _ & _ & H3) Hk. apply Forall_forall. intros x Hx.
  apply filter_In in Hx as [Hx Hkx]. rewrite Forall_forall in H3.
  specialize (H3 x Hx). specialize (Hk x Hx). unfold named in *.
  destruct kind, (Timers.action x); try exact H3;
    rewrite (Hk eq_refl) in Hkx; discriminate.
Qed.

Lemma filter_true (A : Type) (l : list A) : filter (fun _ => true) l = l.
Proof. induction l; simpl; congruence. Qed.

(** Clearing the timer that [saveTimeout] names leaves no save timer. *)
Lemma tidy_unset_save (save search : option nat) (t : Timers.table) :
  tidy save search t ->
  tidy None search
       (match save with
        | Some h => if Js.truthy_handle (Some h)
                    then Timers.clearTimeout h t else t
        | None => t
        end).
Proof.
  intros Ht. pose proof Ht as (H1 & H0 & H2 & H3).
  assert (Hnone : (forall x, In x (Timers.live t) ->
                             Timers.action x <> Timers.PerformSave) ->
                  tidy None search t).
  { intros Hno. split; [exact H1|]. split; [exact H0|]. split; [exact H2|].
    rewrite <- (filter_true _ (Timers.live t)).
    apply (named_without Timers.PerformSave save search t (fun _ => true) Ht).
    intros x Hx E. now apply Hno in Hx. }
  destruct save as [[|h]|]; simpl.
  - apply Hnone. intros x Hx E. rewrite Forall_forall in H2, H3.
    specialize (H2 x Hx). specialize (H3 x Hx). unfold named in H3.
    rewrite E in H3. destruct H3 as [[= E0] _]. lia.
  - split; [now apply NoDup_map_filter|]. split; [exact H0|].
    split; [now apply Forall_filter|].
    apply (named_without Timers.PerformSave (Some (S h)) search t _ Ht).
    intros x Hx E. rewrite Forall_forall in H3. specialize (H3 x Hx).
    unfold named in H3. rewrite E in H3. destruct H3 as [[= E0] _].
    unfold Timers.has_handle. now rewrite <- E0, Nat.eqb_refl.
  - apply Hnone. intros x Hx E. rewrite Forall_forall in H3.
    specialize (H3 x Hx). unfold named in H3. rewrite E in H3.
    destruct H3 as [[=] _].
Qed.

Lemma tidy_unset_search (save search : option nat) (t : Timers.table) :
  tidy save search t ->
  tidy save None
       (match search with
        | Some h => if Js.truthy_handle (Some h)
                    then Timers.clearTimeout h t else t
        | None => t
        end).
Proof.
  intros Ht. pose proof Ht as (H1 & H0 & H2 & H3).
  assert (Hnone : (forall x, In x (Timers.live t) ->
                             Timers.action x <> Timers.LoadNotes) ->
                  tidy save None t).
  { intros Hno. split; [exact H1|]. split; [exact H0|]. split; [exact H2|].
    rewrite <- (filter_true _ (Timers.live t)).
    apply (named_without Timers.LoadNotes save search t (fun _ => true) Ht).
    intros x Hx E. now apply Hno in Hx. }
  destruct search as [[|h]|]; simpl.
  - apply Hnone. intros x Hx E. rewrite Forall_forall in H2, H3.
    specialize (H2 x Hx). specialize (H3 x Hx). unfold named in H3.
    rewrite E in H3. destruct H3 as [[= E0] _]. lia.
  - split; [now apply NoDup_map_filter|]. split; [exact H0|].
    split; [now apply Forall_filter|].
    apply (named_without Timers.LoadNotes save (Some (S h)) t _ Ht).
    intros x Hx E. rewrite Forall_forall in H3. specialize (H3 x Hx).
    unfold named in H3. rewrite E in H3. destruct H3 as [[= E0] _].
    unfold Timers.has_handle. now rewrite <- E0, Nat.eqb_refl.
  - apply Hnone. intros x Hx E. rewrite Forall_forall in H3.
    specialize (H3 x Hx). unfold named in H3. rewrite E in H3.
    destruct H3 as [[=] _].
Qed.

(** Setting a timer on a table that has none of its kind. *)
Lemma tidy_set (kind : Timers.callback) (save search : option nat)
  (t : Timers.table) :
  tidy (match kind with Timers.PerformSave => None | _ => save end)
       (match kind with Timers.LoadNotes => None | _ => search end) t ->
  tidy (match kind with
        | Timers.PerformSave => Some (Timers.next t) | _ => save end)
       (match kind with
        | Timers.LoadNotes => Some (Timers.next t) | _ => search end)
       (snd (Timers.setTimeout kind
               (match kind with Timers.PerformSave => 500 | _ => 300 end) t)).
Proof.
  intros (H1 & H0 & H2 & H3). unfold Timers.setTimeout, tidy.
  cbn [snd Timers.live Timers.next].
  split; [|split; [|split]].
  - rewrite map_app. simpl. apply NoDup_snoc; [exact H1|].
    intros Hin. apply in_map_iff in Hin as (x & E & Hx).
    rewrite Forall_forall in H2. specialize (H2 x Hx). lia.
  - lia.
  - apply Forall_app. split.
    + eapply Forall_impl; [|exact H2]. simpl. intros; lia.
    + constructor; [simpl; lia | constructor].
  - apply Forall_app. split.
    + apply Forall_forall. intros x Hx. rewrite Forall_forall in H3.
      specialize (H3 x Hx). unfold named in *.
      destruct kind, (Timers.action x); try exact H3;
        destruct H3 as [[=] _].
    + constructor; [|constructor]. unfold named. simpl.
      destruct kind; split; reflexivity.
Qed.

(** At most one live timer of each kind. *)
Lemma tidy_pending (kind : Timers.callback) (save search : option nat)
  (t : Timers.table) :
  tidy save search t ->
  length (Timers.pending kind t) <= 1 /\
  Forall (fun x =>
            Timers.action x = kind /\
            match kind with
            | Timers.PerformSave =>
                save = Some (Timers.handle x) /\ Timers.delay x = 500
            | Timers.LoadNotes =>
                search = Some (Timers.handle x) /\ Timers.delay x = 300
            end) (Timers.pending kind t).
Proof.
  intros (H1 & _ & _ & H3).
  assert (Hall : Forall (fun x =>
            Timers.action x = kind /\
            match kind with
            | Timers.PerformSave =>
                save = Some (Timers.handle x) /\ Timers.delay x = 500
            | Timers.LoadNotes =>
                search = Some (Timers.handle x) /\ Timers.delay x = 300
            end) (Timers.pending kind t)).
  { apply Forall_forall. intros x Hx. unfold Timers.pending in Hx.
    apply filter_In in Hx as [Hx Hk]. rewrite Forall_forall in H3.
    specialize (H3 x Hx). unfold named in H3.
    destruct (Timers.action x), kind; try discriminate; auto. }
  split; [|exact Hall].
  assert (Hnd : NoDup (List.map Timers.handle (Timers.pending kind t)))
    by (unfold Timers.pending; now apply NoDup_map_filter).
  destruct (Timers.pending kind t) as [|x [|y l]]; simpl; try lia.
  exfalso. apply Forall_cons_iff in Hall as [[_ Hx] Hall].
  apply Forall_cons_iff in Hall as [[_ Hy] _].
  simpl in Hnd. apply NoDup_cons_iff in Hnd as [Hnd _]. apply Hnd. left.
  destruct kind; destruct Hx as [Hx _], Hy as [Hy _]; congruence.
Qed.

Lemma tidy_sched (p q : Page) : sched p = sched q -> tidy_page p -> tidy_page q.
Proof. unfold sched, tidy_page. now intros [= -> -> ->]. Qed.

Section Handlers.
Variable getTime : text -> Z.

Lemma sched_load (p : Page) (db : Db) :
  sched (fst (loadNotes getTime p db)) = sched p.
Proof. now rewrite load_spec. Qed.

Lemma sched_start (c : text) (p : Page) :
  sched (fst (performSave_start c p)) = sched p.
Proof.
  unfold performSave_start.
  destruct (View.SearchSidebar.activeNote (view p)); [|reflexivity].
  now destruct (negb _ || negb _).
Qed.

Lemma sched_finish (now : text) (req : option save_request) (p : Page)
  (db : Db) :
  sched (fst (performSave_finish getTime now req p db)) = sched p.
Proof.
  destruct req as [[i [t c]]|]; [|reflexivity].
  unfold performSave_finish.
  change (Service.updateNote i t c now db)
    with (Service.Reply (get (fst (Store.updateNote t c i now db))),
          snd (Service.updateNote i t c now db)).
  cbv beta iota. apply sched_load.
Qed.

Lemma tidy_flush_start (c : text) (p : Page) :
  tidy_page p -> tidy_page (fst (flushSave_start c p)).
Proof.
  intros Ht. unfold flushSave_start.
  pose proof (tidy_unset_save _ _ _ Ht) as Hu.
  destruct (saveTimeout p) as [[|h]|] eqn:E; try exact Ht.
  simpl Js.truthy_handle. cbv iota.
  eapply tidy_sched; [symmetry; apply sched_start|]. exact Hu.
Qed.

Lemma tidy_select (r : readings) (i : Z) (p : Page) (db : Db) :
  tidy_page p -> tidy_page (fst (selectNote getTime r i p db)).
Proof.
  intros Ht. unfold selectNote.
  destruct (match View.SearchSidebar.activeNote (view p) with
            | Some a => (id a =? i)%Z
            | None => false
            end); [exact Ht|].
  pose proof (tidy_flush_start (client_now r) p Ht) as Hf.
  destruct (flushSave_start (client_now r) p) as [p1 req]. simpl in Hf.
  eapply tidy_sched; [symmetry; apply sched_finish|].
  destruct (find (has_id i) (View.SearchSidebar.notes (view p1)));
    exact Hf.
Qed.

Lemma tidy_create (r : readings) (p : Page) (db : Db) :
  tidy_page p -> tidy_page (fst (createNewNote getTime r p db)).
Proof.
  intros Ht. unfold createNewNote.
  pose proof (tidy_flush_start (client_now r) p Ht) as Hf.
  destruct (flushSave_start (client_now r) p) as [p0 req]. simpl in Hf.
  set (p1 := set_view (set_searchInput [] (view p0)) p0).
  assert (H1 : tidy_page p1) by exact Hf.
  destruct (Service.addNote [] [] (add_now r) _) as [ra db2].
  assert (H2 : forall d,
            tidy_page (fst (match req with
                            | Some _ => loadNotes getTime p1 d
                            | None => (p1, d)
                            end))).
  { intros d. destruct req; [|exact H1].
    eapply tidy_sched; [symmetry; apply sched_load | exact H1]. }
  specialize (H2 db2).
  destruct (match req with
            | Some _ => loadNotes getTime p1 db2
            | None => (p1, db2)
            end) as [p2 db3]. simpl in H2.
  destruct ra as [newNote|]; [|exact H2].
  assert (H3 : tidy_page (fst (loadNotes getTime p2 db3)))
    by (eapply tidy_sched; [symmetry; apply sched_load | exact H2]).
  destruct (loadNotes getTime p2 db3) as [p3 db4]. simpl in H3.
  destruct newNote as [n|]; [|exact H3].
  now apply tidy_select.
Qed.

Lemma tidy_delete (i : Z) (p : Page) (db : Db) :
  tidy_page p -> tidy_page (fst (deleteNoteById getTime i p db)).
Proof.
  intros Ht. unfold deleteNoteById.
  change (Service.deleteNote i db)
    with (Service.Reply true, Store.deleteNote i db).
  cbv beta iota.
  eapply tidy_sched; [symmetry; apply sched_load|].
  destruct (match View.SearchSidebar.activeNote (view p) with
            | Some a => (id a =? i)%Z
            | None => false
            end); exact Ht.
Qed.

Lemma tidy_trigger (p : Page) : tidy_page p -> tidy_page (triggerAutoSave p).
Proof.
  intros Ht. unfold triggerAutoSave.
  destruct (View.SearchSidebar.activeNote (view p)); [|exact Ht].
  pose proof (tidy_unset_save _ _ _ Ht) as Hu.
  exact (tidy_set Timers.PerformSave None (searchTimeout p) _ Hu).
Qed.

Lemma tidy_search (p : Page) : tidy_page p -> tidy_page (handleSearch p).
Proof.
  intros Ht. unfold handleSearch.
  pose proof (tidy_unset_search _ _ _ Ht) as Hu.
  exact (tidy_set Timers.LoadNotes (saveTimeout p) None _ Hu).
Qed.

Lemma tidy_dispatch (r : readings) (e : Event) (p : Page) (db : Db) :
  tidy_page p -> tidy_page (fst (dispatch getTime r e p db)).
Proof.
  intros Ht.
  assert (Hflush : tidy_page (fst (flushSave getTime r p db))).
  { unfold flushSave.
    pose proof (tidy_flush_start (client_now r) p Ht) as Hf.
    destruct (flushSave_start (client_now r) p) as [p1 req]. simpl in Hf.
    eapply tidy_sched; [symmetry; apply sched_finish | exact Hf]. }
  destruct e as [|s|s|s| | | |i|i|h]; simpl.
  - now apply tidy_create.
  - now apply tidy_search.
  - now apply tidy_trigger.
  - now apply tidy_trigger.
  - exact Hflush.
  - exact Hflush.
  - unfold deleteActiveNote.
    destruct (View.SearchSidebar.activeNote (view p));
      [now apply tidy_delete | exact Ht].
  - now apply tidy_select.
  - now apply tidy_delete.
  - destruct (Timers.lookup h (timers p)) as [t|]; [|exact Ht].
    pose proof (tidy_clear h _ _ _ Ht) as Hc.
    destruct (Timers.action t).
    + unfold performSave.
      match goal with
      | |- context [performSave_start ?c ?q] =>
          pose proof (sched_start c q) as Hs;
          destruct (performSave_start c q) as [p1 req]
      end.
      simpl in Hs.
      eapply tidy_sched; [symmetry; apply sched_finish|].
      eapply tidy_sched; [symmetry; exact Hs | exact Hc].
    + eapply tidy_sched; [symmetry; apply sched_load | exact Hc].
Qed.

Lemma tidy_run (es : list (readings * Event)) (p : Page) (db : Db) :
  tidy_page p -> tidy_page (fst (run getTime es p db)).
Proof.
  revert p db. induction es as [|[r e] es IH]; intros p db Ht; [exact Ht|].
  simpl. pose proof (tidy_dispatch r e p db Ht) as H.
  destruct (dispatch getTime r e p db) as [p1 db1]. now apply IH.
Qed.

End Handlers.

End TimerFacts.

Import TimerFacts.

(** X17. One timer of each kind (view with search): after any run of
    events on a window that started without timers, at most one save
    timer and at most one search timer are live; a live save timer waits
    500 ms and is the one [saveTimeout] names, a live search timer waits
    300 ms and is the one [searchTimeout] names. *)
Theorem one_timer_of_each_kind (getTime : text -> Z)
  (es : list (readings * SearchPage.Event)) (p0 : SearchPage.Page)
  (db0 : Db) :
  SearchPage.timers p0 = Timers.fresh ->
  let p := fst (SearchPage.run getTime es p0 db0) in
  length (Timers.pending Timers.PerformSave (SearchPage.timers p)) <= 1 /\
  length (Timers.pending Timers.LoadNotes (SearchPage.timers p)) <= 1 /\
  (forall t, In t (Timers.pending Timers.PerformSave (SearchPage.timers p)) ->
             SearchPage.saveTimeout p = Some (Timers.handle t)
             /\ Timers.delay t = 500) /\
  (forall t, In t (Timers.pending Timers.LoadNotes (SearchPage.timers p)) ->
             SearchPage.searchTimeout p = Some (Timers.handle t)
             /\ Timers.delay t = 300).
Proof.
  intros Hfresh p.
  assert (Ht : tidy_page p).
  { apply tidy_run. unfold tidy_page. rewrite Hfresh. apply tidy_fresh. }
  destruct (tidy_pending Timers.PerformSave _ _ _ Ht) as [L1 F1].
  destruct (tidy_pending Timers.LoadNotes _ _ _ Ht) as [L2 F2].
  split; [exact L1|]. split; [exact L2|].
  rewrite Forall_forall in F1, F2.
  split; intros t Hin; [apply (F1 t Hin) | apply (F2 t Hin)].
Qed.

Lemma one_timer_of_each_kind_witness :
  let r := sample_readings in
  let es := [(r, SearchPage.ClickAdd);
             (r, SearchPage.TypeTitle (txt "a"));
             (r, SearchPage.TypeTitle (txt "ab"));
             (r, SearchPage.TypeSearch (txt "x"));
             (r, SearchPage.TypeContent (txt "c"))] in
  let p := fst (SearchPage.run (fun _ => 0%Z) es blank_search_page
                               Store.empty) in
  List.map Timers.handle (Timers.live (SearchPage.timers p)) = [3; 4] /\
  length (Timers.pending Timers.PerformSave (SearchPage.timers p)) <= 1 /\
  length (Timers.pending Timers.LoadNotes (SearchPage.timers p)) <= 1.
Proof.
  intros r es p. split; [reflexivity|].
  destruct (one_timer_of_each_kind (fun _ => 0%Z) es blank_search_page
              Store.empty eq_refl) as (H1 & H2 & _).
  split; [exact H1 | exact H2].
Defined.


(** ** Creating from the sidebar with search *)

Module CreateFacts.

Import SearchPage.

(** What [flushSave] leaves up to its request: no live handle in
    [saveTimeout], the selection on the same id, the request for that
    id. *)
Lemma flush_start_facts (c : text) (p : Page) :
  let p0 := fst (flushSave_start c p) in
  let req := snd (flushSave_start c p) in
  Js.truthy_handle (saveTimeout p0) = false /\
  (forall a0, View.SearchSidebar.activeNote (view p0) = Some a0 ->
              exists a, View.SearchSidebar.activeNote (view p) = Some a
                        /\ id a0 = id a) /\
  (forall i tc, req = Some (i, tc) ->
                exists a, View.SearchSidebar.activeNote (view p) = Some a
                          /\ i = id a).
Proof.
  unfold flushSave_start.
  destruct (saveTimeout p) as [[|h]|] eqn:Es; simpl.
  - rewrite Es. split; [reflexivity|]. split; [eauto | discriminate].
  - unfold performSave_start. simpl.
    destruct (View.SearchSidebar.activeNote (view p)) as [a|] eqn:Ea; simpl.
    + destruct (negb _ || negb _); simpl.
      * split; [reflexivity|]. split.
        -- intros a0 [= <-]. eauto.
        -- intros i tc [= <- _]. eauto.
      * split; [reflexivity|]. split; [|discriminate].
        intros a0 E. rewrite Ea in E. eauto.
    + split; [reflexivity|]. split; [|discriminate].
      intros a0 E. rewrite Ea in E. discriminate.
  - rewrite Es. split; [reflexivity|]. split; [eauto | discriminate].
Qed.

Lemma flush_start_idle (c : text) (p : Page) :
  Js.truthy_handle (saveTimeout p) = false -> flushSave_start c p = (p, None).
Proof.
  unfold flushSave_start. destruct (saveTimeout p) as [[|h]|]; simpl;
    [reflexivity | discriminate | reflexivity].
Qed.

Lemma fetched_all (v : View.SearchSidebar.View) (db : Db) :
  View.SearchSidebar.searchInput v = [] -> fetched v db = getAllNotes db.
Proof. unfold fetched. now intros ->. Qed.

Section Create.
Variable getTime : text -> Z.
Variable r : readings.
Variable p : Page.
Variable db : Db.

Local Abbreviation flushed := (flushed_store r p db).
Local Abbreviation created := (added_note r db).
Local Abbreviation stored := (added_store r p db).

Lemma flushed_wf : wf db -> wf flushed.
Proof.
  intros Hwf. unfold flushed_store.
  destruct (snd (flushSave_start (client_now r) p)) as [[i [t c]]|];
    [|exact Hwf].
  exact (serve_wf (save_now r) (Service.UpdateNote i t c) db Hwf).
Qed.

Lemma flushed_seq : seq flushed = seq db.
Proof.
  unfold flushed_store.
  now destruct (snd (flushSave_start (client_now r) p)) as [[i [t c]]|].
Qed.

Lemma flushed_length : length (rows flushed) = length (rows db).
Proof.
  unfold flushed_store.
  destruct (snd (flushSave_start (client_now r) p)) as [[i [t c]]|];
    [|reflexivity].
  simpl. apply length_map.
Qed.

Lemma stored_wf : wf db -> (seq db < MAX_ROWID)%Z -> wf stored.
Proof.
  intros Hwf Hlt. pose proof (flushed_wf Hwf) as Hf.
  pose proof (insertNote_wf [] [] (add_now r) flushed Hf) as Hi.
  rewrite flushed_seq in Hi.
  destruct (Z.eqb_spec (seq db) MAX_ROWID) as [E|_]; [lia|].
  pose proof (serve_wf (add_now r) (Service.AddNote [] []) flushed Hf) as Hs.
  simpl in Hs. unfold Service.addNote in Hs. rewrite Hi in Hs. exact Hs.
Qed.

Lemma insert_created :
  wf db -> (seq db < MAX_ROWID)%Z ->
  insertNote [] [] (add_now r) flushed = Some ([created], stored).
Proof.
  intros Hwf Hlt. rewrite (insertNote_wf _ _ _ _ (flushed_wf Hwf)).
  rewrite flushed_seq.
  destruct (Z.eqb_spec (seq db) MAX_ROWID) as [E|_]; [lia|]. reflexivity.
Qed.

(** [selectNote] of a loaded note other than the selected one, with no
    save pending. *)
Lemma select_spec (i : Z) (q : Page) (d : Db) (n : Note) :
  (forall a, View.SearchSidebar.activeNote (view q) = Some a -> id a <> i) ->
  Js.truthy_handle (saveTimeout q) = false ->
  find (has_id i) (View.SearchSidebar.notes (view q)) = Some n ->
  selectNote getTime r i q d
  = (set_editor true false (title n) (content n)
       (renderNotes (set_view (set_activeNote (Some n) (view q)) q)), d).
Proof.
  intros Ha Hs Hf. unfold selectNote.
  assert (match View.SearchSidebar.activeNote (view q) with
          | Some a => (id a =? i)%Z
          | None => false
          end = false) as ->.
  { destruct (View.SearchSidebar.activeNote (view q)) as [a|]; [|reflexivity].
    apply Z.eqb_neq. now apply Ha. }
  rewrite (flush_start_idle _ _ Hs), Hf. reflexivity.
Qed.

(** [createNewNote] on a well-formed store with room for a row. *)
Lemma create_spec :
  wf db -> (seq db < MAX_ROWID)%Z ->
  (forall a, View.SearchSidebar.activeNote (view p) = Some a ->
             (id a <= seq db)%Z) ->
  createNewNote getTime r p db
  = (set_editor true false [] []
       (set_view
          (View.SearchSidebar.mkView
             (View.SearchSidebar.by_recency getTime (getAllNotes stored))
             (Some created) []
             (View.SearchSidebar.renderNotes
                (View.SearchSidebar.by_recency getTime (getAllNotes stored))
                (Some created))
             (View.SearchSidebar.stats_line (Store.getStats stored)))
          (fst (flushSave_start (client_now r) p))),
     stored).
Proof.
  intros Hwf Hlt Hact.
  pose proof (stored_wf Hwf Hlt) as Hsw.
  pose proof (insert_created Hwf Hlt) as Hi.
  destruct (flush_start_facts (client_now r) p) as (F1 & F2 & _).
  assert (Hfl : flushed
                = match snd (flushSave_start (client_now r) p) with
                  | Some (i, (t, c)) =>
                      snd (Service.updateNote i t c (save_now r) db)
                  | None => db
                  end) by reflexivity.
  unfold createNewNote.
  destruct (flushSave_start (client_now r) p) as [p0 req].
  cbn [fst snd] in F1, F2, Hfl |- *. cbv zeta.
  rewrite <- Hfl. unfold Service.addNote. rewrite Hi. cbv beta iota.
  assert (Hfind : find (has_id (id created))
                    (View.SearchSidebar.by_recency getTime
                       (getAllNotes stored)) = Some created).
  { apply find_unique.
    - apply (Permutation_NoDup
               (Permutation_sym
                  (Permutation_map id (recent_perm getTime stored)))).
      now apply wf_NoDup.
    - apply (Permutation_in _ (Permutation_sym (recent_perm getTime stored))).
      simpl. apply in_or_app. right. now left. }
  assert (Hother : forall a0,
            View.SearchSidebar.activeNote (view p0) = Some a0 ->
            id a0 <> id created).
  { intros a0 E. destruct (F2 a0 E) as (a & Ea & Eid).
    specialize (Hact a Ea). simpl. lia. }
  destruct req as [[i [t c]]|]; rewrite !load_spec; cbv beta iota;
    cbn [get hd_error];
    (rewrite (select_spec (id created) _ _ created);
     [reflexivity | exact Hother | exact F1 | exact Hfind]).
Qed.

End Create.

End CreateFacts.

Import CreateFacts.

(** X19. The add button (view with search), on a store filled through
    the handlers that has room for a row, the selected note being one
    that was fetched: the store gets one more note, with the next id,
    empty title and content and both timestamps the time of the
    insertion; a note that is neither the new one nor the one selected
    before stays as it was; the search field is emptied and the list
    holds every note of the store; the new note is the selected one and
    the editor shows its empty fields; the stats line counts one more
    note, and no save is left pending. *)
Theorem create_selects_new (getTime : text -> Z) (r : readings)
  (p : SearchPage.Page) (db : Db) :
  Store.wf db ->
  (seq db < MAX_ROWID)%Z ->
  (forall a, View.SearchSidebar.activeNote (SearchPage.view p) = Some a ->
             (id a <= seq db)%Z) ->
  let n := mkNote (seq db + 1) [] [] (add_now r) (add_now r) in
  let p' := fst (SearchPage.createNewNote getTime r p db) in
  let db' := snd (SearchPage.createNewNote getTime r p db) in
  getNoteById (seq db + 1) db' = [n] /\
  length (rows db') = S (length (rows db)) /\
  (forall j, j <> (seq db + 1)%Z ->
     (forall a, View.SearchSidebar.activeNote (SearchPage.view p) = Some a ->
                j <> id a) ->
     getNoteById j db' = getNoteById j db) /\
  View.SearchSidebar.searchInput (SearchPage.view p') = [] /\
  Permutation (View.SearchSidebar.notes (SearchPage.view p')) (rows db') /\
  View.SearchSidebar.activeNote (SearchPage.view p') = Some n /\
  SearchPage.noteTitleInput p' = [] /\
  SearchPage.noteContentTextarea p' = [] /\
  SearchPage.editorContainerHidden p' = false /\
  SearchPage.emptyEditorHidden p' = true /\
  View.SearchSidebar.statsDiv (SearchPage.view p')
  = View.SearchSidebar.stats_line (Z.of_nat (S (length (rows db)))) /\
  Js.truthy_handle (SearchPage.saveTimeout p') = false.
Proof.
  intros Hwf Hlt Hact n p' db'.
  unfold p', db'. rewrite (create_spec getTime r p db Hwf Hlt Hact).
  clear p' db'. cbn [fst snd].
  pose proof (flushed_wf r p db Hwf) as Hf.
  pose proof (wf_largest _ Hf) as Hl. rewrite flushed_seq in Hl.
  destruct (flush_start_facts (client_now r) p) as (F1 & _ & F3).
  split.
  { unfold getNoteById, added_store. simpl. rewrite filter_app.
    rewrite getNoteById_fresh by lia. simpl.
    unfold has_id. simpl. now rewrite Z.eqb_refl. }
  split.
  { unfold added_store. simpl. rewrite length_app, flushed_length. simpl. lia. }
  split.
  { intros j Hj Hja. unfold getNoteById, added_store. simpl. rewrite filter_app.
    simpl. assert (has_id j (added_note r db) = false) as ->
      by (apply has_id_false; simpl; lia).
    rewrite app_nil_r. unfold flushed_store.
    destruct (snd (SearchPage.flushSave_start (client_now r) p))
      as [[i [t c]]|] eqn:Er; [|reflexivity].
    destruct (F3 i (t, c) eq_refl) as (a & Ea & ->).
    apply filter_upd_other. now apply Hja. }
  split; [reflexivity|].
  split; [apply recent_perm|].
  split; [reflexivity|]. split; [reflexivity|]. split; [reflexivity|].
  split; [reflexivity|]. split; [reflexivity|].
  split; [|exact F1].
  simpl. unfold Store.getStats, added_store. simpl.
  now rewrite length_app, flushed_length, Nat.add_1_r.
Qed.

Lemma create_selects_new_witness :
  let p' := fst (SearchPage.createNewNote (fun _ => 0%Z) sample_readings
                   sample_search_page sample_db) in
  let db' := snd (SearchPage.createNewNote (fun _ => 0%Z) sample_readings
                    sample_search_page sample_db) in
  List.map title (getNoteById 7 db') = [[]] /\
  List.map content (getNoteById 1 db') = [txt "milk and eggs"] /\
  length (rows db') = 4 /\
  option_map id (View.SearchSidebar.activeNote (SearchPage.view p'))
  = Some 7%Z /\
  SearchPage.noteTitleInput p' = [].
Proof.
  intros p' db'.
  assert (Hwf : Store.wf sample_db).
  { unfold Store.wf, MAX_ROWID. simpl. split; [|split; [|lia]].
    - repeat constructor; lia.
    - repeat constructor; lia. }
  destruct (create_selects_new (fun _ => 0%Z) sample_readings
              sample_search_page sample_db Hwf)
    as (H1 & H2 & _ & _ & _ & H6 & H7 & _).
  - reflexivity.
  - intros a [= <-]. simpl. lia.
  - fold db' in H1, H2. fold p' in H6, H7.
    change (seq sample_db + 1)%Z with 7%Z in H1.
    split; [now rewrite H1|]. split; [reflexivity|].
    split; [exact H2|]. split; [now rewrite H6 | exact H7].
Defined.

(** ** Typing in the editor of the view with search *)

Module TypingFacts.

Import SearchPage.

Lemma no_save_pending (search : option nat) (t : Timers.table) :
  tidy None search t -> Timers.pending Timers.PerformSave t = [].
Proof.
  intros Ht. destruct (tidy_pending Timers.PerformSave _ _ _ Ht) as [_ F].
  destruct (Timers.pending Timers.PerformSave t) as [|x l]; [reflexivity|].
  apply Forall_cons_iff in F as [[_ [[=] _]] _].
Qed.

Lemma trigger_spec (p : Page) (a : Note) :
  tidy_page p ->
  View.SearchSidebar.activeNote (view p) = Some a ->
  view (triggerAutoSave p) = view p /\
  noteTitleInput (triggerAutoSave p) = noteTitleInput p /\
  noteContentTextarea (triggerAutoSave p) = noteContentTextarea p /\
  armed (triggerAutoSave p).
Proof.
  intros Ht Ha. unfold triggerAutoSave. rewrite Ha.
  pose proof (no_save_pending _ _ (tidy_unset_save _ _ _ Ht)) as Hn.
  repeat (split; [reflexivity|]).
  eexists. split; [reflexivity|].
  unfold Timers.setTimeout, Timers.pending in *.
  cbn [snd fst set_saveTimeout timers Timers.live]. rewrite filter_app, Hn.
  reflexivity.
Qed.

Lemma find_handle_unique (l : list Timers.timer) (x : Timers.timer) :
  NoDup (List.map Timers.handle l) -> In x l ->
  find (Timers.has_handle (Timers.handle x)) l = Some x.
Proof.
  induction l as [|y l IH]; simpl; [tauto|].
  intros Hnd Hin. apply NoDup_cons_iff in Hnd as [Hy Hnd].
  unfold Timers.has_handle at 1.
  destruct Hin as [->|Hin]; [now rewrite Nat.eqb_refl|].
  destruct (Nat.eqb_spec (Timers.handle y) (Timers.handle x)) as [E|_];
    [|now apply IH].
  exfalso. apply Hy. rewrite E. now apply in_map.
Qed.

Section Typing.
Variable getTime : text -> Z.

Lemma typing_run (es : list (readings * Event)) (p : Page) (db : Db)
  (a : Note) :
  tidy_page p ->
  View.SearchSidebar.activeNote (view p) = Some a ->
  Forall (fun re => typing (snd re) = true) es ->
  snd (run getTime es p db) = db /\
  view (fst (run getTime es p db)) = view p /\
  tidy_page (fst (run getTime es p db)) /\
  (es <> [] \/ armed p -> armed (fst (run getTime es p db))).
Proof.
  revert p. induction es as [|[r e] es IH]; intros p Ht Ha Hall.
  - simpl. repeat (split; [reflexivity || exact Ht|]).
    intros [H|H]; [congruence | exact H].
  - apply Forall_cons_iff in Hall as [He Hall]. simpl in He.
    assert (Hstep : exists q,
              dispatch getTime r e p db = (triggerAutoSave q, db)
              /\ tidy_page q /\ view q = view p).
    { destruct e; try discriminate; eexists;
        (split; [reflexivity | split; [exact Ht | reflexivity]]). }
    destruct Hstep as (q & Ed & Hq & Hv).
    assert (Haq : View.SearchSidebar.activeNote (view q) = Some a)
      by now rewrite Hv.
    destruct (trigger_spec q a Hq Haq) as (V & _ & _ & Harm).
    cbn [run]. rewrite Ed.
    destruct (IH (triggerAutoSave q) (tidy_trigger q Hq))
      as (I1 & I2 & I3 & I4);
      [now rewrite V | exact Hall |].
    split; [exact I1|]. split; [now rewrite I2, V|]. split; [exact I3|].
    intros _. apply I4. now right.
Qed.

Lemma pending_cleared (h : nat) (cb : Timers.callback) (t : Timers.table) :
  Timers.pending cb (Timers.clearTimeout h t)
  = filter (fun x => negb (Timers.has_handle h x)) (Timers.pending cb t).
Proof.
  unfold Timers.pending, Timers.clearTimeout. simpl.
  rewrite !ComposeFacts.filter_filter. apply filter_ext. intros x.
  apply andb_comm.
Qed.

Lemma finish_db (now : text) (i : Z) (t c : text) (p : Page) (db : Db) :
  snd (performSave_finish getTime now (Some (i, (t, c))) p db)
  = snd (Service.updateNote i t c now db).
Proof.
  unfold performSave_finish.
  change (Service.updateNote i t c now db)
    with (Service.Reply (get (fst (Store.updateNote t c i now db))),
          snd (Service.updateNote i t c now db)).
  cbv beta iota. now rewrite load_spec.
Qed.

Lemma timers_finish (now : text) (req : option save_request) (p : Page)
  (db : Db) :
  timers (fst (performSave_finish getTime now req p db)) = timers p.
Proof.
  pose proof (sched_finish getTime now req p db) as H. unfold sched in H.
  congruence.
Qed.

Lemma fire_spec (r : readings) (p : Page) (db : Db) (a : Note) (h : nat) :
  tidy_page p ->
  View.SearchSidebar.activeNote (view p) = Some a ->
  Timers.pending Timers.PerformSave (timers p)
  = [Timers.mkTimer h 500 Timers.PerformSave] ->
  let fired := dispatch getTime r (TimerFires h) p db in
  (title a <> noteTitleInput p \/ content a <> noteContentTextarea p ->
   snd fired = snd (Service.updateNote (id a) (noteTitleInput p)
                      (noteContentTextarea p) (save_now r) db)) /\
  (title a = noteTitleInput p /\ content a = noteContentTextarea p ->
   snd fired = db) /\
  Timers.pending Timers.PerformSave (timers (fst fired)) = [].
Proof.
  intros Ht Ha Hp fired.
  assert (Hl : Timers.lookup h (timers p)
               = Some (Timers.mkTimer h 500 Timers.PerformSave)).
  { destruct Ht as (Hnd & _). unfold Timers.lookup.
    apply (find_handle_unique _ (Timers.mkTimer h 500 Timers.PerformSave) Hnd).
    assert (Hin : In (Timers.mkTimer h 500 Timers.PerformSave)
                     (Timers.pending Timers.PerformSave (timers p)))
      by (rewrite Hp; now left).
    now apply filter_In in Hin as [Hin _]. }
  assert (Hclear : Timers.pending Timers.PerformSave
                     (Timers.clearTimeout h (timers p)) = []).
  { rewrite pending_cleared, Hp. simpl. unfold Timers.has_handle. simpl.
    now rewrite Nat.eqb_refl. }
  unfold fired, dispatch. rewrite Hl. cbn [Timers.action].
  unfold performSave, performSave_start. cbn [view]. rewrite Ha.
  cbn [noteTitleInput noteContentTextarea].
  destruct (negb (Js.same (title a) (noteTitleInput p))
            || negb (Js.same (content a) (noteContentTextarea p))) eqn:Ed.
  - split; [intros _; apply finish_db|].
    split; [|rewrite timers_finish; exact Hclear].
    intros [E1 E2]. rewrite <- E1, <- E2 in Ed.
    now rewrite differ_false in Ed.
  - cbn [performSave_finish fst snd].
    split; [|split; [reflexivity | exact Hclear]].
    intros Hd. apply differ_spec in Hd. congruence.
Qed.

End Typing.

End TypingFacts.

Import TypingFacts.

(** X20. Typing is debounced (view with search): on a window that started
    without timers, while a note is selected, a run of one or more edits
    of the title and content fields sends no request, so the store and
    the loaded list stay as they were, and leaves exactly one save timer,
    of 500 ms, named by [saveTimeout].  When that timer fires, one update
    with the values the fields then hold is applied if they differ from
    the selected note, the store is left alone if they do not, and no
    save timer is left. *)
Theorem typing_is_debounced (getTime : text -> Z)
  (es0 es : list (readings * SearchPage.Event)) (p0 : SearchPage.Page)
  (db0 : Db) (a : Note) :
  SearchPage.timers p0 = Timers.fresh ->
  let p := fst (SearchPage.run getTime es0 p0 db0) in
  let db := snd (SearchPage.run getTime es0 p0 db0) in
  View.SearchSidebar.activeNote (SearchPage.view p) = Some a ->
  es <> [] ->
  Forall (fun re => typing (snd re) = true) es ->
  let p' := fst (SearchPage.run getTime es p db) in
  let db' := snd (SearchPage.run getTime es p db) in
  db' = db /\
  SearchPage.view p' = SearchPage.view p /\
  exists h,
    SearchPage.saveTimeout p' = Some h /\
    Timers.pending Timers.PerformSave (SearchPage.timers p')
    = [Timers.mkTimer h 500 Timers.PerformSave] /\
    forall r,
      let fired :=
        SearchPage.dispatch getTime r (SearchPage.TimerFires h) p' db' in
      (title a <> SearchPage.noteTitleInput p'
       \/ content a <> SearchPage.noteContentTextarea p' ->
       snd fired
       = snd (Service.updateNote (id a) (SearchPage.noteTitleInput p')
                (SearchPage.noteContentTextarea p') (save_now r) db)) /\
      (title a = SearchPage.noteTitleInput p'
       /\ content a = SearchPage.noteContentTextarea p' ->
       snd fired = db) /\
      Timers.pending Timers.PerformSave (SearchPage.timers (fst fired)) = [].
Proof.
  intros Hfresh p db Ha Hne Hall p' db'.
  assert (Ht : tidy_page p).
  { apply tidy_run. unfold tidy_page. rewrite Hfresh. apply tidy_fresh. }
  destruct (typing_run getTime es p db a Ht Ha Hall) as (H1 & H2 & H3 & H4).
  fold p' in H2, H3, H4. fold db' in H1.
  split; [exact H1|]. split; [exact H2|].
  destruct (H4 (or_introl Hne)) as (h & Hs & Hp).
  exists h. split; [exact Hs|]. split; [exact Hp|].
  intros r. rewrite H1.
  apply (fire_spec getTime r p' db a h H3); [now rewrite H2 | exact Hp].
Qed.

Lemma typing_is_debounced_witness :
  let r := sample_readings in
  let es0 := [(r, SearchPage.ClickAdd)] in
  let es := [(r, SearchPage.TypeTitle (txt "a"));
             (r, SearchPage.TypeContent (txt "c"));
             (r, SearchPage.TypeTitle (txt "ab"))] in
  let p := fst (SearchPage.run (fun _ => 0%Z) es0 blank_search_page
                               Store.empty) in
  let db := snd (SearchPage.run (fun _ => 0%Z) es0 blank_search_page
                                Store.empty) in
  let p' := fst (SearchPage.run (fun _ => 0%Z) es p db) in
  let db' := snd (SearchPage.run (fun _ => 0%Z) es p db) in
  db' = db /\
  SearchPage.saveTimeout p' = Some 3 /\
  List.map title
    (rows (snd (SearchPage.dispatch (fun _ => 0%Z) r
                  (SearchPage.TimerFires 3) p' db')))
  = [txt "ab"].
Proof.
  intros r es0 es p db p' db'.
  destruct (typing_is_debounced (fun _ => 0%Z) es0 es blank_search_page
              Store.empty
              (mkNote 1 [] [] (add_now r) (add_now r)) eq_refl eq_refl)
    as (H1 & _ & _).
  - discriminate.
  - repeat constructor.
  - fold p db in H1. fold db' in H1.
    split; [exact H1|]. split; reflexivity.
Defined.

(** ** Typing in the search field *)

Module SearchingFacts.

Import SearchPage.



Section Searching.
Variable getTime : text -> Z.



End Searching.

End SearchingFacts.

Import SearchingFacts.



(** ** The view without search shows the store *)

Module SyncFacts.

Import SidebarPage.

Section Sync.
Variable getTime : text -> Z.

Local Abbreviation recent := (View.SearchSidebar.by_recency getTime).

Lemma in_sync_shows (p q : Page) (db : Db) :
  shows p = shows q -> in_sync getTime p db -> in_sync getTime q db.
Proof.
  unfold shows, in_sync. intros [= E1 E2 E3 E4].
  now rewrite E1, E2, E3, E4.
Qed.

Lemma wf_ids_positive (db : Db) (a : Z) :
  Store.wf db -> In a (List.map id (rows db)) -> a <> 0%Z.
Proof.
  intros (_ & Hb & _) Hin. rewrite Forall_forall in Hb.
  specialize (Hb a Hin). lia.
Qed.

Lemma in_sync_selectable (p : Page) (db : Db) :
  in_sync getTime p db -> selectable p.
Proof.
  intros (Hwf & _ & _ & _ & Ha) a E. apply (wf_ids_positive db a Hwf).
  now apply Ha.
Qed.

Lemma load_in_sync (p : Page) (db : Db) :
  Store.wf db -> selectable p ->
  in_sync getTime (fst (loadNotes getTime p db)) db
  /\ snd (loadNotes getTime p db) = db.
Proof.
  intros Hwf Hsel. rewrite loadNotes_cases.
  destruct (activeNoteId p) as [a|] eqn:Ea.
  - assert (Js.truthy_number (Some a) = true) as ->
      by (apply truthy_number_spec; now apply Hsel).
    destruct (find (has_id a) (recent (getAllNotes db))) as [x|] eqn:F.
    + split; [|reflexivity]. cbn [fst]. unfold in_sync, loaded.
      split; [exact Hwf|]. split; [reflexivity|]. split; [reflexivity|].
      split; [reflexivity|].
      intros a'. cbn. rewrite Ea. intros [= <-].
      apply find_some in F as [Hx E]. apply has_id_true in E.
      apply (recent_ids getTime). rewrite <- E. now apply in_map.
    + split; [|reflexivity]. cbn [fst]. unfold in_sync, loaded_cleared.
      split; [exact Hwf|]. split; [reflexivity|]. split; [reflexivity|].
      split; [reflexivity|]. intros a'. cbn. discriminate.
  - split; [|reflexivity]. cbn [fst]. unfold in_sync, loaded.
    split; [exact Hwf|]. split; [reflexivity|]. split; [reflexivity|].
    split; [reflexivity|]. intros a'. cbn. rewrite Ea. discriminate.
Qed.

Lemma patch_ids (a : Z) (t c u : text) (l : list Note) :
  List.map id (patch a t c u l) = List.map id l.
Proof.
  induction l as [|n l IH]; simpl; [reflexivity|].
  destruct (has_id a n); simpl; [reflexivity|]. now rewrite IH.
Qed.

(** [performSave] up to its request: the selection stays, the ids of the
    list stay, and without a request nothing shown changes. *)
Lemma start_facts (c : text) (p : Page) :
  activeNoteId (fst (performSave_start c p)) = activeNoteId p /\
  List.map id (notes (fst (performSave_start c p))) = List.map id (notes p) /\
  (snd (performSave_start c p) = None ->
   shows (fst (performSave_start c p)) = shows p).
Proof.
  unfold performSave_start.
  destruct (activeNoteId p) as [a|] eqn:Ea;
    [|split; [exact Ea | split; reflexivity]].
  destruct (Js.truthy_number (Some a));
    [|split; [exact Ea | split; reflexivity]].
  destruct (find (has_id a) (notes p)) as [x|];
    [|split; [exact Ea | split; reflexivity]].
  destruct (negb _ || negb _); [|split; [exact Ea | split; reflexivity]].
  cbn [fst snd]. split; [exact Ea|]. split; [apply patch_ids | discriminate].
Qed.

Lemma flush_facts (c : text) (p : Page) :
  activeNoteId (fst (flushSave_start c p)) = activeNoteId p /\
  List.map id (notes (fst (flushSave_start c p))) = List.map id (notes p) /\
  (snd (flushSave_start c p) = None ->
   shows (fst (flushSave_start c p)) = shows p).
Proof.
  unfold flushSave_start.
  destruct (saveTimeout p) as [[|h]|]; cbn [Js.truthy_handle];
    try (repeat split; reflexivity).
  apply (start_facts c
           (set_saveTimeout None (Timers.clearTimeout (S h) (timers p)) p)).
Qed.

Lemma finish_in_sync (now : text) (req : option save_request) (p : Page)
  (db : Db) :
  Store.wf db -> selectable p -> (req = None -> in_sync getTime p db) ->
  in_sync getTime (fst (performSave_finish getTime now req p db))
          (snd (performSave_finish getTime now req p db)).
Proof.
  intros Hwf Hsel Hnone. destruct req as [[i [t c]]|]; [|now apply Hnone].
  unfold performSave_finish.
  change (Service.updateNote i t c now db)
    with (Service.Reply (get (fst (Store.updateNote t c i now db))),
          snd (Service.updateNote i t c now db)).
  cbv beta iota.
  pose proof (serve_wf now (Service.UpdateNote i t c) db Hwf) as Hw.
  cbn [Service.serve] in Hw.
  destruct (load_in_sync p _ Hw Hsel) as [H1 H2].
  rewrite H2. exact H1.
Qed.

Lemma select_in_sync (r : readings) (i : Z) (p : Page) (db : Db) :
  in_sync getTime p db ->
  in_sync getTime (fst (selectNote getTime r i p db))
          (snd (selectNote getTime r i p db)).
Proof.
  intros Hs. pose proof Hs as (Hwf & Hn & Hl & Hst & Ha).
  unfold selectNote.
  destruct (match activeNoteId p with
            | Some a => (a =? i)%Z
            | None => false
            end); [exact Hs|].
  destruct (flush_facts (client_now r) p) as (F1 & F2 & F3).
  destruct (flushSave_start (client_now r) p) as [p1 req].
  cbn [fst snd] in F1, F2, F3.
  destruct (find (has_id i) (notes p1)) as [x|] eqn:F.
  - apply find_some in F as [Hx E]. apply has_id_true in E.
    assert (Hi : In i (List.map id (rows db))).
    { apply (recent_ids getTime). rewrite <- Hn, <- F2, <- E.
      now apply in_map. }
    apply finish_in_sync; [exact Hwf | |].
    + intros a. cbn. intros [= <-]. now apply (wf_ids_positive db).
    + intros ->. injection (F3 eq_refl) as E1 E2 E3 E4.
      unfold in_sync. cbn. rewrite E1, E4.
      split; [exact Hwf|]. split; [exact Hn|]. split; [reflexivity|].
      split; [exact Hst|]. now intros a [= <-].
  - apply finish_in_sync; [exact Hwf | |].
    + intros a. rewrite F1. now apply (in_sync_selectable p db).
    + intros ->. apply (in_sync_shows p); [symmetry; now apply F3 | exact Hs].
Qed.

Lemma create_in_sync (r : readings) (p : Page) (db : Db) :
  in_sync getTime p db ->
  in_sync getTime (fst (createNewNote getTime r p db))
          (snd (createNewNote getTime r p db)).
Proof.
  intros Hs. pose proof Hs as (Hwf & _).
  pose proof (in_sync_selectable p db Hs) as Hsel.
  unfold createNewNote.
  destruct (flush_facts (client_now r) p) as (F1 & _ & F3).
  destruct (flushSave_start (client_now r) p) as [p1 req].
  cbn [fst snd] in F1, F3. cbv zeta.
  assert (Hsel1 : selectable p1) by (intros a; rewrite F1; apply Hsel).
  set (db1 := match req with
              | Some (i, (t, c)) =>
                  snd (Service.updateNote i t c (save_now r) db)
              | None => db
              end).
  assert (Hw1 : Store.wf db1).
  { unfold db1. destruct req as [[i [t c]]|]; [|exact Hwf].
    exact (serve_wf (save_now r) (Service.UpdateNote i t c) db Hwf). }
  pose proof (serve_wf (add_now r) (Service.AddNote [] []) db1 Hw1) as Hw2.
  cbn [Service.serve] in Hw2.
  assert (Hfail : fst (Service.addNote [] [] (add_now r) db1) = Service.Failed
                  -> snd (Service.addNote [] [] (add_now r) db1) = db1).
  { unfold Service.addNote.
    destruct (insertNote [] [] (add_now r) db1) as [[l d]|];
      [discriminate | reflexivity]. }
  destruct (Service.addNote [] [] (add_now r) db1) as [ra db2].
  cbn [fst snd] in Hw2, Hfail.
  assert (H2 : in_sync getTime
                 (fst (match req with
                       | Some _ => loadNotes getTime p1 db2
                       | None => (p1, db2)
                       end))
                 db2
               \/ (req = None /\ selectable p1)).
  { destruct req; [left | right; now split].
    now destruct (load_in_sync p1 db2 Hw2 Hsel1). }
  assert (E2 : snd (match req with
                    | Some _ => loadNotes getTime p1 db2
                    | None => (p1, db2)
                    end) = db2).
  { destruct req; [|reflexivity].
    now destruct (load_in_sync p1 db2 Hw2 Hsel1). }
  assert (E1 : req = None ->
               fst (match req with
                    | Some _ => loadNotes getTime p1 db2
                    | None => (p1, db2)
                    end) = p1) by now intros ->.
  destruct (match req with
            | Some _ => loadNotes getTime p1 db2
            | None => (p1, db2)
            end) as [p2 db3].
  cbn [fst snd] in H2, E1, E2. subst db3.
  assert (Hsel2 : selectable p2).
  { destruct H2 as [H2|[Hr Hs1]]; [now apply (in_sync_selectable p2 db2)|].
    now rewrite (E1 Hr). }
  destruct ra as [newNote|].
  - destruct (load_in_sync p2 db2 Hw2 Hsel2) as [H3 E3].
    destruct (loadNotes getTime p2 db2) as [p3 db4].
    cbn [fst snd] in H3, E3. subst db4.
    destruct newNote as [n|]; [|exact H3].
    now apply select_in_sync.
  - cbn [fst snd]. destruct H2 as [H2|[Hr _]]; [exact H2|].
    rewrite (E1 Hr), (Hfail eq_refl). unfold db1. rewrite Hr.
    apply (in_sync_shows p); [symmetry; now apply F3 | exact Hs].
Qed.

Lemma delete_in_sync (p : Page) (db : Db) :
  in_sync getTime p db ->
  in_sync getTime (fst (deleteActiveNote getTime p db))
          (snd (deleteActiveNote getTime p db)).
Proof.
  intros Hs. pose proof Hs as (Hwf & _). unfold deleteActiveNote.
  destruct (activeNoteId p) as [a|]; [|exact Hs].
  destruct (Js.truthy_number (Some a)); [|exact Hs].
  change (Service.deleteNote a db)
    with (Service.Reply true, snd (Service.deleteNote a db)).
  cbv beta iota.
  pose proof (serve_wf [] (Service.DeleteNote a) db Hwf) as Hw.
  cbn [Service.serve] in Hw.
  destruct (load_in_sync (clearSelection p) _ Hw) as [H1 H2].
  - intros a'. cbn. discriminate.
  - rewrite H2. exact H1.
Qed.

Lemma trigger_shows (p : Page) : shows (triggerAutoSave p) = shows p.
Proof.
  unfold triggerAutoSave. now destruct (Js.truthy_number (activeNoteId p)).
Qed.

Lemma save_in_sync (r : readings) (p : Page) (db : Db) :
  in_sync getTime p db ->
  in_sync getTime (fst (performSave getTime r p db))
          (snd (performSave getTime r p db)).
Proof.
  intros Hs. pose proof Hs as (Hwf & _). unfold performSave.
  destruct (start_facts (client_now r) p) as (F1 & _ & F3).
  destruct (performSave_start (client_now r) p) as [p1 req].
  cbn [fst snd] in F1, F3.
  apply finish_in_sync; [exact Hwf | |].
  - intros a. rewrite F1. now apply (in_sync_selectable p db).
  - intros ->. apply (in_sync_shows p); [symmetry; now apply F3 | exact Hs].
Qed.

Lemma flush_in_sync (r : readings) (p : Page) (db : Db) :
  in_sync getTime p db ->
  in_sync getTime (fst (flushSave getTime r p db))
          (snd (flushSave getTime r p db)).
Proof.
  intros Hs. pose proof Hs as (Hwf & _). unfold flushSave.
  destruct (flush_facts (client_now r) p) as (F1 & _ & F3).
  destruct (flushSave_start (client_now r) p) as [p1 req].
  cbn [fst snd] in F1, F3.
  apply finish_in_sync; [exact Hwf | |].
  - intros a. rewrite F1. now apply (in_sync_selectable p db).
  - intros ->. apply (in_sync_shows p); [symmetry; now apply F3 | exact Hs].
Qed.

Lemma dispatch_in_sync (r : readings) (e : Event) (p : Page) (db : Db) :
  in_sync getTime p db ->
  in_sync getTime (fst (dispatch getTime r e p db))
          (snd (dispatch getTime r e p db)).
Proof.
  intros Hs. destruct e as [|s|s| | | |i|h]; cbn [dispatch].
  - now apply create_in_sync.
  - cbn [fst snd]. eapply in_sync_shows; [symmetry; apply trigger_shows|].
    exact Hs.
  - cbn [fst snd]. eapply in_sync_shows; [symmetry; apply trigger_shows|].
    exact Hs.
  - now apply flush_in_sync.
  - now apply flush_in_sync.
  - now apply delete_in_sync.
  - now apply select_in_sync.
  - destruct (Timers.lookup h (timers p)) as [t|]; [|exact Hs].
    destruct (Timers.action t); [|exact Hs].
    apply save_in_sync. exact Hs.
Qed.

Lemma run_in_sync (es : list (readings * Event)) (p : Page) (db : Db) :
  in_sync getTime p db ->
  in_sync getTime (fst (run getTime es p db)) (snd (run getTime es p db)).
Proof.
  revert p db. induction es as [|[r e] es IH]; intros p db Hs; [exact Hs|].
  cbn [run]. pose proof (dispatch_in_sync r e p db Hs) as H.
  destruct (dispatch getTime r e p db) as [p1 db1]. now apply IH.
Qed.

End Sync.

End SyncFacts.

Import SyncFacts.

(** X22. The view without search shows the store: after the first load
    on a store filled through the handlers, and after every event that
    follows it, the loaded list is the list of all notes of the store,
    latest parsed [updated_at] first; the rendered list is the rendering
    of that list with the selected id; the stats line counts the notes of
    the store; and the selected id, if any, is the id of a note of the
    store. *)
Theorem sidebar_shows_store (getTime : text -> Z)
  (es : list (readings * SidebarPage.Event)) (p0 : SidebarPage.Page)
  (db0 : Db) :
  Store.wf db0 ->
  SidebarPage.activeNoteId p0 = None ->
  let start := SidebarPage.loadNotes getTime p0 db0 in
  let p := fst (SidebarPage.run getTime es (fst start) (snd start)) in
  let db := snd (SidebarPage.run getTime es (fst start) (snd start)) in
  Store.wf db /\
  SidebarPage.notes p
  = View.SearchSidebar.by_recency getTime (getAllNotes db) /\
  SidebarPage.noteList p
  = View.Sidebar.renderNotes (SidebarPage.notes p)
                             (SidebarPage.activeNoteId p) /\
  SidebarPage.statsDiv p
  = View.SearchSidebar.stats_line (Z.of_nat (length (rows db))) /\
  (forall a, SidebarPage.activeNoteId p = Some a ->
             exists n, In n (rows db) /\ id n = a).
Proof.
  intros Hwf Hnone start p db.
  assert (Hsel : selectable p0) by (intros a E; congruence).
  destruct (load_in_sync getTime p0 db0 Hwf Hsel) as [H1 H2].
  fold start in H1, H2.
  assert (H3 : in_sync getTime (fst start) (snd start))
    by (rewrite H2; exact H1).
  destruct (run_in_sync getTime es _ _ H3) as (I1 & I2 & I3 & I4 & I5).
  fold p db in I1, I2, I3, I4, I5.
  split; [exact I1|]. split; [exact I2|]. split; [exact I3|].
  split; [exact I4|].
  intros a Ha. apply I5 in Ha. apply in_map_iff in Ha as (n & E & Hin).
  now exists n.
Qed.

Lemma sidebar_shows_store_witness :
  let r := sample_readings in
  let es := [(r, SidebarPage.ClickRow 2);
             (r, SidebarPage.TypeTitle (txt "Done"));
             (r, SidebarPage.ClickAdd);
             (r, SidebarPage.ClickRow 1);
             (r, SidebarPage.ClickDelete)] in
  let start := SidebarPage.loadNotes (fun _ => 0%Z) blank_sidebar sample_db in
  let p := fst (SidebarPage.run (fun _ => 0%Z) es (fst start) (snd start)) in
  let db := snd (SidebarPage.run (fun _ => 0%Z) es (fst start) (snd start)) in
  List.map id (rows db) = [2%Z; 5%Z; 7%Z] /\
  List.map title (getNoteById 2 db) = [txt "Done"] /\
  Permutation (SidebarPage.notes p) (rows db) /\
  SidebarPage.statsDiv p = txt "3 memos".
Proof.
  intros r es start p db.
  assert (Hwf : Store.wf sample_db).
  { unfold Store.wf, MAX_ROWID. simpl. split; [|split; [|lia]].
    - repeat constructor; lia.
    - repeat constructor; lia. }
  destruct (sidebar_shows_store (fun _ => 0%Z) es blank_sidebar sample_db
              Hwf eq_refl) as (_ & H2 & _ & H4 & _).
  fold start in H2, H4. fold p db in H2, H4.
  split; [reflexivity|]. split; [reflexivity|].
  split; [rewrite H2; apply recent_perm|].
  rewrite H4. reflexivity.
Defined.
